(** * AquaBot: the Statement-of-Facts parser agent

    A shallow embedding of [backend/app/agents/sof_parser.py]
    (class [SOFParserAgent]) and the properties of its extraction,
    normalisation, laytime, financial and confidence stages, of the
    document taken through all of them, and of the scenario calculator.

    Conventions of the embedding.
    - A Python [float] is an IEEE-754 binary64 number, here a [spec_float]
      of the Standard Library with precision 53 and maximal exponent 1024;
      every arithmetic operation rounds to nearest, ties to even, as the
      hardware does.  Python raises [ZeroDivisionError] where IEEE would
      return an infinity: division is therefore partial.
    - A Python [str] is a [string]; one [ascii] holds one code point below
      256.  Texts with larger code points are outside the model.
    - [try ... except Exception] blocks are functions into the error monad
      [res], closed by the handler the source gives them.
    - Dictionaries are [gmap string _]: the candidates of each field, and
      the entries of the laytime calculation and of the financial analysis
      as values of the dynamic type [Py.value].  The parsed data and the
      result of the entry point, whose keys are fixed, are records whose
      fields carry the key names. *)

From Stdlib Require Import ZArith Ascii String Floats.SpecFloat.
From stdpp Require Import base option list gmap strings.

Local Open Scope string_scope.
Local Open Scope Z_scope.

(** ** Error monad for exceptions *)

Inductive res (A : Type) : Type :=
| Ok (a : A)
| Raise (msg : string).
Arguments Ok {A} a.
Arguments Raise {A} msg.

#[global] Instance res_ret : MRet res := @Ok.
#[global] Instance res_bind : MBind res := fun A B f m =>
  match m with
  | Ok a => f a
  | Raise msg => Raise msg
  end.

(** [try: body except e => handler] *)
Definition try_except {A : Type} (body : res A) (handler : string -> A) : A :=
  match body with
  | Ok a => a
  | Raise msg => handler msg
  end.

(** ** Binary64 floating point *)

Module F64.

Definition prec : Z := 53.
Definition emax : Z := 1024.

Definition float : Type := spec_float.

Definition zero : float := S754_zero false.

(** [float(n)] for a Python [int] *)
Definition of_Z (n : Z) : float := binary_normalize prec emax n 0 false.

Definition add (x y : float) : float := SFadd prec emax x y.
Definition sub (x y : float) : float := SFsub prec emax x y.
Definition mul (x y : float) : float := SFmul prec emax x y.

Definition is_zero (x : float) : bool :=
  match x with
  | S754_zero _ => true
  | _ => false
  end.

(** The IEEE quotient. *)
Definition quot (x y : float) : float := SFdiv prec emax x y.

(** [x / y] on floats: [ZeroDivisionError] on a zero divisor. *)
Definition div (x y : float) : res float :=
  if is_zero y then Raise "float division by zero"
  else Ok (quot x y).

(** The integer [n], not rounded. *)
Definition exact (n : Z) : float :=
  match n with
  | Z0 => zero
  | Zpos p => S754_finite false p 0
  | Zneg p => S754_finite true p 0
  end.

(** The quotient of two integers, rounded once. *)
Definition int_quot (a b : Z) : float := quot (exact a) (exact b).

(** [a / b] on ints: the correctly rounded quotient, [ZeroDivisionError]
    on a zero divisor. *)
Definition int_truediv (a b : Z) : res float :=
  if b =? 0 then Raise "division by zero"
  else Ok (int_quot a b).

Definition leb (x y : float) : bool := SFleb x y.
Definition ltb (x y : float) : bool := SFltb x y.
Definition eqb (x y : float) : bool := SFeqb x y.

(** [bool(x)]: every float but the two zeros is true. *)
Definition truthy (x : float) : bool := negb (is_zero x).

Definition pow10 (k : nat) : positive := Nat.iter k (Pos.mul 10) 1%positive.

(** The value of the decimal numeral [n / 10^k], rounded once. *)
Definition of_decimal (n : N) (k : nat) : float :=
  int_quot (Z.of_N n) (Z.pos (pow10 k)).

End F64.

(** ** Text: the parts of [str] the agent uses *)

Module Text.

Definition code (c : ascii) : N := N_of_ascii c.

Definition in_range (lo hi c : ascii) : bool :=
  ((code lo <=? code c) && (code c <=? code hi))%N.

Definition is_digit (c : ascii) : bool := in_range "0" "9" c.

(** [str.isspace] on one code point below 256: TAB..CR, FS..US, SPACE,
    NEL (0x85) and NBSP (0xA0). *)
Definition isspace (c : ascii) : bool :=
  ((9 <=? code c) && (code c <=? 13) || (28 <=? code c) && (code c <=? 32)
   || (code c =? 133) || (code c =? 160))%N.

(** [str.lower] on one code point below 256. *)
Definition lower_char (c : ascii) : ascii :=
  if in_range "A" "Z" c then ascii_of_N (code c + 32)
  else if ((192 <=? code c) && (code c <=? 222) && negb (code c =? 215))%N
       then ascii_of_N (code c + 32)
  else c.

(** The other case of an ASCII letter; any other character is left alone. *)
Definition swapcase_ascii (c : ascii) : ascii :=
  if in_range "A" "Z" c then ascii_of_N (code c + 32)
  else if in_range "a" "z" c then ascii_of_N (code c - 32)
  else c.

Fixpoint lower (s : string) : string :=
  match s with
  | EmptyString => EmptyString
  | String c s' => String (lower_char c) (lower s')
  end.

Fixpoint lstrip (s : string) : string :=
  match s with
  | EmptyString => EmptyString
  | String c s' => if isspace c then lstrip s' else s
  end.

(** [rstrip] keeps a character when it is not a space or when something
    is kept after it. *)
Fixpoint rstrip (s : string) : string :=
  match s with
  | EmptyString => EmptyString
  | String c s' =>
      match rstrip s' with
      | EmptyString => if isspace c then EmptyString else String c EmptyString
      | r => String c r
      end
  end.

(** [s.strip()] *)
Definition strip (s : string) : string := rstrip (lstrip s).

(** [bool(s)] *)
Definition nonempty (s : string) : bool :=
  match s with
  | EmptyString => false
  | _ => true
  end.

Fixpoint starts_with (p s : string) : bool :=
  match p, s with
  | EmptyString, _ => true
  | String a p', String b s' => Ascii.eqb a b && starts_with p' s'
  | _, EmptyString => false
  end.

(** [p in s] *)
Fixpoint contains (p s : string) : bool :=
  starts_with p s ||
  match s with
  | EmptyString => false
  | String _ s' => contains p s'
  end.

(** [s.replace(c, '')] for a one-character [c] *)
Fixpoint remove_char (c : ascii) (s : string) : string :=
  match s with
  | EmptyString => EmptyString
  | String a s' => if Ascii.eqb a c then remove_char c s' else String a (remove_char c s')
  end.

(** The first [n] characters. *)
Fixpoint take (n : nat) (s : string) : string :=
  match n, s with
  | S n', String c s' => String c (take n' s')
  | _, _ => EmptyString
  end.

(** What [s] has in front of its suffix [rest]. *)
Definition consumed (s rest : string) : string :=
  take (String.length s - String.length rest) s.

End Text.

(** ** Regular expressions: the fragment of [re] the agent's patterns use

    A backtracking matcher with the priorities of Python's engine: the
    alternatives of [|] left to right, greedy repetition longest first,
    lazy repetition shortest first.  Repetition is only ever applied to a
    single character class in the source's patterns, and to one
    non-capturing group under [?]. *)

Module Re.

Inductive item :=
| Chr (c : ascii)            (* a character, escaped or not *)
| Range (lo hi : ascii)      (* lo-hi *)
| Space                      (* \s *)
| Digit.                     (* \d *)

Definition cls := list item.

Inductive regex :=
| Lit (s : string)           (* literal text *)
| In (c : cls)               (* [...] once *)
| Rep (lo : nat) (hi : option nat) (greedy : bool) (c : cls)
                             (* [...]{lo,hi}, [...]+, [...]*, [...]+? *)
| Opt (r : regex)            (* (?:r)? *)
| Alt (r1 r2 : regex)        (* r1|r2 *)
| Seq (r1 r2 : regex)        (* r1r2 *)
| Group (i : nat) (r : regex) (* (r), the i-th capturing group *)
| Eol.                       (* $ *)

Definition item_match (c : ascii) (i : item) : bool :=
  match i with
  | Chr a => Ascii.eqb a c
  | Range lo hi => Text.in_range lo hi c
  | Space => Text.isspace c
  | Digit => Text.is_digit c
  end.

(** With IGNORECASE a character matches when it or its other case does. *)
Definition cls_match (ic : bool) (cl : cls) (c : ascii) : bool :=
  existsb (item_match c) cl || (ic && existsb (item_match (Text.swapcase_ascii c)) cl).

Definition chr_match (ic : bool) (a c : ascii) : bool :=
  Ascii.eqb a c || (ic && Ascii.eqb a (Text.swapcase_ascii c)).

Definition below (n : nat) (hi : option nat) : bool :=
  match hi with
  | None => true
  | Some h => (n <? h)%nat
  end.

Definition captures := list (nat * string).

Section Matcher.
Context {R : Type}.
Variable ic : bool.

Definition cont := string -> captures -> option R.

Fixpoint lit (p s : string) : option string :=
  match p, s with
  | EmptyString, _ => Some s
  | String a p', String c s' => if chr_match ic a c then lit p' s' else None
  | _, EmptyString => None
  end.

Fixpoint rep_greedy (cl : cls) (lo : nat) (hi : option nat) (n : nat)
    (s : string) (k : string -> option R) : option R :=
  let stop := if (lo <=? n)%nat then k s else None in
  match s with
  | String c s' =>
      if cls_match ic cl c && below n hi then
        match rep_greedy cl lo hi (S n) s' k with
        | Some r => Some r
        | None => stop
        end
      else stop
  | EmptyString => stop
  end.

Fixpoint rep_lazy (cl : cls) (lo : nat) (hi : option nat) (n : nat)
    (s : string) (k : string -> option R) : option R :=
  let more :=
    match s with
    | String c s' =>
        if cls_match ic cl c && below n hi then rep_lazy cl lo hi (S n) s' k else None
    | EmptyString => None
    end in
  if (lo <=? n)%nat then
    match k s with
    | Some r => Some r
    | None => more
    end
  else more.

Fixpoint rmatch (r : regex) (s : string) (caps : captures) (k : cont) : option R :=
  match r with
  | Lit p =>
      match lit p s with
      | Some s' => k s' caps
      | None => None
      end
  | In cl =>
      match s with
      | String c s' => if cls_match ic cl c then k s' caps else None
      | EmptyString => None
      end
  | Rep lo hi greedy cl =>
      (if greedy then rep_greedy else rep_lazy) cl lo hi 0%nat s (fun s' => k s' caps)
  | Opt r1 =>
      match rmatch r1 s caps k with
      | Some x => Some x
      | None => k s caps
      end
  | Alt r1 r2 =>
      match rmatch r1 s caps k with
      | Some x => Some x
      | None => rmatch r2 s caps k
      end
  | Seq r1 r2 => rmatch r1 s caps (fun s' caps' => rmatch r2 s' caps' k)
  | Group i r1 =>
      rmatch r1 s caps (fun s' caps' => k s' ((i, Text.consumed s s') :: caps'))
  | Eol =>
      match s with
      | EmptyString => k s caps
      | String c EmptyString => if Ascii.eqb c "010" then k s caps else None
      | _ => None
      end
  end.
End Matcher.

(** A match object: the text after the match and the groups. *)
Record mobj := { rest : string; groups : captures }.

(** [pattern.match(s)] at the front of [s] *)
Definition match_here (ic : bool) (r : regex) (s : string) : option mobj :=
  rmatch ic r s [] (fun s' caps => Some {| rest := s'; groups := caps |}).

(** [m.group(i)], the empty string for a group that took no part *)
Definition group (m : mobj) (i : nat) : string :=
  match List.find (fun p => Nat.eqb (fst p) i) (groups m) with
  | Some p => snd p
  | None => ""
  end.

(** [re.search]: the match at the leftmost position that has one. *)
Fixpoint search (ic : bool) (r : regex) (s : string) : option mobj :=
  match match_here ic r s with
  | Some m => Some m
  | None =>
      match s with
      | EmptyString => None
      | String _ s' => search ic r s'
      end
  end.

(** What [re.findall] lists for one match: the text of the only group,
    or the tuple of the groups when the pattern has several. *)
Inductive found :=
| One (s : string)
| Tuple (gs : list string).

Definition report (ngroups : nat) (s : string) (m : mobj) : found :=
  match ngroups with
  | O => One (Text.consumed s (rest m))
  | S O => One (group m 1)
  | _ => Tuple (List.map (group m) (seq 1 ngroups))
  end.

(** [re.findall]: the matches left to right, none overlapping.  [skip]
    counts the characters still covered by the last match.  A match of
    no character lets the scan move on by one character. *)
Fixpoint findall_from (ic : bool) (r : regex) (ngroups : nat) (skip : nat)
    (s : string) : list found :=
  match skip with
  | S skip' =>
      match s with
      | EmptyString => []
      | String _ s' => findall_from ic r ngroups skip' s'
      end
  | O =>
      match match_here ic r s with
      | Some m =>
          report ngroups s m ::
          match s with
          | EmptyString => []
          | String _ s' =>
              findall_from ic r ngroups
                (Nat.pred (String.length s - String.length (rest m))) s'
          end
      | None =>
          match s with
          | EmptyString => []
          | String _ s' => findall_from ic r ngroups 0 s'
          end
      end
  end.

Definition findall (ic : bool) (r : regex) (ngroups : nat) (s : string) : list found :=
  findall_from ic r ngroups 0 s.

End Re.

(** ** Dates and times: the parts of [datetime] the agent uses *)

Module Datetime.

Record datetime := {
  year : Z; month : Z; day : Z;
  hour : Z; minute : Z; second : Z; microsecond : Z }.

Definition is_leap (y : Z) : bool :=
  (y mod 4 =? 0) && (negb (y mod 100 =? 0) || (y mod 400 =? 0)).

Definition days_in_month (y m : Z) : Z :=
  if m =? 2 then (if is_leap y then 29 else 28)
  else if (m =? 4) || (m =? 6) || (m =? 9) || (m =? 11) then 30
  else 31.

Definition days_before_year (y : Z) : Z :=
  let y1 := y - 1 in y1 * 365 + y1 / 4 - y1 / 100 + y1 / 400.

Definition days_before_month (y m : Z) : Z :=
  fold_right Z.add 0 (List.map (days_in_month y) (List.map Z.of_nat (seq 1 (Z.to_nat (m - 1))))).

(** [date.toordinal()]: 1 for 1 January of year 1. *)
Definition toordinal (d : datetime) : Z :=
  days_before_year (year d) + days_before_month (year d) (month d) + day d.

(** The arguments [datetime(...)] accepts; it raises [ValueError] on others. *)
Definition valid (d : datetime) : bool :=
  (1 <=? year d) && (year d <=? 9999) && (1 <=? month d) && (month d <=? 12)
  && (1 <=? day d) && (day d <=? days_in_month (year d) (month d))
  && (0 <=? hour d) && (hour d <=? 23) && (0 <=? minute d) && (minute d <=? 59)
  && (0 <=? second d) && (second d <=? 59)
  && (0 <=? microsecond d) && (microsecond d <=? 999999).

(** A [timedelta], held as its signed number of microseconds. *)
Definition timedelta : Type := Z.

Definition micros (d : datetime) : Z :=
  ((toordinal d * 86400 + hour d * 3600 + minute d * 60 + second d) * 1000000)
  + microsecond d.

(** [a - b] *)
Definition sub (a b : datetime) : timedelta := micros a - micros b.

(** [td.total_seconds()]: the microseconds divided by [10**6]. *)
Definition total_seconds (td : timedelta) : res F64.float :=
  F64.int_truediv td 1000000.

(** Decimal digits, for [int(...)] and [isoformat]. *)
Definition digit_val (c : ascii) : Z := Z.of_N (Text.code c) - 48.

Fixpoint int_digits (acc : Z) (s : string) : Z :=
  match s with
  | EmptyString => acc
  | String c s' => int_digits (acc * 10 + digit_val c) s'
  end.

(** [int(s)] on what the directives of [strptime] capture: digits, after
    an optional blank. *)
Definition py_int (s : string) : Z := int_digits 0 (Text.strip s).

Definition digit_chr (n : Z) : ascii := ascii_of_N (Z.to_N (48 + n mod 10)).

(** [n] written with [w] digits, zeros in front. *)
Fixpoint padded (w : nat) (n : Z) : string :=
  match w with
  | O => EmptyString
  | S w' => padded w' (n / 10) ++ String (digit_chr n) EmptyString
  end.

(** [d.isoformat()] *)
Definition isoformat (d : datetime) : string :=
  padded 4 (year d) ++ "-" ++ padded 2 (month d) ++ "-" ++ padded 2 (day d) ++ "T"
  ++ padded 2 (hour d) ++ ":" ++ padded 2 (minute d) ++ ":" ++ padded 2 (second d)
  ++ (if microsecond d =? 0 then "" else "." ++ padded 6 (microsecond d)).

(** *** [datetime.strptime], for the directives the agent's formats use *)

Import Re.

Definition key (c : ascii) : nat := nat_of_ascii c.

Definition one (lo hi : ascii) : regex := In [Range lo hi].
Definition dig : regex := In [Digit].

(** The regular expression of a directive, as in [_strptime.TimeRE]. *)
Definition directive (c : ascii) : option regex :=
  if Ascii.eqb c "d" then
    (* 3[0-1]|[1-2]\d|0[1-9]|[1-9]| [1-9] *)
    Some (Group (key c)
            (Alt (Seq (Lit "3") (one "0" "1"))
            (Alt (Seq (one "1" "2") dig)
            (Alt (Seq (Lit "0") (one "1" "9"))
            (Alt (one "1" "9")
                 (Seq (Lit " ") (one "1" "9")))))))
  else if Ascii.eqb c "m" then
    (* 1[0-2]|0[1-9]|[1-9] *)
    Some (Group (key c)
            (Alt (Seq (Lit "1") (one "0" "2"))
            (Alt (Seq (Lit "0") (one "1" "9"))
                 (one "1" "9"))))
  else if Ascii.eqb c "Y" then
    Some (Group (key c) (Seq dig (Seq dig (Seq dig dig))))
  else if Ascii.eqb c "y" then
    Some (Group (key c) (Seq dig dig))
  else if Ascii.eqb c "H" then
    (* 2[0-3]|[0-1]\d|\d *)
    Some (Group (key c)
            (Alt (Seq (Lit "2") (one "0" "3"))
            (Alt (Seq (one "0" "1") dig)
                 dig)))
  else if Ascii.eqb c "M" then
    (* [0-5]\d|\d *)
    Some (Group (key c) (Alt (Seq (one "0" "5") dig) dig))
  else None.

(** [TimeRE.pattern]: a run of blanks in the format stands for [\s+], a
    directive for its expression, any other character for itself.
    [blank] tells that the character before was a blank. *)
Fixpoint pattern (blank : bool) (fmt : string) : option regex :=
  match fmt with
  | EmptyString => Some (Lit "")
  | String "%" (String c fmt') =>
      r ← directive c; rs ← pattern false fmt'; Some (Seq r rs)
  | String c fmt' =>
      if Text.isspace c then
        rs ← pattern true fmt';
        Some (if blank then rs else Seq (Rep 1 None true [Space]) rs)
      else
        rs ← pattern false fmt'; Some (Seq (Lit (String c EmptyString)) rs)
  end.

Definition has (m : mobj) (c : ascii) : bool :=
  existsb (fun p => Nat.eqb (fst p) (key c)) (groups m).

Definition field (m : mobj) (c : ascii) (default : Z) : Z :=
  if has m c then py_int (group m (key c)) else default.

(** [datetime.strptime(data_string, format)]; [None] is [ValueError]. *)
Definition strptime (data_string format : string) : option datetime :=
  r ← pattern false format;
  m ← match_here true r data_string;
  if Text.nonempty (rest m) then None   (* unconverted data remains *)
  else
    let y :=
      if has m "y" then
        let y := py_int (group m (key "y")) in
        if y <=? 68 then y + 2000 else y + 1900
      else field m "Y" 1900 in
    let d := {| year := y; month := field m "m" 1; day := field m "d" 1;
                hour := field m "H" 0; minute := field m "M" 0;
                second := 0; microsecond := 0 |} in
    if valid d then Some d else None.

End Datetime.

(** ** Dynamically typed values: what the result dictionaries hold *)

Module Py.

#[warnings="-register-all"]
Inductive value :=
| VInt (n : Z)
| VFloat (x : F64.float)
| VStr (s : string)
| VDict (d : gmap string value).

#[global] Instance value_inhabited : Inhabited value := populate (VInt 0).

Definition type_name (v : value) : string :=
  match v with
  | VInt _ => "int"
  | VFloat _ => "float"
  | VStr _ => "str"
  | VDict _ => "dict"
  end.

(** [v == s] for a string literal [s] *)
Definition eq_str (v : value) (s : string) : bool :=
  match v with
  | VStr s' => String.eqb s' s
  | _ => false
  end.

(** The conversion of an [int] operand of a float operation. *)
Definition int_to_float (n : Z) : res F64.float :=
  match F64.of_Z n with
  | S754_infinity _ => Raise "int too large to convert to float"
  | x => Ok x
  end.

Fixpoint repeat_str (n : nat) (s : string) : string :=
  match n with
  | O => ""
  | S n' => s +:+ repeat_str n' s
  end.

(** [v * n] for an [int] n *)
Definition mul_int (v : value) (n : Z) : res value :=
  match v with
  | VInt a => Ok (VInt (a * n))
  | VFloat x => y ← int_to_float n; Ok (VFloat (F64.mul x y))
  | VStr s => Ok (VStr (repeat_str (Z.to_nat n) s))
  | VDict _ => Raise "unsupported operand type(s) for *: 'dict' and 'int'"
  end.

(** [x / v] for a [float] x *)
Definition float_truediv (x : F64.float) (v : value) : res value :=
  match v with
  | VInt n => y ← int_to_float n; q ← F64.div x y; Ok (VFloat q)
  | VFloat y => q ← F64.div x y; Ok (VFloat q)
  | _ => Raise ("unsupported operand type(s) for /: 'float' and '" +:+ type_name v +:+ "'")
  end.

(** [float(s)] on the numerals the agent's patterns capture: digits with
    at most one point and a digit somewhere.  [None] is [ValueError]. *)
Fixpoint all_digits (s : string) : bool :=
  match s with
  | EmptyString => true
  | String c s' => Text.is_digit c && all_digits s'
  end.

Fixpoint split_point (s : string) : string * option string :=
  match s with
  | EmptyString => (EmptyString, None)
  | String c s' =>
      if Ascii.eqb c "." then (EmptyString, Some s')
      else let '(a, b) := split_point s' in (String c a, b)
  end.

Definition float_of_str (s : string) : option F64.float :=
  let '(ip, fp) := split_point s in
  let fp := default "" fp in
  if all_digits ip && all_digits fp && Text.nonempty (ip +:+ fp) then
    Some (F64.of_decimal (Z.to_N (Datetime.int_digits 0 (ip +:+ fp))) (String.length fp))
  else None.

(** [round(x, 2)]: the decimal with two places nearest to the exact value
    of [x], ties to the even one, then the float nearest to that decimal. *)
Definition half_even (num den : Z) : Z :=
  let q := num / den in
  let r := num mod den in
  match 2 * r ?= den with
  | Lt => q
  | Gt => q + 1
  | Eq => if Z.even q then q else q + 1
  end.

Definition round2 (x : F64.float) : F64.float :=
  match x with
  | S754_finite s m e =>
      let n := if 0 <=? e then Z.pos m * 2 ^ e * 100
               else half_even (Z.pos m * 100) (2 ^ (- e)) in
      match n with
      | Z.pos p => F64.quot (S754_finite s p 0) (F64.exact 100)
      | _ => S754_zero s
      end
  | _ => x
  end.

(** [min(a, b)]: [b] when [b < a], else [a]. *)
Definition min (a b : F64.float) : F64.float := if F64.ltb b a then b else a.

End Py.

(** ** Numbers: the [int] and [float] operands of arithmetic *)

Module Number.

Import Py.

Inductive number :=
| Int (n : Z)
| Float (x : F64.float).

Definition to_value (a : number) : value :=
  match a with
  | Int n => VInt n
  | Float x => VFloat x
  end.

(** [a + b] *)
Definition add (a b : number) : res number :=
  match a, b with
  | Int m, Int n => Ok (Int (m + n))
  | Int m, Float y => x ← int_to_float m; Ok (Float (F64.add x y))
  | Float x, Int n => y ← int_to_float n; Ok (Float (F64.add x y))
  | Float x, Float y => Ok (Float (F64.add x y))
  end.

(** [a * b] *)
Definition mul (a b : number) : res number :=
  match a, b with
  | Int m, Int n => Ok (Int (m * n))
  | Int m, Float y => x ← int_to_float m; Ok (Float (F64.mul x y))
  | Float x, Int n => y ← int_to_float n; Ok (Float (F64.mul x y))
  | Float x, Float y => Ok (Float (F64.mul x y))
  end.

(** [a / b]: the quotient of two [int]s is rounded once and raises
    [OverflowError] when it is too large; with a [float] operand the
    other one is converted first. *)
Definition truediv (a b : number) : res number :=
  match a, b with
  | Int m, Int n =>
      q ← F64.int_truediv m n;
      match q with
      | S754_infinity _ => Raise "integer division result too large for a float"
      | _ => Ok (Float q)
      end
  | Int m, Float y => x ← int_to_float m; q ← F64.div x y; Ok (Float q)
  | Float x, Int n => y ← int_to_float n; q ← F64.div x y; Ok (Float q)
  | Float x, Float y => q ← F64.div x y; Ok (Float q)
  end.

End Number.

(** ** The agent: [SOFParserAgent] *)

Module SOFParserAgent.

Import Re.

Definition LF : string := String "010" EmptyString.

(** Concatenation of the parts of a pattern, left to right. *)
Definition cat (rs : list regex) : regex := fold_right Seq (Lit "") rs.

Fixpoint ngroups (r : regex) : nat :=
  match r with
  | Opt r1 => ngroups r1
  | Alt r1 r2 | Seq r1 r2 => ngroups r1 + ngroups r2
  | Group _ r1 => S (ngroups r1)
  | _ => 0
  end.

Definition plus (c : cls) : regex := Rep 1 None true c.
Definition plus_lazy (c : cls) : regex := Rep 1 None false c.
Definition star (c : cls) : regex := Rep 0 None true c.
Definition maybe (c : ascii) : regex := Rep 0 (Some 1%nat) true [Chr c].
Definition times (lo hi : nat) (c : cls) : regex := Rep lo (Some hi) true c.

Definition d09 : cls := [Range "0" "9"].
Definition sep : cls := [Chr ":"; Space].                      (* [:\s] *)
Definition letters : cls := [Range "A" "Z"; Range "a" "z"; Space; Chr "-"].
                                                               (* [A-Za-z\s\-] *)
Definition alnums : cls :=
  [Range "A" "Z"; Range "a" "z"; Range "0" "9"; Space; Chr "-"].
                                                               (* [A-Za-z0-9\s\-] *)
Definition words : cls := [Range "A" "Z"; Range "a" "z"; Space]. (* [A-Za-z\s] *)

(** [(?:\n|$)] *)
Definition eol : regex := Alt (Lit LF) Eol.

(** [([0-9]{1,2}[/\-][0-9]{1,2}[/\-][0-9]{2,4}[,\s]+[0-9]{1,2}:[0-9]{2})] *)
Definition stamp : regex :=
  Group 1 (cat [times 1 2 d09; In [Chr "/"; Chr "-"]; times 1 2 d09;
                In [Chr "/"; Chr "-"]; times 2 4 d09; plus [Chr ","; Space];
                times 1 2 d09; Lit ":"; times 2 2 d09]).

(** [([0-9]+(?:\.[0-9]+)?)] *)
Definition number : regex :=
  Group 1 (cat [plus d09; Opt (cat [Lit "."; plus d09])]).

(** [([0-9,]+(?:\.[0-9]+)?)] *)
Definition quantity : regex :=
  Group 1 (cat [plus [Range "0" "9"; Chr ","]; Opt (cat [Lit "."; plus d09])]).

(** [(hours?|days?)] *)
Definition time_unit : regex :=
  Group 2 (Alt (cat [Lit "hour"; maybe "s"]) (cat [Lit "day"; maybe "s"])).

(** [(mt|tons?|metric\s+tons?)] *)
Definition mass_unit : regex :=
  Group 2 (Alt (Lit "mt")
          (Alt (cat [Lit "ton"; maybe "s"])
               (cat [Lit "metric"; plus [Space]; Lit "ton"; maybe "s"]))).

(** [self.sof_patterns], in the order of the dictionary literal. *)
Definition sof_patterns : list (string * list regex) :=
  [ ("vessel_name",
      [ cat [Lit "vessel"; plus sep; Group 1 (plus_lazy letters); eol];
        cat [Lit "m/v"; plus [Space]; Group 1 (plus_lazy letters); eol];
        cat [Lit "m.v."; plus [Space]; Group 1 (plus_lazy letters); eol];
        cat [Lit "ship"; plus sep; Group 1 (plus_lazy letters); eol] ]);
    ("voyage_number",
      [ cat [Lit "voyage"; plus sep; Group 1 (plus_lazy alnums); eol];
        cat [Lit "voy"; plus [Space]; Group 1 (plus_lazy alnums); eol];
        cat [Lit "voyage"; plus [Space]; Lit "no"; plus sep;
             Group 1 (plus_lazy alnums); eol] ]);
    ("arrival_time",
      [ cat [Lit "arrival"; plus sep; stamp];
        cat [Lit "arrived"; plus sep; stamp];
        cat [Lit "eta"; plus sep; stamp] ]);
    ("departure_time",
      [ cat [Lit "departure"; plus sep; stamp];
        cat [Lit "departed"; plus sep; stamp];
        cat [Lit "etd"; plus sep; stamp] ]);
    ("nor_time",
      [ cat [Lit "nor"; plus sep; stamp];
        cat [Lit "notice"; plus [Space]; Lit "of"; plus [Space]; Lit "readiness";
             plus sep; stamp];
        cat [Lit "readiness"; plus sep; stamp] ]);
    ("laytime_allowed",
      [ cat [Lit "laytime"; plus sep; number; star [Space]; time_unit];
        cat [Lit "lay"; plus [Space]; Lit "time"; plus sep; number; star [Space];
             time_unit];
        cat [Lit "allowed"; plus [Space]; Lit "time"; plus sep; number;
             star [Space]; time_unit] ]);
    ("cargo_quantity",
      [ cat [Lit "cargo"; plus sep; quantity; star [Space]; mass_unit];
        cat [Lit "quantity"; plus sep; quantity; star [Space]; mass_unit];
        cat [Lit "loaded"; plus sep; quantity; star [Space]; mass_unit];
        cat [Lit "discharged"; plus sep; quantity; star [Space]; mass_unit] ]);
    ("berth_info",
      [ cat [Lit "berth"; plus sep; Group 1 (plus_lazy alnums); eol];
        cat [Lit "terminal"; plus sep; Group 1 (plus_lazy alnums); eol];
        cat [Lit "quay"; plus sep; Group 1 (plus_lazy alnums); eol] ]);
    ("port_name",
      [ cat [Lit "port"; plus sep; Group 1 (plus_lazy words); eol];
        cat [Lit "at"; plus [Space]; Group 1 (plus_lazy words); eol];
        cat [Lit "in"; plus [Space]; Group 1 (plus_lazy words); eol] ]) ].

(** *** [_extract_sof_data] *)

(** What one element of [matches] adds to [extracted_data[field_name]]. *)
Definition candidates_of (m : found) : list string :=
  match m with
  | Tuple gs => List.filter (fun g => Text.nonempty (Text.strip g)) gs
  | One s => if Text.nonempty (Text.strip s) then [Text.strip s] else []
  end.

(** The two nested loops over the patterns of a field and their matches. *)
Definition raw_matches (patterns : list regex) (text_content : string) : list string :=
  List.flat_map
    (fun pattern =>
       List.flat_map candidates_of (findall true pattern (ngroups pattern) text_content))
    patterns.

(** The loop that removes duplicates: [seen] is the set, the result the
    list [unique_matches]. *)
Fixpoint unique (seen : gset string) (l : list string) : list string :=
  match l with
  | [] => []
  | m :: l' =>
      if decide (m ∈ seen) then unique seen l'
      else m :: unique ({[m]} ∪ seen) l'
  end.

Definition _extract_sof_data_from (table : list (string * list regex))
    (text_content : string) : gmap string (list string) :=
  foldl (fun extracted_data entry =>
           <[fst entry := unique ∅ (raw_matches (snd entry) text_content)]> extracted_data)
        ∅ table.

Definition _extract_sof_data (text_content : string) : gmap string (list string) :=
  _extract_sof_data_from sof_patterns text_content.


(** *** [_parse_datetime] *)

Import Datetime Py.

Definition formats : list string :=
  ["%d/%m/%Y, %H:%M"; "%d-%m-%Y, %H:%M"; "%Y-%m-%d, %H:%M";
   "%d/%m/%y, %H:%M"; "%d-%m-%y, %H:%M"].

Definition date_formats : list string :=
  ["%d/%m/%Y"; "%d-%m-%Y"; "%Y-%m-%d"; "%d/%m/%y"; "%d-%m-%y"].

(** [for fmt in fmts: try: return strptime(...) except ValueError: continue] *)
Fixpoint try_formats (datetime_str : string) (fmts : list string) : option datetime :=
  match fmts with
  | [] => None
  | fmt :: fmts' =>
      match strptime datetime_str fmt with
      | Some d => Some d
      | None => try_formats datetime_str fmts'
      end
  end.

Definition _parse_datetime (datetime_str : string) : option datetime :=
  match try_formats datetime_str formats with
  | Some d => Some d
  | None => try_formats datetime_str date_formats
  end.

(** *** [_parse_laytime] *)

(** [([0-9]+(?:\.[0-9]+)?)\s*(hours?|days?)] *)
Definition laytime_re : regex := cat [number; star [Space]; time_unit].

Definition _parse_laytime (laytime_str : string) : option F64.float :=
  match search true laytime_re laytime_str with
  | Some m =>
      match float_of_str (group m 1) with
      | Some value =>
          let unit := Text.lower (group m 2) in
          if Text.contains "day" unit then Some (F64.mul value (F64.of_Z 24))
          else Some value
      | None => None     (* except Exception: return None *)
      end
  | None => None
  end.

(** *** [_parse_cargo_quantity] *)

Definition _parse_cargo_quantity (cargo_str : string) : option F64.float :=
  match search false quantity cargo_str with
  | Some m =>
      let value_str := Text.remove_char "," (group m 1) in
      float_of_str value_str     (* [ValueError] is caught: [None] *)
  | None => None
  end.

(** *** [_parse_dates_and_times] *)

(** [parsed_data]: the copy of [extracted_data] and the keys added to it.
    For an added key, [None] is a missing key and [Some None] the value
    [None]. *)
Record ParsedData := {
  extracted : gmap string (list string);
  arrival_datetime : option (option datetime);
  departure_datetime : option (option datetime);
  nor_datetime : option (option datetime);
  laytime_hours : option (option F64.float);
  cargo_mt : option (option F64.float) }.

(** [if extracted_data.get(key): parsed_data[...] = parse(extracted_data[key][0])] *)
Definition parse_first {A : Type} (parse : string -> option A)
    (extracted_data : gmap string (list string)) (key : string) : option (option A) :=
  match extracted_data !! key with
  | Some (first :: _) => Some (parse first)
  | _ => None
  end.

Definition _parse_dates_and_times (extracted_data : gmap string (list string))
    : ParsedData :=
  {| extracted := extracted_data;
     arrival_datetime := parse_first _parse_datetime extracted_data "arrival_time";
     departure_datetime := parse_first _parse_datetime extracted_data "departure_time";
     nor_datetime := parse_first _parse_datetime extracted_data "nor_time";
     laytime_hours := parse_first _parse_laytime extracted_data "laytime_allowed";
     cargo_mt := parse_first _parse_cargo_quantity extracted_data "cargo_quantity" |}.

(** [parsed_data.get(key)] *)
Definition get {A : Type} (entry : option (option A)) : option A := mjoin entry.

(** *** [_calculate_laytime] *)

Definition laytime_body (parsed_data : ParsedData) : res (gmap string value) :=
  let calculations : gmap string value := ∅ in
  let nor_time := get (nor_datetime parsed_data) in
  let arrival_time := get (arrival_datetime parsed_data) in
  let departure_time := get (departure_datetime parsed_data) in
  let laytime_allowed := get (laytime_hours parsed_data) in
  calculations ←
    match nor_time, departure_time with
    | Some nor_time, Some departure_time =>
        let total_time := Datetime.sub departure_time nor_time in
        total_seconds ← Datetime.total_seconds total_time;
        total_hours ← F64.div total_seconds (F64.of_Z 3600);
        let calculations := <["total_time_hours" := VFloat total_hours]> calculations in
        total_days ← F64.div total_hours (F64.of_Z 24);
        let calculations := <["total_time_days" := VFloat total_days]> calculations in
        match laytime_allowed with
        | Some laytime_allowed =>
            if F64.truthy laytime_allowed then
              let calculations :=
                <["laytime_allowed_hours" := VFloat laytime_allowed]> calculations in
              allowed_days ← F64.div laytime_allowed (F64.of_Z 24);
              let calculations :=
                <["laytime_allowed_days" := VFloat allowed_days]> calculations in
              if F64.leb total_hours laytime_allowed then
                let calculations :=
                  <["laytime_status" := VStr "within_limit"]> calculations in
                let calculations :=
                  <["time_saved_hours" := VFloat (F64.sub laytime_allowed total_hours)]>
                    calculations in
                saved_days ← F64.div (F64.sub laytime_allowed total_hours) (F64.of_Z 24);
                Ok (<["time_saved_days" := VFloat saved_days]> calculations)
              else
                let calculations :=
                  <["laytime_status" := VStr "exceeded"]> calculations in
                let calculations :=
                  <["time_exceeded_hours" := VFloat (F64.sub total_hours laytime_allowed)]>
                    calculations in
                exceeded_days ← F64.div (F64.sub total_hours laytime_allowed) (F64.of_Z 24);
                Ok (<["time_exceeded_days" := VFloat exceeded_days]> calculations)
            else Ok calculations
        | None => Ok calculations
        end
    | _, _ => Ok calculations
    end;
  let cargo_mt := get (cargo_mt parsed_data) in
  match cargo_mt with
  | Some cargo_mt =>
      if F64.truthy cargo_mt && bool_decide (is_Some (calculations !! "total_time_hours"))
      then
        per_hour ← float_truediv cargo_mt (calculations !!! "total_time_hours");
        let calculations := <["cargo_rate_mt_per_hour" := per_hour]> calculations in
        per_day ← float_truediv cargo_mt (calculations !!! "total_time_days");
        Ok (<["cargo_rate_mt_per_day" := per_day]> calculations)
      else Ok calculations
  | None => Ok calculations
  end.

Definition _calculate_laytime (parsed_data : ParsedData) : gmap string value :=
  try_except (laytime_body parsed_data)
    (fun e => {[ "error" := VStr ("Laytime calculation failed: " +:+ e) ]}).

(** *** [_analyze_financial_implications] *)

Definition example_rates : gmap string value :=
  <["despatch_rate_usd_per_day" := VInt 12500]>
    (<["demurrage_rate_usd_per_day" := VInt 25000]> ∅).

(** The text of [financial_analysis["note"]]. *)
Definition disclaimer : string :=
  "Rates are examples. Actual rates should be verified from charter party.".

Definition rate (key : string) : Z :=
  match example_rates !!! key with
  | VInt n => n
  | _ => 0
  end.

Definition financial_body (parsed_data : ParsedData)
    (laytime_calculations : gmap string value) : res (gmap string value) :=
  let financial_analysis : gmap string value := ∅ in
  financial_analysis ←
    match laytime_calculations !! "laytime_status" with
    | Some status =>
        if eq_str status "within_limit" then
          let time_saved_days :=
            default (VInt 0) (laytime_calculations !! "time_saved_days") in
          despatch_amount ← mul_int time_saved_days (rate "despatch_rate_usd_per_day");
          Ok (<["financial_impact" := VStr "positive"]>
              (<["time_saved_days" := time_saved_days]>
               (<["despatch_rate_usd_per_day" := example_rates !!! "despatch_rate_usd_per_day"]>
                (<["despatch_amount_usd" := despatch_amount]> financial_analysis))))
        else if eq_str status "exceeded" then
          let time_exceeded_days :=
            default (VInt 0) (laytime_calculations !! "time_exceeded_days") in
          demurrage_amount ← mul_int time_exceeded_days (rate "demurrage_rate_usd_per_day");
          Ok (<["financial_impact" := VStr "negative"]>
              (<["time_exceeded_days" := time_exceeded_days]>
               (<["demurrage_rate_usd_per_day" := example_rates !!! "demurrage_rate_usd_per_day"]>
                (<["demurrage_amount_usd" := demurrage_amount]> financial_analysis))))
        else Ok financial_analysis
    | None => Ok financial_analysis
    end;
  Ok (<["note" := VStr disclaimer]>
      (<["example_rates" := VDict example_rates]> financial_analysis)).

Definition _analyze_financial_implications (parsed_data : ParsedData)
    (laytime_calculations : gmap string value) : gmap string value :=
  try_except (financial_body parsed_data laytime_calculations)
    (fun e => {[ "error" := VStr ("Financial analysis failed: " +:+ e) ]}).

(** *** [_calculate_confidence_score] *)

Definition truthy_list (field_data : list string) : bool :=
  match field_data with
  | [] => false
  | _ => true
  end.

Definition critical_fields : list string :=
  ["vessel_name"; "arrival_time"; "departure_time"].

Definition critical_boost : F64.float := F64.of_decimal 2 1.     (* 0.2 *)

(** [sum(1 for x in xs if p(x))] *)
Definition count_if {A : Type} (p : A -> bool) (xs : list A) : Z :=
  Z.of_nat (List.length (List.filter p xs)).

Definition confidence_body (extracted_data : gmap string (list string))
    : res F64.float :=
  let fields_with_data :=
    count_if (fun entry => truthy_list (snd entry)) (map_to_list extracted_data) in
  let total_fields := Z.of_nat (size extracted_data) in
  base_confidence ←
    (if 0 <? total_fields then F64.int_truediv fields_with_data total_fields
     else Ok (F64.of_Z 0));
  let critical_fields_present :=
    count_if (fun field => truthy_list (default [] (extracted_data !! field)))
      critical_fields in
  ratio ← F64.int_truediv critical_fields_present (Z.of_nat (List.length critical_fields));
  let critical_confidence := F64.mul ratio critical_boost in
  let final_confidence :=
    Py.min (F64.add base_confidence critical_confidence) (F64.of_Z 1) in
  Ok (round2 final_confidence).

Definition _calculate_confidence_score (extracted_data : gmap string (list string))
    : F64.float :=
  try_except (confidence_body extracted_data) (fun _ => F64.zero).

(** *** [parse_sof_document] *)

(** The dictionary the entry point returns. *)
Record ParseResult := {
  filename : string;
  extracted_data : gmap string (list string);
  parsed_data : ParsedData;
  laytime_calculations : gmap string value;
  financial_analysis : gmap string value;
  analysis_timestamp : string;
  confidence_score : F64.float }.

Fixpoint join (sep : string) (parts : list string) : string :=
  match parts with
  | [] => ""
  | [part] => part
  | part :: parts' => part +:+ sep +:+ join sep parts'
  end.

(** [s.endswith(suffix)] *)
Definition endswith (s suffix : string) : bool :=
  (String.length suffix <=? String.length s)%nat
  && String.eqb (substring (String.length s - String.length suffix)
                           (String.length suffix) s) suffix.

Section EntryPoint.

(** The two collaborators of the entry point that are not code of the
    agent: the codec, [content.decode('utf-8', errors='ignore')], and
    PyMuPDF, present or not, which gives the text of the pages of a PDF
    or raises. *)
Variable decode : string -> string.
Variable fitz : option (string -> res (list string)).

Definition text_of (content file_name : string) : string :=
  let text_content := decode content in
  match fitz with
  | Some pages_of =>
      if endswith (Text.lower file_name) ".pdf"
         && (negb (Text.nonempty text_content)
             || (String.length (Text.strip text_content) <? 20)%nat)
      then
        match pages_of content with
        | Ok pages_text => join LF pages_text
        | Raise _ => text_content       (* except Exception: pass *)
        end
      else text_content
  | None => text_content
  end.

(** [now] is the reading of the clock, [datetime.now()], at the call.
    No step of the body raises, so the handler of the outer [try] is
    never entered. *)
Definition parse_sof_document (now : datetime) (content file_name : string)
    : ParseResult :=
  let text_content := text_of content file_name in
  let extracted_data := _extract_sof_data text_content in
  let parsed_data := _parse_dates_and_times extracted_data in
  let laytime_calculations := _calculate_laytime parsed_data in
  let financial_analysis :=
    _analyze_financial_implications parsed_data laytime_calculations in
  {| filename := file_name;
     extracted_data := extracted_data;
     parsed_data := parsed_data;
     laytime_calculations := laytime_calculations;
     financial_analysis := financial_analysis;
     analysis_timestamp := isoformat now;
     confidence_score := _calculate_confidence_score extracted_data |}.

End EntryPoint.

(** *** [calculate_laytime_scenario] *)

(** The defaults of [notice_period] and [working_hours_per_day]. *)
Definition default_notice_period : Number.number := Number.Int 6.
Definition default_working_hours_per_day : Number.number := Number.Int 24.

Definition scenario_body (laytime_hours notice_period working_hours_per_day : Number.number)
    : res (gmap string value) :=
  total_time_hours ← Number.add laytime_hours notice_period;
  total_time_days ← Number.truediv total_time_hours working_hours_per_day;
  let demurrage_rate_per_day := Number.Int 25000 in
  despatch_rate_per_day ←
    Number.mul demurrage_rate_per_day (Number.Float (F64.of_decimal 5 1));
  Ok (<["working_hours_per_day" := Number.to_value working_hours_per_day]>
      (<["despatch_rate_usd_per_day" := Number.to_value despatch_rate_per_day]>
       (<["demurrage_rate_usd_per_day" := Number.to_value demurrage_rate_per_day]>
        (<["total_time_days" := Number.to_value total_time_days]>
         (<["total_time_hours" := Number.to_value total_time_hours]>
          (<["notice_period_hours" := Number.to_value notice_period]>
           (<["laytime_hours" := Number.to_value laytime_hours]> ∅))))))).

Definition calculate_laytime_scenario
    (laytime_hours notice_period working_hours_per_day : Number.number)
    : gmap string value :=
  try_except (scenario_body laytime_hours notice_period working_hours_per_day)
    (fun e => {[ "error" := VStr ("Laytime calculation failed: " +:+ e) ]}).

(** *** [process_query] *)

Definition process_query (query : string) : string :=
  "Upload an SOF document to analyze and compute laytime.".

End SOFParserAgent.

(** * Specification-side definitions *)

Module Spec.

Import SOFParserAgent.

(** Removal of duplicates that keeps the first occurrence of every
    string and the order of what it keeps. *)
Fixpoint keep_first (l : list string) : list string :=
  match l with
  | [] => []
  | x :: l' => x :: filter (fun y => y ≠ x) (keep_first l')
  end.

(** The first candidate of a field, if the field has one. *)
Definition first_candidate (extracted_data : gmap string (list string))
    (key : string) : option string :=
  extracted_data !! key ≫= head.

(** The hours from [nor] to [dep]: the seconds between them, which
    [timedelta.total_seconds] gives, divided by 3600. *)
Definition hours_between (nor dep : Datetime.datetime) : F64.float :=
  F64.quot (F64.int_quot (Datetime.sub dep nor) 1000000) (F64.of_Z 3600).

(** The keys [_calculate_laytime] can write. *)
Definition calculation_keys : list string :=
  ["total_time_hours"; "total_time_days"; "laytime_allowed_hours";
   "laytime_allowed_days"; "laytime_status"; "time_saved_hours"; "time_saved_days";
   "time_exceeded_hours"; "time_exceeded_days"; "cargo_rate_mt_per_hour";
   "cargo_rate_mt_per_day"; "error"].

(** An instant on the minute, as [strptime] gives them. *)
Definition at_time (y mo d h mi : Z) : Datetime.datetime :=
  {| Datetime.year := y; Datetime.month := mo; Datetime.day := d;
     Datetime.hour := h; Datetime.minute := mi;
     Datetime.second := 0; Datetime.microsecond := 0 |}.

(** Parsed data with the given NOR time, departure time, allowance and
    cargo quantity, and nothing else. *)
Definition parsed (nor dep : option Datetime.datetime)
    (allowed cargo : option F64.float) : ParsedData :=
  {| extracted := ∅;
     arrival_datetime := None;
     departure_datetime := Some dep;
     nor_datetime := Some nor;
     laytime_hours := Some allowed;
     cargo_mt := Some cargo |}.

Import Py.

(** A number in the range the elapsed hours and days live in. *)
Definition normal (negative : bool) (x : F64.float) : Prop :=
  ∃ m e, x = S754_finite negative m e
         ∧ Z.pos (digits2_pos m) = 53 ∧ -200 <= e <= 200.

(** The first block of the body: the times and the classification. *)
Definition timing (parsed_data : ParsedData) : gmap string value :=
  match get (nor_datetime parsed_data), get (departure_datetime parsed_data) with
  | Some nor, Some dep =>
      let total := hours_between nor dep in
      let times : gmap string value :=
        <["total_time_days" := VFloat (F64.quot total (F64.of_Z 24))]>
          (<["total_time_hours" := VFloat total]> ∅) in
      match get (laytime_hours parsed_data) with
      | Some allowed =>
          if F64.truthy allowed then
            let budget : gmap string value :=
              <["laytime_allowed_days" := VFloat (F64.quot allowed (F64.of_Z 24))]>
                (<["laytime_allowed_hours" := VFloat allowed]> times) in
            if F64.leb total allowed then
              <["time_saved_days" :=
                  VFloat (F64.quot (F64.sub allowed total) (F64.of_Z 24))]>
                (<["time_saved_hours" := VFloat (F64.sub allowed total)]>
                  (<["laytime_status" := VStr "within_limit"]> budget))
            else
              <["time_exceeded_days" :=
                  VFloat (F64.quot (F64.sub total allowed) (F64.of_Z 24))]>
                (<["time_exceeded_hours" := VFloat (F64.sub total allowed)]>
                  (<["laytime_status" := VStr "exceeded"]> budget))
          else times
      | None => times
      end
  | _, _ => ∅
  end.

(** The second block: the cargo handling rate. *)
Definition cargo_block (parsed_data : ParsedData) (calculations : gmap string value)
    : res (gmap string value) :=
  match get (cargo_mt parsed_data) with
  | Some cargo =>
      if F64.truthy cargo && bool_decide (is_Some (calculations !! "total_time_hours"))
      then
        per_hour ← float_truediv cargo (calculations !!! "total_time_hours");
        let calculations := <["cargo_rate_mt_per_hour" := per_hour]> calculations in
        per_day ← float_truediv cargo (calculations !!! "total_time_days");
        Ok (<["cargo_rate_mt_per_day" := per_day]> calculations)
      else Ok calculations
  | None => Ok calculations
  end.

(** Whether the second division of the calculation can fail. *)
Definition divides_by_zero (parsed_data : ParsedData) : Prop :=
  ∃ nor dep cargo,
    get (nor_datetime parsed_data) = Some nor
    ∧ get (departure_datetime parsed_data) = Some dep
    ∧ get (cargo_mt parsed_data) = Some cargo
    ∧ F64.truthy cargo = true
    ∧ Datetime.micros dep = Datetime.micros nor.

Definition valid_times (parsed_data : ParsedData) : Prop :=
  ∀ d, get (nor_datetime parsed_data) = Some d
       ∨ get (departure_datetime parsed_data) = Some d -> Datetime.valid d = true.

(** *** The claims as the specification words them *)

(** C1 as worded: with the three values present the result holds the
    elapsed hours and one of the two classifications. *)
Definition laytime_claim : Prop :=
  ∀ (parsed_data : ParsedData) (nor dep : Datetime.datetime) (allowed : F64.float),
    valid_times parsed_data ->
    get (nor_datetime parsed_data) = Some nor ->
    get (departure_datetime parsed_data) = Some dep ->
    get (laytime_hours parsed_data) = Some allowed ->
    let total := hours_between nor dep in
    let calculations := _calculate_laytime parsed_data in
    calculations !! "total_time_hours" = Some (VFloat total)
    ∧ (if F64.leb total allowed then
         calculations !! "laytime_status" = Some (VStr "within_limit")
         ∧ calculations !! "time_saved_hours" = Some (VFloat (F64.sub allowed total))
       else
         calculations !! "laytime_status" = Some (VStr "exceeded")
         ∧ calculations !! "time_exceeded_hours"
           = Some (VFloat (F64.sub total allowed))).

(** C2 as worded: a departure before the NOR time is not classified and
    no negative total is reported. *)
Definition reversed_claim : Prop :=
  ∀ (parsed_data : ParsedData) (nor dep : Datetime.datetime),
    valid_times parsed_data ->
    get (nor_datetime parsed_data) = Some nor ->
    get (departure_datetime parsed_data) = Some dep ->
    Datetime.micros dep < Datetime.micros nor ->
    let calculations := _calculate_laytime parsed_data in
    calculations !! "laytime_status" = None
    ∧ ∀ total, calculations !! "total_time_hours" = Some (VFloat total) ->
               F64.ltb total F64.zero = false.

(** C5 as worded: a cargo quantity and a positive total give the rates. *)
Definition cargo_claim : Prop :=
  ∀ (parsed_data : ParsedData) (nor dep : Datetime.datetime) (cargo : F64.float),
    valid_times parsed_data ->
    get (nor_datetime parsed_data) = Some nor ->
    get (departure_datetime parsed_data) = Some dep ->
    get (cargo_mt parsed_data) = Some cargo ->
    let total := hours_between nor dep in
    let calculations := _calculate_laytime parsed_data in
    F64.ltb F64.zero total = true ->
    calculations !! "cargo_rate_mt_per_hour" = Some (VFloat (F64.quot cargo total))
    ∧ calculations !! "cargo_rate_mt_per_day"
      = Some (VFloat (F64.quot cargo (F64.quot total (F64.of_Z 24)))).

(** C10 as worded: with both instants present and an allowance of zero,
    no classification, and the total hours all the same. *)
Definition zero_allowance_claim : Prop :=
  ∀ (parsed_data : ParsedData) (nor dep : Datetime.datetime) (negative : bool),
    valid_times parsed_data ->
    get (nor_datetime parsed_data) = Some nor ->
    get (departure_datetime parsed_data) = Some dep ->
    get (laytime_hours parsed_data) = Some (S754_zero negative) ->
    let calculations := _calculate_laytime parsed_data in
    calculations !! "laytime_status" = None
    ∧ calculations !! "total_time_hours" = Some (VFloat (hours_between nor dep)).

(** Sample data: NOR tendered on 1 March 2024 at 08:00. *)
Definition nor0 : Datetime.datetime := at_time 2024 3 1 8 0.
Definition dep30 : Datetime.datetime := at_time 2024 3 2 14 0.    (* 30 hours later *)
Definition dep20 : Datetime.datetime := at_time 2024 3 2 4 0.     (* 20 hours later *)

(** C3 as worded: two calls with the same arguments, made when the clock
    reads [now] and [now'], return the same result. *)
Definition idempotence_claim : Prop :=
  ∀ (decode : string -> string) (fitz : option (string -> res (list string)))
    (now now' : Datetime.datetime) (content file_name : string),
    parse_sof_document decode fitz now content file_name
    = parse_sof_document decode fitz now' content file_name.

(** The nine fields of a raw extraction. *)
Definition field_names : list string :=
  ["vessel_name"; "voyage_number"; "arrival_time"; "departure_time"; "nor_time";
   "laytime_allowed"; "cargo_quantity"; "berth_info"; "port_name"].

(** The three fields the specification counts a second time. *)
Definition critical_names : list string :=
  ["vessel_name"; "arrival_time"; "departure_time"].

(** Whether a field has at least one candidate. *)
Definition has_candidate (raw : gmap string (list string)) (field : string) : bool :=
  match raw !! field with
  | Some (_ :: _) => true
  | _ => false
  end.

(** How many of the fields [names] have a candidate. *)
Fixpoint count_present (raw : gmap string (list string)) (names : list string) : Z :=
  match names with
  | [] => 0
  | field :: names' =>
      (if has_candidate raw field then 1 else 0) + count_present raw names'
  end.

(** The confidence formula on the two counts, in floating point. *)
Definition score_of (fields critical : Z) : F64.float :=
  let base := F64.int_quot fields 9 in
  let boost := F64.mul (F64.int_quot critical 3) (F64.of_decimal 2 1) in
  round2 (Py.min (F64.add base boost) (F64.of_Z 1)).

(** The same formula in hundredths, in exact arithmetic:
    [100 * (fields / 9 + critical / 3 * 0.2)] is
    [(100 * fields + 60 * critical) / 9]; it is taken to the nearest whole
    number (it never falls half-way between two) and is at most 100. *)
Definition hundredths (fields critical : Z) : Z :=
  Z.min 100 ((2 * (100 * fields + 60 * critical) + 9) / 18).

(** The confidence score as the specification words it: the decimal with
    two places that the formula gives on the counts of the raw
    extraction. *)
Definition confidence_spec (raw : gmap string (list string)) : F64.float :=
  F64.of_decimal
    (Z.to_N (hundredths (count_present raw field_names)
                        (count_present raw critical_names))) 2.

(** A statement of facts that names every field, the laytime twice. *)
Definition sample_text : string :=
  "Vessel: Ocean Star" +:+ LF +:+ "Voyage: 12A" +:+ LF +:+ "Port: Rotterdam" +:+ LF
  +:+ "Berth: B2" +:+ LF +:+ "Arrival: 01/03/2024, 06:00" +:+ LF
  +:+ "NOR: 01/03/2024, 08:00" +:+ LF +:+ "Departure: 02/03/2024, 14:00" +:+ LF
  +:+ "Laytime: 3 days" +:+ LF +:+ "Cargo: 1,000 mt" +:+ LF
  +:+ "Remarks: laytime: 3 days, lay time: 72 hours".

(** The patterns of the field [laytime_allowed]. *)
Definition laytime_patterns : list Re.regex :=
  default [] (snd <$> sof_patterns !! 5%nat).

(** Strings made of characters of one kind, and strings that start with
    one. *)
Fixpoint all_chars (p : ascii -> bool) (s : string) : bool :=
  match s with
  | EmptyString => true
  | String c s' => p c && all_chars p s'
  end.

Definition starts_in (p : ascii -> bool) (s : string) : bool :=
  match s with
  | EmptyString => false
  | String c _ => p c
  end.

(** A number as the patterns write it: digits, then perhaps a point and
    digits. *)
Definition is_numeral (s : string) : bool :=
  let '(ip, fp) := split_point s in
  all_digits ip && Text.nonempty ip
  && match fp with
     | None => true
     | Some f => all_digits f && Text.nonempty f
     end.

(** Blanks, as many as one likes. *)
Definition all_space (s : string) : bool := all_chars Text.isspace s.

(** The units, in any mix of cases. *)
Definition days_unit (u : string) : Prop :=
  Text.lower u = "day" ∨ Text.lower u = "days".

Definition hours_unit (u : string) : Prop :=
  Text.lower u = "hour" ∨ Text.lower u = "hours".

(** The fraction of a numeral: nothing, or a point and digits. *)
Definition fraction (fr : string) : Prop :=
  fr = "" ∨ ∃ f, fr = "." +:+ f ∧ all_digits f = true ∧ Text.nonempty f = true.

(** What the pattern of the unit does on a unit, whatever follows in the
    pattern, and what the units start with. *)
Definition unit_facts (u : string) : Prop :=
  (∀ (R : Type) (caps : Re.captures) (k : string -> Re.captures -> option R) (r : R),
     k "" ((2%nat, u) :: caps) = Some r ->
     Re.rmatch true time_unit u caps k = Some r)
  ∧ starts_in (Re.cls_match true [Re.Space]) u = false
  ∧ starts_in (Re.cls_match true d09) u = false
  ∧ Re.lit true "." u = None.

End Spec.

(** * The language of a pattern

    What the matcher of [Re] can take, said without continuations: the
    words a pattern matches, the groups a match records, and three
    estimates computed from the pattern alone. *)

Module Lang.

Import Re.

(** A word the literal [p] matches: as long as [p], character by
    character. *)
Fixpoint lit_word (ic : bool) (p w : string) : bool :=
  match p, w with
  | EmptyString, EmptyString => true
  | String a p', String c w' => chr_match ic a c && lit_word ic p' w'
  | _, _ => false
  end.

Definition within (n : nat) (hi : option nat) : bool :=
  match hi with
  | None => true
  | Some h => (n <=? h)%nat
  end.

(** [matches ic r w rest caps caps']: the pattern [r] can take the word
    [w] in front of [rest], and turns the groups [caps] into [caps']. *)
Inductive matches (ic : bool) : regex -> string -> string -> captures -> captures -> Prop :=
| M_lit p w rest caps :
    lit_word ic p w = true -> matches ic (Lit p) w rest caps caps
| M_in cl c rest caps :
    cls_match ic cl c = true -> matches ic (In cl) (String c EmptyString) rest caps caps
| M_rep lo hi greedy cl w rest caps :
    Spec.all_chars (cls_match ic cl) w = true ->
    (lo <= String.length w)%nat -> within (String.length w) hi = true ->
    matches ic (Rep lo hi greedy cl) w rest caps caps
| M_opt r w rest caps caps' :
    matches ic r w rest caps caps' -> matches ic (Opt r) w rest caps caps'
| M_skip r rest caps :
    matches ic (Opt r) EmptyString rest caps caps
| M_left r1 r2 w rest caps caps' :
    matches ic r1 w rest caps caps' -> matches ic (Alt r1 r2) w rest caps caps'
| M_right r1 r2 w rest caps caps' :
    matches ic r2 w rest caps caps' -> matches ic (Alt r1 r2) w rest caps caps'
| M_seq r1 r2 w1 w2 rest caps caps1 caps2 :
    matches ic r1 w1 (w2 +:+ rest) caps caps1 -> matches ic r2 w2 rest caps1 caps2 ->
    matches ic (Seq r1 r2) (w1 +:+ w2) rest caps caps2
| M_group i r w rest caps caps' :
    matches ic r w rest caps caps' ->
    matches ic (Group i r) w rest caps ((i, w) :: caps')
| M_eol rest caps :
    rest = EmptyString \/ rest = SOFParserAgent.LF -> matches ic Eol EmptyString rest caps caps.

(** The 256 characters. *)
Definition all_ascii : list ascii := List.map ascii_of_nat (seq 0 256).

(** Every character [c] the pattern character [a], or the class [cl],
    can stand for is of the kind [p]. *)
Definition chr_only (ic : bool) (p : ascii -> bool) (a : ascii) : bool :=
  forallb (fun c => implb (chr_match ic a c) (p c)) all_ascii.

Definition cls_only (ic : bool) (p : ascii -> bool) (cl : cls) : bool :=
  forallb (fun c => implb (cls_match ic cl c) (p c)) all_ascii.

(** [only ic p r]: the words of [r] are made of characters of the kind
    [p]. *)
Fixpoint only (ic : bool) (p : ascii -> bool) (r : regex) : bool :=
  match r with
  | Lit s => forallb (chr_only ic p) (list_ascii_of_string s)
  | In cl => cls_only ic p cl
  | Rep _ hi _ cl => cls_only ic p cl
  | Opt r1 | Group _ r1 => only ic p r1
  | Alt r1 r2 | Seq r1 r2 => only ic p r1 && only ic p r2
  | Eol => true
  end.

(** [group_only ic p i r]: whatever the group [i] of [r] records is made
    of characters of the kind [p]. *)
Fixpoint group_only (ic : bool) (p : ascii -> bool) (i : nat) (r : regex) : bool :=
  match r with
  | Group j r1 => (negb (Nat.eqb j i) || only ic p r1) && group_only ic p i r1
  | Opt r1 => group_only ic p i r1
  | Alt r1 r2 | Seq r1 r2 => group_only ic p i r1 && group_only ic p i r2
  | _ => true
  end.

(** [needs ic p r]: every word of [r] has a character of the kind [p]. *)
Fixpoint needs (ic : bool) (p : ascii -> bool) (r : regex) : bool :=
  match r with
  | Lit s => existsb (chr_only ic p) (list_ascii_of_string s)
  | In cl => cls_only ic p cl
  | Rep lo _ _ cl => (0 <? lo)%nat && cls_only ic p cl
  | Opt _ | Eol => false
  | Alt r1 r2 => needs ic p r1 && needs ic p r2
  | Seq r1 r2 => needs ic p r1 || needs ic p r2
  | Group _ r1 => needs ic p r1
  end.

(** [group_needs ic p i r]: whatever the group [i] of [r] records has a
    character of the kind [p]. *)
Fixpoint group_needs (ic : bool) (p : ascii -> bool) (i : nat) (r : regex) : bool :=
  match r with
  | Group j r1 => (negb (Nat.eqb j i) || needs ic p r1) && group_needs ic p i r1
  | Opt r1 => group_needs ic p i r1
  | Alt r1 r2 | Seq r1 r2 => group_needs ic p i r1 && group_needs ic p i r2
  | _ => true
  end.

(** The length of the longest word, when there is one. *)
Fixpoint max_len (r : regex) : option nat :=
  match r with
  | Lit s => Some (String.length s)
  | In _ => Some 1%nat
  | Rep _ hi _ _ => hi
  | Opt r1 | Group _ r1 => max_len r1
  | Alt r1 r2 => a ← max_len r1; b ← max_len r2; Some (Nat.max a b)
  | Seq r1 r2 => a ← max_len r1; b ← max_len r2; Some (a + b)%nat
  | Eol => Some 0%nat
  end.

(** The place of the first character of a literal that stands for
    characters of the kind [p] only. *)
Fixpoint first_in (ic : bool) (p : ascii -> bool) (s : string) : option nat :=
  match s with
  | EmptyString => None
  | String a s' => if chr_only ic p a then Some 0%nat else S <$> first_in ic p s'
  end.

(** [first_by ic p r = Some k]: every word of [r] has a character of the
    kind [p] among its first [k + 1] characters. *)
Fixpoint first_by (ic : bool) (p : ascii -> bool) (r : regex) : option nat :=
  match r with
  | Lit s => first_in ic p s
  | In cl => if cls_only ic p cl then Some 0%nat else None
  | Rep lo _ _ cl => if (0 <? lo)%nat && cls_only ic p cl then Some 0%nat else None
  | Opt _ | Eol => None
  | Alt r1 r2 => a ← first_by ic p r1; b ← first_by ic p r2; Some (Nat.max a b)
  | Seq r1 r2 =>
      match first_by ic p r1 with
      | Some k => Some k
      | None => a ← max_len r1; b ← first_by ic p r2; Some (a + b)%nat
      end
  | Group _ r1 => first_by ic p r1
  end.

(** [pure ic p r = Some n]: every word of [r] is made of characters of
    the kind [p] and has [n] of them or more. *)
Fixpoint pure (ic : bool) (p : ascii -> bool) (r : regex) : option nat :=
  match r with
  | Lit s =>
      if forallb (chr_only ic p) (list_ascii_of_string s) then Some (String.length s)
      else None
  | In cl => if cls_only ic p cl then Some 1%nat else None
  | Rep lo _ _ cl => if cls_only ic p cl then Some lo else None
  | Opt r1 => _ ← pure ic p r1; Some 0%nat
  | Alt r1 r2 => a ← pure ic p r1; b ← pure ic p r2; Some (Nat.min a b)
  | Seq r1 r2 => a ← pure ic p r1; b ← pure ic p r2; Some (a + b)%nat
  | Group _ r1 => pure ic p r1
  | Eol => Some 0%nat
  end.

(** [run_of ic p r]: every word of [r] has that many characters of the
    kind [p] in a row, or more. *)
Fixpoint run_of (ic : bool) (p : ascii -> bool) (r : regex) : nat :=
  match pure ic p r with
  | Some n => n
  | None =>
      match r with
      | Alt r1 r2 => Nat.min (run_of ic p r1) (run_of ic p r2)
      | Seq r1 r2 => Nat.max (run_of ic p r1) (run_of ic p r2)
      | Group _ r1 => run_of ic p r1
      | _ => 0%nat
      end
  end.

(** The characters of the kind [p] at the front of a string, and the
    longest run of them in it. *)
Fixpoint run_from (p : ascii -> bool) (s : string) : nat :=
  match s with
  | EmptyString => 0%nat
  | String c s' => if p c then S (run_from p s') else 0%nat
  end.

Fixpoint longest_run (p : ascii -> bool) (s : string) : nat :=
  match s with
  | EmptyString => 0%nat
  | String _ s' => Nat.max (run_from p s) (longest_run p s')
  end.

(** The kinds of characters the statements speak of. *)
Definition is_char (a c : ascii) : bool := Ascii.eqb a c.
Definition numeric (c : ascii) : bool := Text.is_digit c || Ascii.eqb c ".".
Definition not_digit (c : ascii) : bool := negb (Text.is_digit c).
Definition not_numeric (c : ascii) : bool := negb (numeric c).

(** The characters of a timestamp as the extractor takes it: digits,
    slash, dash, comma, colon and blanks. *)
Definition stamp_char (c : ascii) : bool :=
  Text.is_digit c || Ascii.eqb c "/" || Ascii.eqb c "-" || Ascii.eqb c ","
  || Ascii.eqb c ":" || Text.isspace c.

(** [x] is a piece of [s]: [s] is some text, [x], and some more text. *)
Definition piece_of (x s : string) : Prop :=
  exists before after : string, s = before +:+ x +:+ after.

(** [c in s] for one character. *)
Definition has_char (c : ascii) (s : string) : bool :=
  negb (Spec.all_chars (fun a => negb (Ascii.eqb a c)) s).

End Lang.

(** * Further specification-side definitions *)

Module Outcome.

Import SOFParserAgent Py.

(** The keys of a calculation that need the allowance. *)
Definition allowance_keys : list string :=
  ["laytime_allowed_hours"; "laytime_allowed_days"; "laytime_status";
   "time_saved_hours"; "time_saved_days"; "time_exceeded_hours"; "time_exceeded_days"].

(** The financial analysis without an amount: the rates and the note. *)
Definition rates_and_note : gmap string value :=
  <["note" := VStr disclaimer]> (<["example_rates" := VDict example_rates]> ∅).

(** The two times of a calculation. *)
Definition times_of (nor dep : Datetime.datetime) : gmap string value :=
  <["total_time_days" := VFloat (F64.quot (Spec.hours_between nor dep) (F64.of_Z 24))]>
    (<["total_time_hours" := VFloat (Spec.hours_between nor dep)]> ∅).

(** The two times and the two rates. *)
Definition times_and_rates (nor dep : Datetime.datetime) (cargo : F64.float)
    : gmap string value :=
  <["cargo_rate_mt_per_day" :=
      VFloat (F64.quot cargo (F64.quot (Spec.hours_between nor dep) (F64.of_Z 24)))]>
    (<["cargo_rate_mt_per_hour" := VFloat (F64.quot cargo (Spec.hours_between nor dep))]>
       (times_of nor dep)).

(** What the handler of [_calculate_laytime] returns for a division by
    zero. *)
Definition division_error : gmap string value :=
  {[ "error" := VStr "Laytime calculation failed: float division by zero" ]}.

(** A character of the whole part of a quantity: a digit or a comma. *)
Definition quantity_char (c : ascii) : bool := Text.is_digit c || Ascii.eqb c ",".

(** The keys of the three shapes of a financial analysis. *)
Definition rates_keys : list string := ["note"; "example_rates"].

Definition despatch_keys : list string :=
  ["financial_impact"; "time_saved_days"; "despatch_rate_usd_per_day";
   "despatch_amount_usd"].

Definition demurrage_keys : list string :=
  ["financial_impact"; "time_exceeded_days"; "demurrage_rate_usd_per_day";
   "demurrage_amount_usd"].

(** The fields that hold a timestamp. *)
Definition time_fields : list string := ["arrival_time"; "departure_time"; "nor_time"].

(** The seven entries of a scenario. *)
Definition scenario_entries (laytime_hours notice_period working_hours_per_day : value)
    (total_time_hours total_time_days : F64.float) : gmap string value :=
  list_to_map
    [("laytime_hours", laytime_hours); ("notice_period_hours", notice_period);
     ("total_time_hours", VFloat total_time_hours);
     ("total_time_days", VFloat total_time_days);
     ("demurrage_rate_usd_per_day", VInt 25000);
     ("despatch_rate_usd_per_day", VFloat (F64.of_decimal 125000 1));
     ("working_hours_per_day", working_hours_per_day)].

End Outcome.

(** * Timestamps as the formats write them *)

Module Written.

Import Datetime.

(** Day, month and year with the separator [sep], a comma and a blank,
    then hour and minute: what [strftime] gives for the first two formats
    of [_parse_datetime], ["%d/%m/%Y, %H:%M"] and ["%d-%m-%Y, %H:%M"]. *)
Definition day_first (sep : ascii) (d : datetime) : string :=
  padded 2 (day d) +:+ String sep (padded 2 (month d)) +:+ String sep (padded 4 (year d))
  +:+ ", " +:+ padded 2 (hour d) +:+ ":" +:+ padded 2 (minute d).

(** The strings of two digits for the numbers from [lo] to [hi]. *)
Definition two_digit (lo hi : Z) : list string :=
  List.map (fun n => padded 2 (Z.of_nat n)) (seq (Z.to_nat lo) (Z.to_nat (hi - lo + 1))).

(** The expression of a directive, without its group. *)
Definition body_of (c : ascii) : Re.regex :=
  match directive c with
  | Some (Re.Group _ body) => body
  | _ => Re.Lit ""
  end.

(** The expression of the format ["%d<sep>%m<sep>%Y, %H:%M"]. *)
Definition day_first_re (sep : ascii) : Re.regex :=
  Re.Seq (Re.Group (key "d") (body_of "d"))
  (Re.Seq (Re.Lit (String sep ""))
  (Re.Seq (Re.Group (key "m") (body_of "m"))
  (Re.Seq (Re.Lit (String sep ""))
  (Re.Seq (Re.Group (key "Y") (body_of "Y"))
  (Re.Seq (Re.Lit ",")
  (Re.Seq (Re.Rep 1 None true [Re.Space])
  (Re.Seq (Re.Group (key "H") (body_of "H"))
  (Re.Seq (Re.Lit ":")
  (Re.Seq (Re.Group (key "M") (body_of "M")) (Re.Lit "")))))))))).

(** Year, month and day with dashes: the third format,
    ["%Y-%m-%d, %H:%M"]. *)
Definition year_first (d : datetime) : string :=
  padded 4 (year d) +:+ String "-" (padded 2 (month d)) +:+ String "-" (padded 2 (day d))
  +:+ ", " +:+ padded 2 (hour d) +:+ ":" +:+ padded 2 (minute d).

Definition year_first_re : Re.regex :=
  Re.Seq (Re.Group (key "Y") (body_of "Y"))
  (Re.Seq (Re.Lit "-")
  (Re.Seq (Re.Group (key "m") (body_of "m"))
  (Re.Seq (Re.Lit "-")
  (Re.Seq (Re.Group (key "d") (body_of "d"))
  (Re.Seq (Re.Lit ",")
  (Re.Seq (Re.Rep 1 None true [Re.Space])
  (Re.Seq (Re.Group (key "H") (body_of "H"))
  (Re.Seq (Re.Lit ":")
  (Re.Seq (Re.Group (key "M") (body_of "M")) (Re.Lit "")))))))))).

(** Day first with the last two digits of the year: the fourth and the
    fifth format, ["%d/%m/%y, %H:%M"] and ["%d-%m-%y, %H:%M"]. *)
Definition short_year (sep : ascii) (d : datetime) : string :=
  padded 2 (day d) +:+ String sep (padded 2 (month d)) +:+ String sep (padded 2 (year d))
  +:+ ", " +:+ padded 2 (hour d) +:+ ":" +:+ padded 2 (minute d).

Definition short_year_re (sep : ascii) : Re.regex :=
  Re.Seq (Re.Group (key "d") (body_of "d"))
  (Re.Seq (Re.Lit (String sep ""))
  (Re.Seq (Re.Group (key "m") (body_of "m"))
  (Re.Seq (Re.Lit (String sep ""))
  (Re.Seq (Re.Group (key "y") (body_of "y"))
  (Re.Seq (Re.Lit ",")
  (Re.Seq (Re.Rep 1 None true [Re.Space])
  (Re.Seq (Re.Group (key "H") (body_of "H"))
  (Re.Seq (Re.Lit ":")
  (Re.Seq (Re.Group (key "M") (body_of "M")) (Re.Lit "")))))))))).

(** The year a year of two digits stands for. *)
Definition century (yy : Z) : Z := if yy <=? 68 then yy + 2000 else yy + 1900.

Definition with_year (d : datetime) (y : Z) : datetime :=
  {| year := y; month := month d; day := day d; hour := hour d; minute := minute d;
     second := second d; microsecond := microsecond d |}.

End Written.

(** * Properties *)

(** A character known by its lower case through [cases] is one of two. *)
Ltac split_case cases H :=
  apply cases in H; [destruct H as [-> | ->] | reflexivity].

Import SOFParserAgent Datetime Py Spec.

(** ** Extraction: duplicates and order *)

Section Extraction.

Lemma unique_keep_first (seen : gset string) (l : list string) :
  unique seen l = filter (fun x => x ∉ seen) (keep_first l).
Proof.
  revert seen. induction l as [|m l IH]; intros seen; [done|].
  cbn [unique keep_first]. destruct (decide (m ∈ seen)) as [Hin|Hout].
  - rewrite filter_cons_False by tauto.
    rewrite IH. symmetry. apply list_filter_filter_l.
    intros x Hx ->. contradiction.
  - rewrite filter_cons_True by done. f_equal.
    rewrite IH. symmetry. etrans; [apply list_filter_filter|].
    apply list_filter_iff. intros x. set_solver.
Qed.

Lemma unique_empty (l : list string) : unique ∅ l = keep_first l.
Proof.
  rewrite unique_keep_first. induction (keep_first l) as [|x k IH]; [done|].
  rewrite filter_cons_True by set_solver. by rewrite IH.
Qed.

Lemma keep_first_elem_of (l : list string) (x : string) :
  x ∈ keep_first l ↔ x ∈ l.
Proof.
  induction l as [|y l IH]; [done|]. cbn [keep_first].
  rewrite !elem_of_cons, list_elem_of_filter, IH.
  destruct (decide (x = y)); naive_solver.
Qed.

Lemma keep_first_NoDup (l : list string) : NoDup (keep_first l).
Proof.
  induction l as [|x l IH]; [constructor|]. cbn [keep_first].
  apply NoDup_cons. split.
  - rewrite list_elem_of_filter. tauto.
  - by apply NoDup_filter.
Qed.

(** The position of the first occurrence decides the order of the kept
    strings: whatever stands before the first [x] in the input stands
    before [x] in the output, once. *)
Lemma keep_first_app_first (l1 l2 : list string) (x : string) :
  x ∉ l1 ->
  keep_first (l1 ++ x :: l2)
  = (keep_first l1 ++ x :: filter (fun y => y ∉ x :: l1) (keep_first l2))%list.
Proof.
  revert l2. induction l1 as [|y l1 IH]; intros l2 Hx.
  - cbn. f_equal. apply list_filter_iff. intros z. set_solver.
  - cbn [app keep_first]. rewrite IH by set_solver.
    rewrite filter_app. cbn [app]. f_equal.
    rewrite filter_cons_True by set_solver. f_equal. f_equal.
    etrans; [apply list_filter_filter|].
    apply list_filter_iff. intros z. set_solver.
Qed.

(** Every entry of the result comes from one line of the table. *)
Lemma extract_from_lookup (table : list (string * list Re.regex))
    (text_content field : string) (l : list string) :
  _extract_sof_data_from table text_content !! field = Some l ->
  ∃ patterns, (field, patterns) ∈ table
              ∧ l = unique ∅ (raw_matches patterns text_content).
Proof.
  unfold _extract_sof_data_from.
  assert (Hgen : ∀ acc : gmap string (list string),
    foldl (fun extracted_data entry =>
             <[fst entry := unique ∅ (raw_matches (snd entry) text_content)]>
               extracted_data) acc table !! field = Some l ->
    acc !! field = Some l
    ∨ ∃ patterns, (field, patterns) ∈ table
                  ∧ l = unique ∅ (raw_matches patterns text_content)).
  { induction table as [|[f ps] table IH]; intros acc Hl; [by left|].
    cbn [foldl fst snd] in Hl. destruct (IH _ Hl) as [Hacc|(ps' & Hin & ->)].
    - destruct (decide (f = field)) as [->|Hne].
      + rewrite lookup_insert_eq in Hacc. injection Hacc as <-.
        right. exists ps. split; [left|done].
      + rewrite lookup_insert_ne in Hacc by done. by left.
    - right. exists ps'. split; [by right|done]. }
  intros Hl. destruct (Hgen ∅ Hl) as [Hempty|H]; [|done].
  by rewrite lookup_empty in Hempty.
Qed.

(** A field of the table always has an entry, given by its own line when
    no other line has the same name. *)
Lemma extract_from_entry (table : list (string * list Re.regex))
    (text_content field : string) (patterns : list Re.regex) :
  NoDup (table.*1) -> (field, patterns) ∈ table ->
  _extract_sof_data_from table text_content !! field
  = Some (unique ∅ (raw_matches patterns text_content)).
Proof.
  intros Hnd Hin.
  destruct (_extract_sof_data_from table text_content !! field) as [l|] eqn:Hl.
  - destruct (extract_from_lookup _ _ _ _ Hl) as (ps & Hin' & ->).
    do 3 f_equal.
    apply list_elem_of_lookup in Hin as [i Hi]. apply list_elem_of_lookup in Hin' as [j Hj].
    assert (i = j) as ->.
    { eapply NoDup_lookup; [exact Hnd| |]; rewrite list_lookup_fmap.
      - by rewrite Hi. - by rewrite Hj. }
    congruence.
  - exfalso. revert Hl. unfold _extract_sof_data_from.
    assert (Hgen : ∀ acc : gmap string (list string),
      (is_Some (acc !! field) ∨ field ∈ table.*1) ->
      is_Some (foldl (fun extracted_data entry =>
             <[fst entry := unique ∅ (raw_matches (snd entry) text_content)]>
               extracted_data) acc table !! field)).
    { clear. induction table as [|[f ps] table IH]; intros acc [H|H].
      - done. - by apply elem_of_nil in H.
      - apply IH. left. cbn [fst snd]. rewrite lookup_insert.
        case_decide; [done|]. done.
      - cbn [fmap list_fmap fst] in H. apply elem_of_cons in H as [->|H].
        + apply IH. left. cbn [fst]. rewrite lookup_insert_eq. done.
        + apply IH. by right. }
    intros Hnone. destruct (Hgen ∅) as [x Hx].
    + right. apply list_elem_of_fmap. by exists (field, patterns).
    + congruence.
Qed.

Lemma sof_patterns_NoDup : NoDup (sof_patterns.*1).
Proof. apply (bool_decide_unpack _). by vm_compute. Qed.

(** C8. For every text and every field of the pattern table, the list of
    candidates the extractor returns has no two equal strings and keeps
    the first occurrences in extraction order (patterns in table order,
    then matches left to right, then groups in order); a field without a
    match has the empty list, and the result has no other fields. *)
Theorem C8_candidates_unique_first_occurrence (text_content : string) :
  (∀ field patterns, (field, patterns) ∈ sof_patterns ->
     ∃ l, _extract_sof_data text_content !! field = Some l
          ∧ l = keep_first (raw_matches patterns text_content)
          ∧ NoDup l
          ∧ (∀ x, x ∈ l ↔ x ∈ raw_matches patterns text_content)
          ∧ (raw_matches patterns text_content = [] -> l = []))
  ∧ (∀ field l, _extract_sof_data text_content !! field = Some l ->
       ∃ patterns, (field, patterns) ∈ sof_patterns).
Proof.
  split.
  - intros field patterns Hin. eexists. split.
    + unfold _extract_sof_data. apply extract_from_entry; [apply sof_patterns_NoDup|done].
    + rewrite unique_empty. split; [done|]. split; [apply keep_first_NoDup|].
      split; [apply keep_first_elem_of|]. by intros ->.
  - intros field l Hl. apply extract_from_lookup in Hl as (ps & Hin & _). eauto.
Qed.

Lemma C8_witness :
  ∃ l, _extract_sof_data sample_text !! "laytime_allowed" = Some l
       ∧ l = keep_first (raw_matches laytime_patterns sample_text)
       ∧ NoDup l
       ∧ (∀ x, x ∈ l ↔ x ∈ raw_matches laytime_patterns sample_text)
       ∧ (raw_matches laytime_patterns sample_text = [] -> l = []).
Proof.
  exact (proj1 (C8_candidates_unique_first_occurrence sample_text)
           "laytime_allowed" laytime_patterns
           (list_elem_of_lookup_2 sof_patterns 5 _ eq_refl)).
Defined.

End Extraction.

(** ** Normalisation: only the first candidate counts *)

Section FirstCandidate.

Lemma parse_first_spec {A : Type} (parse : string -> option A)
    (extracted_data : gmap string (list string)) (key : string) :
  parse_first parse extracted_data key = parse <$> first_candidate extracted_data key.
Proof.
  unfold parse_first, first_candidate.
  destruct (extracted_data !! key) as [[|c rest]|]; reflexivity.
Qed.

Lemma first_candidate_insert (extracted_data : gmap string (list string))
    (key key' c : string) (rest rest' : list string) :
  extracted_data !! key = Some (c :: rest) ->
  first_candidate (<[key := c :: rest']> extracted_data) key'
  = first_candidate extracted_data key'.
Proof.
  intros Hkey. unfold first_candidate. destruct (decide (key = key')) as [<-|Hne].
  - by rewrite lookup_insert_eq, Hkey.
  - by rewrite lookup_insert_ne.
Qed.

(** C9. Each normalised value is the parse of the first candidate of its
    field and of nothing else: it is missing when the field has no
    candidate, and replacing the candidates after the first by any others
    changes none of the five normalised values. *)
Theorem C9_only_first_candidate_normalised :
  (∀ extracted_data : gmap string (list string),
     let parsed_data := _parse_dates_and_times extracted_data in
     arrival_datetime parsed_data
       = _parse_datetime <$> first_candidate extracted_data "arrival_time"
     ∧ departure_datetime parsed_data
       = _parse_datetime <$> first_candidate extracted_data "departure_time"
     ∧ nor_datetime parsed_data
       = _parse_datetime <$> first_candidate extracted_data "nor_time"
     ∧ laytime_hours parsed_data
       = _parse_laytime <$> first_candidate extracted_data "laytime_allowed"
     ∧ cargo_mt parsed_data
       = _parse_cargo_quantity <$> first_candidate extracted_data "cargo_quantity")
  ∧ (∀ (extracted_data : gmap string (list string)) (key c : string)
       (rest rest' : list string),
       extracted_data !! key = Some (c :: rest) ->
       let parsed_data := _parse_dates_and_times extracted_data in
       let parsed_data' := _parse_dates_and_times (<[key := c :: rest']> extracted_data) in
       arrival_datetime parsed_data' = arrival_datetime parsed_data
       ∧ departure_datetime parsed_data' = departure_datetime parsed_data
       ∧ nor_datetime parsed_data' = nor_datetime parsed_data
       ∧ laytime_hours parsed_data' = laytime_hours parsed_data
       ∧ cargo_mt parsed_data' = cargo_mt parsed_data).
Proof.
  split.
  - intros extracted_data. cbn. rewrite !parse_first_spec. done.
  - intros extracted_data key c rest rest' Hkey. cbn.
    rewrite !parse_first_spec.
    rewrite !(first_candidate_insert _ _ _ _ _ _ Hkey). done.
Qed.

(** The candidates of a text that names the NOR time twice: the second
    time is a candidate and is not read. *)
Lemma C9_witness :
  let extracted_data : gmap string (list string) :=
    {[ "nor_time" := ["01/03/2024, 08:00"; "05/03/2024, 09:30"] ]} in
  nor_datetime (_parse_dates_and_times (<["nor_time" := ["01/03/2024, 08:00"]]> extracted_data))
  = nor_datetime (_parse_dates_and_times extracted_data).
Proof.
  intros extracted_data.
  apply (proj2 C9_only_first_candidate_normalised extracted_data "nor_time"
           "01/03/2024, 08:00" ["05/03/2024, 09:30"] []).
  reflexivity.
Defined.

End FirstCandidate.

(** ** Binary64 division away from the subnormal range

    The elapsed time is divided three times: micro-seconds by [10**6],
    seconds by 3600, hours by 24.  None of the quotients can underflow to
    zero; the lemmas below bound the exponent of each. *)

Section Rounding.

Lemma digits2_bounds (p : positive) :
  2 ^ (Z.pos (digits2_pos p) - 1) <= Z.pos p < 2 ^ Z.pos (digits2_pos p).
Proof.
  induction p as [p IH|p IH|]; cbn [digits2_pos]; [| |cbn; lia].
  all: rewrite Pos2Z.inj_succ;
    replace (Z.succ (Z.pos (digits2_pos p)) - 1)
      with (Z.succ (Z.pos (digits2_pos p) - 1)) by lia;
    rewrite !Z.pow_succ_r by lia; lia.
Qed.

Lemma digits2_unique (p : positive) (n : Z) :
  2 ^ (n - 1) <= Z.pos p < 2 ^ n -> Z.pos (digits2_pos p) = n.
Proof.
  intros [Hlo Hhi]. pose proof (digits2_bounds p) as [Hlo' Hhi'].
  assert (0 < n) as Hn.
  { destruct (Z.ltb_spec 0 n) as [|Hle]; [done|]. exfalso.
    destruct (Z.eq_dec n 0) as [->|]; [cbn in Hhi; lia|].
    rewrite Z.pow_neg_r in Hhi by lia. lia. }
  destruct (Z.lt_trichotomy (Z.pos (digits2_pos p)) n) as [Hlt|[Heq|Hgt]];
    [exfalso|exact Heq|exfalso].
  - assert (2 ^ Z.pos (digits2_pos p) <= 2 ^ (n - 1)) by (apply Z.pow_le_mono_r; lia).
    lia.
  - assert (2 ^ n <= 2 ^ (Z.pos (digits2_pos p) - 1)) by (apply Z.pow_le_mono_r; lia).
    lia.
Qed.

Lemma shr_1_m (mrs : shr_record) :
  0 <= shr_m mrs -> shr_m (shr_1 mrs) = shr_m mrs / 2.
Proof.
  destruct mrs as [m r s]. cbn [shr_m]. intros Hm.
  destruct m as [|[p|p|]|p]; cbn [shr_1 shr_m]; try lia; try done.
  - apply Z.div_unique with 1; lia.
  - apply Z.div_unique with 0; lia.
Qed.

Lemma round_nearest_even_range (m : Z) (l : location) :
  round_nearest_even m l = m ∨ round_nearest_even m l = m + 1.
Proof.
  destruct l as [|[]]; cbn; auto. destruct (Z.even m); auto.
Qed.

Lemma shr_record_of_loc_m (m : Z) (l : location) : shr_m (shr_record_of_loc m l) = m.
Proof. by destruct l as [|[]]. Qed.

(** One step of [shr_fexp] on a mantissa of 53 or 54 digits, away from
    the subnormal range: the mantissa loses at most its last digit. *)
Lemma shr_fexp_normal (m e : Z) (l : location) :
  2 ^ 52 <= m < 2 ^ 54 -> -1074 <= e ->
  ∃ mrs e', shr_fexp 53 1024 m e l = (mrs, e')
    ∧ ((m < 2 ^ 53 ∧ mrs = shr_record_of_loc m l ∧ e' = e)
       ∨ (2 ^ 53 <= m ∧ shr_m mrs = m / 2 ∧ e' = e + 1)).
Proof.
  intros [Hlo Hhi] He. destruct m as [|p|p]; [lia| |lia].
  unfold shr_fexp, Zdigits2.
  destruct (Z.lt_ge_cases (Z.pos p) (2 ^ 53)) as [Hlt|Hge].
  - rewrite (digits2_unique p 53) by (change (53 - 1) with 52; lia).
    replace (fexp 53 1024 (53 + e) - e) with 0 by (unfold fexp, emin; lia).
    eexists _, _. split; [reflexivity|]. left. done.
  - rewrite (digits2_unique p 54) by (change (54 - 1) with 53; lia).
    replace (fexp 53 1024 (54 + e) - e) with 1 by (unfold fexp, emin; lia).
    eexists _, _. split; [reflexivity|]. right. split; [done|]. split; [|done].
    cbn [iter_pos]. rewrite shr_1_m; rewrite shr_record_of_loc_m; [done|lia].
Qed.

(** Rounding a quotient of 53 or 54 digits gives a normal number. *)
Lemma binary_round_aux_normal (sx : bool) (q E : Z) (l : location) :
  2 ^ 52 <= q < 2 ^ 54 -> -1074 <= E -> E + 2 <= 971 ->
  ∃ m e, binary_round_aux 53 1024 sx q E l = S754_finite sx m e
         ∧ Z.pos (digits2_pos m) = 53 ∧ E <= e <= E + 2.
Proof.
  intros Hq HE Hmax. unfold binary_round_aux.
  destruct (shr_fexp_normal q E l Hq HE) as (mrs & e' & -> & Hcase).
  set (m1 := shr_m mrs).
  assert (2 ^ 52 <= m1 < 2 ^ 53 ∧ E <= e' <= E + 1) as [Hm1 He'].
  { subst m1. destruct Hcase as [(Hlt & -> & ->)|(Hge & -> & ->)].
    - rewrite shr_record_of_loc_m. lia.
    - split; [|lia]. split.
      + apply Z.div_le_lower_bound; lia.
      + apply Z.div_lt_upper_bound; lia. }
  set (m2 := round_nearest_even m1 (loc_of_shr_record mrs)).
  assert (2 ^ 52 <= m2 <= 2 ^ 53) as Hm2.
  { subst m2. destruct (round_nearest_even_range m1 (loc_of_shr_record mrs)) as [->| ->]; lia. }
  destruct (shr_fexp_normal m2 e' loc_Exact) as (mrs2 & e2 & -> & Hcase2); [lia|lia|].
  assert (2 ^ 52 <= shr_m mrs2 < 2 ^ 53 ∧ E <= e2 <= E + 2) as [Hm3 He2].
  { destruct Hcase2 as [(Hlt & -> & ->)|(Hge & -> & ->)].
    - cbn [shr_record_of_loc shr_m]. lia.
    - assert (m2 = 2 ^ 53) as -> by lia. split; [|lia]. by vm_compute. }
  destruct (shr_m mrs2) as [|m|m] eqn:Hm; [lia| |lia].
  replace (e2 <=? 1024 - 53) with true by (symmetry; apply Z.leb_le; lia).
  exists m, e2. split; [done|]. split; [|done].
  apply digits2_unique. change (53 - 1) with 52. lia.
Qed.

(** The quotient of two finite numbers is a normal number when its
    exponent stays in range. *)
Lemma SFdiv_normal (s1 s2 : bool) (m1 m2 : positive) (e1 e2 : Z) :
  let d1 := Z.pos (digits2_pos m1) in
  let d2 := Z.pos (digits2_pos m2) in
  let E := d1 + e1 - d2 - e2 - 53 in
  d1 <= d2 + 53 -> -1074 <= E -> E + 2 <= 971 ->
  ∃ m e, SFdiv 53 1024 (S754_finite s1 m1 e1) (S754_finite s2 m2 e2)
         = S754_finite (xorb s1 s2) m e
         ∧ Z.pos (digits2_pos m) = 53 ∧ E <= e <= E + 2.
Proof.
  intros d1 d2 E Hd HE Hmax. unfold SFdiv, SFdiv_core_binary.
  cbn [Zdigits2]. fold d1 d2.
  replace (Z.min (fexp 53 1024 (d1 + e1 - (d2 + e2))) (e1 - e2)) with E
    by (unfold fexp, emin; lia).
  set (s := e1 - e2 - E).
  assert (s = 53 + d2 - d1) as Hs by (subst s E; lia).
  set (m' := match s with Z.pos _ => Z.shiftl (Z.pos m1) s | Z0 => Z.pos m1 | Z.neg _ => 0 end).
  assert (m' = Z.pos m1 * 2 ^ s) as Hm'.
  { subst m'. destruct s as [|p|p] eqn:Hsp; [lia| |lia]. rewrite Z.shiftl_mul_pow2; lia. }
  pose proof (digits2_bounds m1) as [Hlo1 Hhi1]. fold d1 in Hlo1, Hhi1.
  pose proof (digits2_bounds m2) as [Hlo2 Hhi2]. fold d2 in Hlo2, Hhi2.
  assert (0 < d1 ∧ 0 < d2) as [Hd1 Hd2] by (subst d1 d2; lia).
  assert (2 ^ (52 + d2) <= m' < 2 ^ (53 + d2)) as Hm'b.
  { rewrite Hm'. replace (52 + d2) with (d1 - 1 + s) by lia.
    replace (53 + d2) with (d1 + s) by lia. rewrite !Z.pow_add_r by lia.
    assert (0 < 2 ^ s) by (apply Z.pow_pos_nonneg; lia). nia. }
  pose proof (Z.div_eucl_eq m' (Z.pos m2) ltac:(lia)) as Heq.
  pose proof (Z.mod_pos_bound m' (Z.pos m2) ltac:(lia)) as Hr.
  unfold Z.modulo in Hr. destruct (Z.div_eucl m' (Z.pos m2)) as [q r].
  apply binary_round_aux_normal; [|done|done].
  rewrite !Z.pow_add_r in Hm'b by lia.
  replace (2 ^ d2) with (2 * 2 ^ (d2 - 1)) in Hm'b, Hhi2
    by (rewrite <- Z.pow_succ_r by lia; f_equal; lia).
  assert (0 < 2 ^ (d2 - 1)) as HP by (apply Z.pow_pos_nonneg; lia).
  revert Hm'b Hlo2 Hhi2 HP. generalize (2 ^ (d2 - 1)) as P. intros P Hm'b Hlo2 Hhi2 HP.
  change (2 ^ 52) with 4503599627370496 in *.
  change (2 ^ 53) with 9007199254740992 in *.
  change (2 ^ 54) with 18014398509481984.
  assert (0 <= q) by nia.
  split.
  - assert (9007199254740992 * P < 2 * P * (q + 1)) by nia. nia.
  - assert (P * q < 18014398509481984 * P) by nia. nia.
Qed.

End Rounding.

(** ** Elapsed time *)

Section Elapsed.

Lemma days_before_month_bounds (y m : Z) :
  1 <= m <= 12 -> 0 <= days_before_month y m <= 335.
Proof.
  intros Hm.
  assert (m = 1 ∨ m = 2 ∨ m = 3 ∨ m = 4 ∨ m = 5 ∨ m = 6 ∨ m = 7 ∨ m = 8
          ∨ m = 9 ∨ m = 10 ∨ m = 11 ∨ m = 12) as Hcases by lia.
  unfold days_before_month.
  unfold days_in_month.
  repeat (destruct Hcases as [->|Hcases]); try subst m;
    destruct (is_leap y); vm_compute; split; discriminate.
Qed.

Lemma micros_bounds (d : datetime) :
  valid d = true -> 0 <= micros d < 2 ^ 59.
Proof.
  unfold valid. rewrite !andb_true_iff, !Z.leb_le.
  intros [[[[[[[[[[[[[Hy1 Hy2] Hm1] Hm2] Hd1] Hd2] Hh1] Hh2] Hmi1] Hmi2] Hs1] Hs2] Hu1] Hu2].
  pose proof (days_before_month_bounds (year d) (month d) ltac:(lia)) as Hdbm.
  assert (day d <= 31) as Hd31.
  { revert Hd2. unfold days_in_month.
    repeat match goal with |- context [if ?b then _ else _] => destruct b end; lia. }
  assert (0 <= toordinal d <= 3652425) as Hord.
  { unfold toordinal, days_before_year. clear Hd2.
    generalize dependent (days_before_month (year d) (month d)). intros dbm Hdbm.
    pose proof (Z.div_pos (year d - 1) 4). pose proof (Z.div_pos (year d - 1) 400).
    pose proof (Z.div_le_upper_bound (year d - 1) 4 2500).
    pose proof (Z.div_le_upper_bound (year d - 1) 400 25).
    pose proof (Z.div_le_lower_bound (year d - 1) 4 ((year d - 1) / 100)).
    pose proof (Z.div_pos (year d - 1) 100).
    pose proof (Z.div_le_compat_l (year d - 1) 4 100).
    lia. }
  unfold micros. change (2 ^ 59) with 576460752303423488. lia.
Qed.

Lemma digits2_le (p : positive) (n : Z) :
  0 <= n -> Z.pos p < 2 ^ n -> Z.pos (digits2_pos p) <= n.
Proof.
  intros Hn Hp. pose proof (digits2_bounds p) as [Hlo _].
  destruct (Z.le_gt_cases (Z.pos (digits2_pos p)) n) as [|Hgt]; [done|exfalso].
  assert (2 ^ n <= 2 ^ (Z.pos (digits2_pos p) - 1)) by (apply Z.pow_le_mono_r; lia).
  lia.
Qed.

Lemma quot_normal (negative : bool) (x : F64.float) (n : Z) (lo hi : Z) :
  (∃ m e, x = S754_finite negative m e ∧ Z.pos (digits2_pos m) = 53 ∧ lo <= e <= hi) ->
  -900 <= lo -> hi <= 900 ->
  n = 24 ∨ n = 3600 ->
  ∃ m e, F64.quot x (F64.of_Z n) = S754_finite negative m e
         ∧ Z.pos (digits2_pos m) = 53 ∧ lo - 12 <= e <= hi - 3.
Proof.
  intros (m & e & -> & Hm & He) Hlo Hhi Hn.
  destruct Hn as [-> | ->].
  - change (F64.of_Z 24) with (S754_finite false 6755399441055744 (-48)).
    destruct (SFdiv_normal negative false m 6755399441055744 e (-48))
      as (m' & e' & Heq & Hm' & He'); rewrite ?Hm; cbn; try lia.
    exists m', e'. rewrite xorb_false_r in Heq. split; [exact Heq|]. split; [done|].
    rewrite Hm in He'. cbn in He'. lia.
  - change (F64.of_Z 3600) with (S754_finite false 7916483719987200 (-41)).
    destruct (SFdiv_normal negative false m 7916483719987200 e (-41))
      as (m' & e' & Heq & Hm' & He'); rewrite ?Hm; cbn; try lia.
    exists m', e'. rewrite xorb_false_r in Heq. split; [exact Heq|]. split; [done|].
    rewrite Hm in He'. cbn in He'. lia.
Qed.

(** The elapsed hours of two different instants are a normal number with
    the sign of the difference, and so are the elapsed days. *)
Lemma hours_between_normal (nor dep : datetime) :
  valid nor = true -> valid dep = true -> micros dep ≠ micros nor ->
  let negative := micros dep <? micros nor in
  normal negative (hours_between nor dep)
  ∧ normal negative (F64.quot (hours_between nor dep) (F64.of_Z 24)).
Proof.
  intros Hnor Hdep Hne negative.
  pose proof (micros_bounds _ Hnor) as Hn. pose proof (micros_bounds _ Hdep) as Hd.
  assert (∃ m e, F64.int_quot (Datetime.sub dep nor) 1000000 = S754_finite negative m e
                 ∧ Z.pos (digits2_pos m) = 53 ∧ -72 <= e <= -12) as Hsec.
  { unfold Datetime.sub, F64.int_quot, F64.quot.
    assert (∃ p, F64.exact (micros dep - micros nor) = S754_finite negative p 0
                 ∧ Z.pos p < 2 ^ 59) as (p & -> & Hp).
    { subst negative. destruct (micros dep - micros nor) as [|p|p] eqn:Htd; [lia| |].
      - exists p. split; [|lia]. cbn. f_equal. symmetry. apply Z.ltb_ge. lia.
      - exists p. split; [|lia]. cbn. f_equal. symmetry. apply Z.ltb_lt. lia. }
    pose proof (digits2_le p 59 ltac:(lia) Hp) as Hdig.
    assert (1 <= Z.pos (digits2_pos p)) as Hdig1 by lia.
    destruct (SFdiv_normal negative false p 1000000 0 0)
      as (m' & e' & Heq & Hm' & He'); cbn; try lia.
    exists m', e'. rewrite xorb_false_r in Heq. split; [exact Heq|]. split; [done|].
    cbn in He'. lia. }
  assert (∃ m e, hours_between nor dep = S754_finite negative m e
                 ∧ Z.pos (digits2_pos m) = 53 ∧ -72 - 12 <= e <= -12 - 3) as Hhours.
  { unfold hours_between. eapply quot_normal; [exact Hsec|lia|lia|by right]. }
  split.
  - destruct Hhours as (m & e & ? & ? & ?). exists m, e. repeat split; [done|done|lia|lia].
  - destruct (quot_normal negative _ 24 _ _ Hhours) as (m & e & ? & ? & ?); [lia|lia|by left|].
    exists m, e. repeat split; [done|done|lia|lia].
Qed.

Lemma hours_between_same (nor dep : datetime) :
  micros dep = micros nor -> hours_between nor dep = F64.zero.
Proof.
  intros Heq. unfold hours_between, Datetime.sub. rewrite Heq, Z.sub_diag. reflexivity.
Qed.

Lemma normal_not_zero (negative : bool) (x : F64.float) :
  normal negative x -> F64.is_zero x = false.
Proof. by intros (m & e & -> & _). Qed.

Lemma normal_sign (negative : bool) (x : F64.float) :
  normal negative x ->
  F64.ltb x F64.zero = negative ∧ F64.ltb F64.zero x = negb negative.
Proof. intros (m & e & -> & _). by destruct negative. Qed.

End Elapsed.

(** ** The laytime calculation *)

Section Laytime.

Lemma total_seconds_eq (td : timedelta) :
  Datetime.total_seconds td = Ok (F64.int_quot td 1000000).
Proof. reflexivity. Qed.

Lemma div_by_24 (x : F64.float) :
  F64.div x (F64.of_Z 24) = Ok (F64.quot x (F64.of_Z 24)).
Proof. reflexivity. Qed.

Lemma div_by_3600 (x : F64.float) :
  F64.div x (F64.of_Z 3600) = Ok (F64.quot x (F64.of_Z 3600)).
Proof. reflexivity. Qed.

Lemma laytime_body_blocks (parsed_data : ParsedData) :
  laytime_body parsed_data = cargo_block parsed_data (timing parsed_data).
Proof.
  unfold laytime_body, timing, hours_between.
  destruct (get (nor_datetime parsed_data)) as [nor|]; [|reflexivity].
  destruct (get (departure_datetime parsed_data)) as [dep|]; [|reflexivity].
  rewrite total_seconds_eq. lazy beta iota delta [mbind res_bind].
  rewrite div_by_3600. lazy beta iota delta [mbind res_bind].
  rewrite !div_by_24. lazy beta iota delta [mbind res_bind].
  generalize (F64.quot (F64.int_quot (Datetime.sub dep nor) 1000000) (F64.of_Z 3600)).
  intros total.
  destruct (get (laytime_hours parsed_data)) as [allowed|]; [|reflexivity].
  destruct (F64.truthy allowed); [|reflexivity].
  rewrite ?div_by_24. lazy beta iota delta [mbind res_bind].
  destruct (F64.leb _ _); rewrite ?div_by_24; reflexivity.
Qed.

(** What the first block holds when both instants are present. *)
Lemma timing_times (parsed_data : ParsedData) (nor dep : datetime) :
  get (nor_datetime parsed_data) = Some nor ->
  get (departure_datetime parsed_data) = Some dep ->
  timing parsed_data !! "total_time_hours" = Some (VFloat (hours_between nor dep))
  ∧ timing parsed_data !! "total_time_days"
    = Some (VFloat (F64.quot (hours_between nor dep) (F64.of_Z 24))).
Proof.
  intros Hnor Hdep. unfold timing. rewrite Hnor, Hdep.
  destruct (get (laytime_hours parsed_data)) as [allowed|]; [|by split].
  destruct (F64.truthy allowed); [|by split].
  destruct (F64.leb _ _); by split.
Qed.

Lemma timing_untimed (parsed_data : ParsedData) :
  get (nor_datetime parsed_data) = None ∨ get (departure_datetime parsed_data) = None ->
  timing parsed_data = ∅.
Proof.
  unfold timing. intros [-> | ->]; [done|].
  by destruct (get (nor_datetime parsed_data)).
Qed.

Lemma timing_no_rates (parsed_data : ParsedData) :
  timing parsed_data !! "cargo_rate_mt_per_hour" = None
  ∧ timing parsed_data !! "cargo_rate_mt_per_day" = None
  ∧ timing parsed_data !! "error" = None.
Proof.
  unfold timing.
  destruct (get (nor_datetime parsed_data)); [|done].
  destruct (get (departure_datetime parsed_data)); [|done].
  destruct (get (laytime_hours parsed_data)) as [allowed|]; [|done].
  destruct (F64.truthy allowed); [|done].
  by destruct (F64.leb _ _).
Qed.

(** The second block leaves the dictionary alone without a cargo quantity
    that is true, or without a total time. *)
Lemma cargo_block_skip (parsed_data : ParsedData) (calculations : gmap string value) :
  (∀ cargo, get (cargo_mt parsed_data) = Some cargo -> F64.truthy cargo = false)
  ∨ calculations !! "total_time_hours" = None ->
  cargo_block parsed_data calculations = Ok calculations.
Proof.
  unfold cargo_block. intros [Hc|Hnone].
  - destruct (get (cargo_mt parsed_data)) as [cargo|]; [|done].
    by rewrite (Hc cargo eq_refl).
  - destruct (get (cargo_mt parsed_data)) as [cargo|]; [|done].
    rewrite Hnone. rewrite bool_decide_false by (by intros [? ?]).
    by rewrite andb_false_r.
Qed.

(** It adds the two rates when neither division is by zero. *)
Lemma cargo_block_rates (parsed_data : ParsedData) (calculations : gmap string value)
    (cargo hours days : F64.float) :
  get (cargo_mt parsed_data) = Some cargo -> F64.truthy cargo = true ->
  calculations !! "total_time_hours" = Some (VFloat hours) ->
  calculations !! "total_time_days" = Some (VFloat days) ->
  F64.is_zero hours = false -> F64.is_zero days = false ->
  cargo_block parsed_data calculations
  = Ok (<["cargo_rate_mt_per_day" := VFloat (F64.quot cargo days)]>
        (<["cargo_rate_mt_per_hour" := VFloat (F64.quot cargo hours)]> calculations)).
Proof.
  intros Hc Ht Hh Hd Hhz Hdz. unfold cargo_block. rewrite Hc, Ht, Hh.
  rewrite bool_decide_true by done. cbn [andb].
  rewrite !lookup_total_alt, Hh. unfold id. cbn [from_option float_truediv].
  unfold F64.div at 1. rewrite Hhz. cbn [mbind res_bind].
  rewrite lookup_total_alt, lookup_insert_ne by done. rewrite Hd.
  unfold id. cbn [from_option float_truediv].
  unfold F64.div. rewrite Hdz. reflexivity.
Qed.

(** It raises when the total time is zero. *)
Lemma cargo_block_raise (parsed_data : ParsedData) (calculations : gmap string value)
    (cargo hours : F64.float) :
  get (cargo_mt parsed_data) = Some cargo -> F64.truthy cargo = true ->
  calculations !! "total_time_hours" = Some (VFloat hours) ->
  F64.is_zero hours = true ->
  cargo_block parsed_data calculations = Raise "float division by zero".
Proof.
  intros Hc Ht Hh Hhz. unfold cargo_block. rewrite Hc, Ht, Hh.
  rewrite bool_decide_true by done. cbn [andb].
  rewrite !lookup_total_alt, Hh. unfold id. cbn [from_option float_truediv].
  unfold F64.div. by rewrite Hhz.
Qed.

(** The result of the calculation, case by case. *)
Lemma calculate_laytime_cases (parsed_data : ParsedData) :
  valid_times parsed_data ->
  (divides_by_zero parsed_data
   ∧ _calculate_laytime parsed_data
     = {[ "error" := VStr "Laytime calculation failed: float division by zero" ]})
  ∨ (¬ divides_by_zero parsed_data
     ∧ ((∃ nor dep cargo,
           get (nor_datetime parsed_data) = Some nor
           ∧ get (departure_datetime parsed_data) = Some dep
           ∧ get (cargo_mt parsed_data) = Some cargo
           ∧ F64.truthy cargo = true
           ∧ _calculate_laytime parsed_data
             = <["cargo_rate_mt_per_day" :=
                   VFloat (F64.quot cargo
                             (F64.quot (hours_between nor dep) (F64.of_Z 24)))]>
                 (<["cargo_rate_mt_per_hour" :=
                      VFloat (F64.quot cargo (hours_between nor dep))]>
                    (timing parsed_data)))
        ∨ (((∀ cargo, get (cargo_mt parsed_data) = Some cargo ->
                      F64.truthy cargo = false)
            ∨ get (nor_datetime parsed_data) = None
            ∨ get (departure_datetime parsed_data) = None)
           ∧ _calculate_laytime parsed_data = timing parsed_data))).
Proof.
  intros Hvalid. unfold _calculate_laytime. rewrite laytime_body_blocks.
  unfold divides_by_zero.
  destruct (get (cargo_mt parsed_data)) as [cargo|] eqn:Hc.
  2: { right. split; [intros (? & ? & ? & _ & _ & ? & _); congruence|]. right.
       split; [by left|]. rewrite cargo_block_skip; [done|]. left. by rewrite Hc. }
  destruct (F64.truthy cargo) eqn:Ht.
  2: { right. split; [intros (? & ? & ? & _ & _ & ? & ? & _); congruence|]. right.
       split; [left; intros ? ?; congruence|]. rewrite cargo_block_skip; [done|].
       left. rewrite Hc. intros ? ?; congruence. }
  destruct (get (nor_datetime parsed_data)) as [nor|] eqn:Hnor.
  2: { right. split; [intros (? & ? & ? & ? & _); congruence|]. right.
       split; [by right; left|]. rewrite cargo_block_skip; [done|].
       right. rewrite timing_untimed; [done|by left]. }
  destruct (get (departure_datetime parsed_data)) as [dep|] eqn:Hdep.
  2: { right. split; [intros (? & ? & ? & _ & ? & _); congruence|]. right.
       split; [by right; right|]. rewrite cargo_block_skip; [done|].
       right. rewrite timing_untimed; [done|by right]. }
  destruct (timing_times parsed_data nor dep Hnor Hdep) as [Hh Hd].
  destruct (decide (micros dep = micros nor)) as [Heq|Hne].
  - left. split; [by exists nor, dep, cargo|].
    erewrite cargo_block_raise; [done|done|done|exact Hh|].
    by rewrite hours_between_same.
  - right. split; [intros (? & ? & ? & ? & ? & _ & _ & ?); congruence|]. left.
    exists nor, dep, cargo. repeat (split; [done|]).
    destruct (hours_between_normal nor dep) as [Hnh Hnd];
      [apply Hvalid; by left|apply Hvalid; by right|done|].
    erewrite cargo_block_rates; [done|done|done|exact Hh|exact Hd| |].
    + exact (normal_not_zero _ _ Hnh).
    + exact (normal_not_zero _ _ Hnd).
Qed.

End Laytime.

(** ** Claims about the laytime calculation *)

Section LaytimeClaims.

Lemma calculate_laytime_timing_keys (parsed_data : ParsedData) (k : string) :
  valid_times parsed_data -> ¬ divides_by_zero parsed_data ->
  k ≠ "cargo_rate_mt_per_hour" -> k ≠ "cargo_rate_mt_per_day" ->
  _calculate_laytime parsed_data !! k = timing parsed_data !! k.
Proof.
  intros Hvalid Hsafe Hk1 Hk2.
  destruct (calculate_laytime_cases parsed_data Hvalid)
    as [[Hz _]|[_ [(nor & dep & cargo & _ & _ & _ & _ & ->)|[_ ->]]]];
    [contradiction| |done].
  by rewrite !lookup_insert_ne.
Qed.

Lemma timing_classified (parsed_data : ParsedData) (nor dep : datetime)
    (allowed : F64.float) :
  get (nor_datetime parsed_data) = Some nor ->
  get (departure_datetime parsed_data) = Some dep ->
  get (laytime_hours parsed_data) = Some allowed -> F64.truthy allowed = true ->
  let total := hours_between nor dep in
  let calculations := timing parsed_data in
  if F64.leb total allowed then
    calculations !! "laytime_status" = Some (VStr "within_limit")
    ∧ calculations !! "time_saved_hours" = Some (VFloat (F64.sub allowed total))
    ∧ calculations !! "time_saved_days"
      = Some (VFloat (F64.quot (F64.sub allowed total) (F64.of_Z 24)))
    ∧ calculations !! "time_exceeded_hours" = None
  else
    calculations !! "laytime_status" = Some (VStr "exceeded")
    ∧ calculations !! "time_exceeded_hours" = Some (VFloat (F64.sub total allowed))
    ∧ calculations !! "time_exceeded_days"
      = Some (VFloat (F64.quot (F64.sub total allowed) (F64.of_Z 24)))
    ∧ calculations !! "time_saved_hours" = None.
Proof.
  intros Hnor Hdep Hall Ht. cbn zeta. unfold timing. rewrite Hnor, Hdep, Hall, Ht.
  destruct (F64.leb _ _); done.
Qed.

Lemma timing_unclassified (parsed_data : ParsedData) :
  (∀ allowed, get (laytime_hours parsed_data) = Some allowed ->
              F64.truthy allowed = false) ->
  timing parsed_data !! "laytime_status" = None
  ∧ timing parsed_data !! "time_saved_hours" = None
  ∧ timing parsed_data !! "time_exceeded_hours" = None.
Proof.
  intros Hall. unfold timing.
  destruct (get (nor_datetime parsed_data)); [|done].
  destruct (get (departure_datetime parsed_data)); [|done].
  destruct (get (laytime_hours parsed_data)) as [allowed|]; [|done].
  by rewrite (Hall allowed eq_refl).
Qed.

Lemma calculation_key (k : string) :
  bool_decide (k ∈ calculation_keys) = true ->
  ({[k]} : gset string) ⊆ list_to_set calculation_keys.
Proof.
  intros Hk. apply singleton_subseteq_l, elem_of_list_to_set.
  by apply bool_decide_eq_true in Hk.
Qed.

Lemma timing_keys (parsed_data : ParsedData) :
  dom (timing parsed_data) ⊆ list_to_set calculation_keys.
Proof.
  unfold timing.
  destruct (get (nor_datetime parsed_data)); [|by rewrite dom_empty_L].
  destruct (get (departure_datetime parsed_data)); [|by rewrite dom_empty_L].
  destruct (get (laytime_hours parsed_data)) as [allowed|];
    [destruct (F64.truthy allowed); [destruct (F64.leb _ _)|]|];
    rewrite ?dom_insert_L, dom_empty_L;
    repeat (apply union_least; [by apply calculation_key|]); done.
Qed.

Lemma calculate_laytime_keys (parsed_data : ParsedData) :
  valid_times parsed_data ->
  dom (_calculate_laytime parsed_data) ⊆ list_to_set calculation_keys.
Proof.
  intros Hvalid. pose proof (timing_keys parsed_data) as Hk.
  destruct (calculate_laytime_cases parsed_data Hvalid)
    as [[_ ->]|[_ [(nor & dep & cargo & _ & _ & _ & _ & ->)|[_ ->]]]]; [| |done].
  - rewrite dom_singleton_L. by apply calculation_key.
  - rewrite !dom_insert_L.
    repeat (apply union_least; [by apply calculation_key|]). done.
Qed.

End LaytimeClaims.

Section LaytimeTheorems.

Lemma parsed_valid_times (nor dep : datetime) (allowed cargo : option F64.float) :
  valid nor = true -> valid dep = true ->
  valid_times (parsed (Some nor) (Some dep) allowed cargo).
Proof. intros Hn Hd d [[= <-]|[= <-]]; done. Qed.

Lemma parsed_safe (nor dep : datetime) (allowed cargo : option F64.float) :
  micros dep ≠ micros nor ->
  ¬ divides_by_zero (parsed (Some nor) (Some dep) allowed cargo).
Proof. intros Hne (? & ? & ? & [= <-] & [= <-] & _ & _ & ?). done. Qed.

(** With an allowance of zero hours the calculation classifies nothing,
    where the claim as worded wants [exceeded]. *)
Lemma C1_counterexample : ¬ laytime_claim.
Proof.
  intros Hclaim.
  destruct (Hclaim (parsed (Some nor0) (Some dep30) (Some F64.zero) None)
              nor0 dep30 F64.zero) as [_ Hstatus]; try done.
  { by apply parsed_valid_times. }
  vm_compute in Hstatus. destruct Hstatus as [Hstatus _]. discriminate Hstatus.
Qed.

(** C1 (amended). With the NOR time, the departure time and an allowance
    that is not zero, the result holds the elapsed hours as
    [total_time_hours] and is classified [within_limit] with
    [time_saved_hours = allowed - total] when [total <= allowed], else
    [exceeded] with [time_exceeded_hours = total - allowed]; this for
    every input but those where a non-zero cargo quantity meets a zero
    elapsed time.  From 2024-03-01 08:00 to 2024-03-02 14:00 with 24
    hours allowed: [exceeded] by 6.0 hours. *)
Theorem C1_laytime_classification :
  (∀ (parsed_data : ParsedData) (nor dep : datetime) (allowed : F64.float),
     valid_times parsed_data ->
     get (nor_datetime parsed_data) = Some nor ->
     get (departure_datetime parsed_data) = Some dep ->
     get (laytime_hours parsed_data) = Some allowed ->
     F64.truthy allowed = true ->
     ¬ divides_by_zero parsed_data ->
     let total := hours_between nor dep in
     let calculations := _calculate_laytime parsed_data in
     calculations !! "total_time_hours" = Some (VFloat total)
     ∧ (if F64.leb total allowed then
          calculations !! "laytime_status" = Some (VStr "within_limit")
          ∧ calculations !! "time_saved_hours" = Some (VFloat (F64.sub allowed total))
        else
          calculations !! "laytime_status" = Some (VStr "exceeded")
          ∧ calculations !! "time_exceeded_hours"
            = Some (VFloat (F64.sub total allowed))))
  ∧ (let calculations :=
       _calculate_laytime (parsed (Some nor0) (Some dep30) (Some (F64.of_Z 24)) None) in
     calculations !! "total_time_hours" = Some (VFloat (F64.of_Z 30))
     ∧ calculations !! "laytime_status" = Some (VStr "exceeded")
     ∧ calculations !! "time_exceeded_hours" = Some (VFloat (F64.of_Z 6))).
Proof.
  split; [|by vm_compute].
  intros parsed_data nor dep allowed Hvalid Hnor Hdep Hall Ht Hsafe. cbn zeta.
  rewrite !calculate_laytime_timing_keys by done.
  split; [apply (timing_times _ _ _ Hnor Hdep)|].
  pose proof (timing_classified _ _ _ _ Hnor Hdep Hall Ht) as Hc. cbn zeta in Hc.
  destruct (F64.leb _ _); destruct Hc as (? & ? & _); by split.
Qed.

Lemma C1_witness :
  let parsed_data := parsed (Some nor0) (Some dep20) (Some (F64.of_Z 24))
                       (Some (F64.of_Z 1000)) in
  let total := hours_between nor0 dep20 in
  let calculations := _calculate_laytime parsed_data in
  calculations !! "total_time_hours" = Some (VFloat total)
  ∧ (if F64.leb total (F64.of_Z 24) then
       calculations !! "laytime_status" = Some (VStr "within_limit")
       ∧ calculations !! "time_saved_hours"
         = Some (VFloat (F64.sub (F64.of_Z 24) total))
     else
       calculations !! "laytime_status" = Some (VStr "exceeded")
       ∧ calculations !! "time_exceeded_hours"
         = Some (VFloat (F64.sub total (F64.of_Z 24)))).
Proof.
  exact (proj1 C1_laytime_classification
           (parsed (Some nor0) (Some dep20) (Some (F64.of_Z 24)) (Some (F64.of_Z 1000)))
           nor0 dep20 (F64.of_Z 24)
           (parsed_valid_times nor0 dep20 _ _ eq_refl eq_refl)
           eq_refl eq_refl eq_refl eq_refl
           (parsed_safe nor0 dep20 _ _ ltac:(by vm_compute))).
Defined.

(** A departure 30 hours before the NOR time is classified, and its
    negative total reported. *)
Lemma C2_counterexample : ¬ reversed_claim.
Proof.
  intros Hclaim.
  destruct (Hclaim (parsed (Some dep30) (Some nor0) (Some (F64.of_Z 24)) None)
              dep30 nor0) as [Hstatus _]; try done.
  by apply parsed_valid_times.
Qed.

(** C2 (amended). The calculation has no check for a reversed interval
    and no diagnostics: when the departure time is earlier than the NOR
    time, [total_time_hours] is the elapsed time, a negative number, and
    an allowance that is not zero is compared with it as with any other
    total; the result has no key but those of a calculation.  A departure
    30 hours before the NOR time and 24 hours allowed: a total of -30.0
    hours, [within_limit], 54.0 hours saved. *)
Theorem C2_reversed_interval_is_classified :
  (∀ (parsed_data : ParsedData) (nor dep : datetime),
     valid_times parsed_data ->
     get (nor_datetime parsed_data) = Some nor ->
     get (departure_datetime parsed_data) = Some dep ->
     micros dep < micros nor ->
     let total := hours_between nor dep in
     let calculations := _calculate_laytime parsed_data in
     calculations !! "total_time_hours" = Some (VFloat total)
     ∧ F64.ltb total F64.zero = true
     ∧ (∀ allowed, get (laytime_hours parsed_data) = Some allowed ->
                   F64.truthy allowed = true ->
                   calculations !! "laytime_status"
                   = Some (VStr (if F64.leb total allowed then "within_limit"
                                 else "exceeded")))
     ∧ dom calculations ⊆ list_to_set calculation_keys)
  ∧ (let calculations :=
       _calculate_laytime (parsed (Some dep30) (Some nor0) (Some (F64.of_Z 24)) None) in
     calculations !! "total_time_hours" = Some (VFloat (F64.of_Z (-30)))
     ∧ calculations !! "laytime_status" = Some (VStr "within_limit")
     ∧ calculations !! "time_saved_hours" = Some (VFloat (F64.of_Z 54))).
Proof.
  split; [|by vm_compute].
  intros parsed_data nor dep Hvalid Hnor Hdep Hlt. cbn zeta.
  assert (¬ divides_by_zero parsed_data) as Hsafe.
  { intros (? & ? & ? & ? & ? & _ & _ & ?).
    assert (x = nor) as -> by congruence. assert (x0 = dep) as -> by congruence. lia. }
  rewrite !calculate_laytime_timing_keys by done.
  split; [apply (timing_times _ _ _ Hnor Hdep)|].
  split.
  { destruct (hours_between_normal nor dep) as [Hn _];
      [apply Hvalid; by left|apply Hvalid; by right|lia|].
    destruct (normal_sign _ _ Hn) as [-> _]. apply Z.ltb_lt. done. }
  split; [|by apply calculate_laytime_keys].
  intros allowed Hall Ht.
  pose proof (timing_classified _ _ _ _ Hnor Hdep Hall Ht) as Hc. cbn zeta in Hc.
  destruct (F64.leb _ _); by destruct Hc as (? & _).
Qed.

Lemma C2_witness :
  let parsed_data := parsed (Some dep20) (Some nor0) None None in
  let total := hours_between dep20 nor0 in
  let calculations := _calculate_laytime parsed_data in
  calculations !! "total_time_hours" = Some (VFloat total)
  ∧ F64.ltb total F64.zero = true
  ∧ (∀ allowed, get (laytime_hours parsed_data) = Some allowed ->
                F64.truthy allowed = true ->
                calculations !! "laytime_status"
                = Some (VStr (if F64.leb total allowed then "within_limit"
                              else "exceeded")))
  ∧ dom calculations ⊆ list_to_set calculation_keys.
Proof.
  exact (proj1 C2_reversed_interval_is_classified
           (parsed (Some dep20) (Some nor0) None None) dep20 nor0
           (parsed_valid_times dep20 nor0 _ _ eq_refl eq_refl)
           eq_refl eq_refl ltac:(by vm_compute)).
Defined.

(** A cargo quantity of zero tons gets no rates. *)
Lemma C5_counterexample : ¬ cargo_claim.
Proof.
  intros Hclaim.
  destruct (Hclaim (parsed (Some nor0) (Some dep20) None (Some F64.zero))
              nor0 dep20 F64.zero) as [Hrate _]; try done.
  by apply parsed_valid_times.
Qed.

(** C5 (amended). With a cargo quantity that is not zero and a total
    time above zero, the result holds
    [cargo_rate_mt_per_hour = cargo / total] and
    [cargo_rate_mt_per_day = cargo / (total / 24)], whatever the
    allowance and the classification are.  1000 tons in 20 hours: 50.0
    tons an hour and 1200.0 tons a day, within the limit or not. *)
Theorem C5_cargo_rates :
  (∀ (parsed_data : ParsedData) (nor dep : datetime) (cargo : F64.float),
     valid_times parsed_data ->
     get (nor_datetime parsed_data) = Some nor ->
     get (departure_datetime parsed_data) = Some dep ->
     get (cargo_mt parsed_data) = Some cargo ->
     F64.truthy cargo = true ->
     let total := hours_between nor dep in
     let calculations := _calculate_laytime parsed_data in
     F64.ltb F64.zero total = true ->
     calculations !! "cargo_rate_mt_per_hour" = Some (VFloat (F64.quot cargo total))
     ∧ calculations !! "cargo_rate_mt_per_day"
       = Some (VFloat (F64.quot cargo (F64.quot total (F64.of_Z 24)))))
  ∧ (∀ allowed : option F64.float,
       allowed = None ∨ allowed = Some (F64.of_Z 24) ∨ allowed = Some (F64.of_Z 12) ->
       let calculations :=
         _calculate_laytime (parsed (Some nor0) (Some dep20) allowed
                               (Some (F64.of_Z 1000))) in
       calculations !! "total_time_hours" = Some (VFloat (F64.of_Z 20))
       ∧ calculations !! "cargo_rate_mt_per_hour" = Some (VFloat (F64.of_Z 50))
       ∧ calculations !! "cargo_rate_mt_per_day" = Some (VFloat (F64.of_Z 1200))).
Proof.
  split; [|by intros allowed [->|[->| ->]]; vm_compute].
  intros parsed_data nor dep cargo Hvalid Hnor Hdep Hcargo Ht. cbn zeta. intros Hpos.
  destruct (calculate_laytime_cases parsed_data Hvalid)
    as [[Hz _]|[_ [(nor' & dep' & cargo' & Hn' & Hd' & Hc' & _ & ->)|[Hno _]]]].
  - exfalso. destruct Hz as (nor' & dep' & _ & Hn' & Hd' & _ & _ & Heq).
    assert (nor' = nor) as -> by congruence. assert (dep' = dep) as -> by congruence.
    rewrite (hours_between_same _ _ Heq) in Hpos. discriminate Hpos.
  - assert (nor' = nor) as -> by congruence. assert (dep' = dep) as -> by congruence.
    assert (cargo' = cargo) as -> by congruence.
    split; [by rewrite lookup_insert_ne, lookup_insert_eq|by rewrite lookup_insert_eq].
  - exfalso. destruct Hno as [Hno|[Hno|Hno]]; [|congruence|congruence].
    rewrite (Hno cargo Hcargo) in Ht. discriminate Ht.
Qed.

Lemma C5_witness :
  let parsed_data := parsed (Some nor0) (Some dep30) (Some (F64.of_Z 24))
                       (Some (F64.of_Z 1000)) in
  let total := hours_between nor0 dep30 in
  let calculations := _calculate_laytime parsed_data in
  calculations !! "cargo_rate_mt_per_hour"
  = Some (VFloat (F64.quot (F64.of_Z 1000) total))
  ∧ calculations !! "cargo_rate_mt_per_day"
    = Some (VFloat (F64.quot (F64.of_Z 1000) (F64.quot total (F64.of_Z 24)))).
Proof.
  exact (proj1 C5_cargo_rates
           (parsed (Some nor0) (Some dep30) (Some (F64.of_Z 24)) (Some (F64.of_Z 1000)))
           nor0 dep30 (F64.of_Z 1000)
           (parsed_valid_times nor0 dep30 _ _ eq_refl eq_refl)
           eq_refl eq_refl eq_refl eq_refl ltac:(by vm_compute)).
Defined.

(** C10 (the code at the failing input, and what holds of a zero).  An
    allowance of zero gives the result of a missing allowance, without a
    classification, and a cargo quantity of zero gives the result of a
    missing quantity, without rates.  Yet the total hours are not
    reported for every such input: with the departure at the NOR time, an
    allowance of zero and 1000 tons of cargo, the division of the cargo by
    the zero total raises and the result is the error entry alone.  The
    string "0 hours" normalises to 0.0, but from the text
    "laytime: 0 hours" the candidates are "0" and "hours", and the first
    one alone normalises to nothing. *)
Theorem C10_zero_is_absent_but_total_may_be_lost :
  (∀ (nor dep : option datetime) (cargo : option F64.float) (negative : bool),
     let calculations :=
       _calculate_laytime (parsed nor dep (Some (S754_zero negative)) cargo) in
     calculations = _calculate_laytime (parsed nor dep None cargo)
     ∧ calculations !! "laytime_status" = None)
  ∧ (∀ (nor dep : option datetime) (allowed : option F64.float) (negative : bool),
       let calculations :=
         _calculate_laytime (parsed nor dep allowed (Some (S754_zero negative))) in
       calculations = _calculate_laytime (parsed nor dep allowed None)
       ∧ calculations !! "cargo_rate_mt_per_hour" = None
       ∧ calculations !! "cargo_rate_mt_per_day" = None)
  ∧ ¬ zero_allowance_claim
  ∧ (let calculations :=
       _calculate_laytime (parsed (Some nor0) (Some nor0) (Some F64.zero)
                             (Some (F64.of_Z 1000))) in
     calculations
     = {[ "error" := VStr "Laytime calculation failed: float division by zero" ]}
     ∧ calculations !! "total_time_hours" = None)
  ∧ (_parse_laytime "0 hours" = Some F64.zero
     ∧ _extract_sof_data "laytime: 0 hours" !! "laytime_allowed" = Some ["0"; "hours"]
     ∧ laytime_hours (_parse_dates_and_times (_extract_sof_data "laytime: 0 hours"))
       = Some None).
Proof.
  split; [|split; [|split; [|split; [|by vm_compute]]]].
  - intros nor dep cargo negative. cbn zeta.
    assert (laytime_body (parsed nor dep (Some (S754_zero negative)) cargo)
            = laytime_body (parsed nor dep None cargo)) as Heq.
    { rewrite !laytime_body_blocks. unfold cargo_block, timing. cbn.
      destruct nor, dep; reflexivity. }
    unfold _calculate_laytime. rewrite Heq. split; [done|].
    rewrite laytime_body_blocks.
    assert (timing (parsed nor dep None cargo) !! "laytime_status" = None) as Hnone.
    { apply timing_unclassified. intros allowed. cbn. discriminate. }
    unfold cargo_block.
    destruct (get (cargo_mt (parsed nor dep None cargo))) as [c|]; [|done].
    destruct (F64.truthy c && _); [|done].
    destruct (float_truediv c _) as [per_hour|]; [|done]. cbn [mbind res_bind].
    destruct (float_truediv c _) as [per_day|]; [|done]. cbn [mbind res_bind try_except].
    by rewrite !lookup_insert_ne.
  - intros nor dep allowed negative. cbn zeta.
    unfold _calculate_laytime. rewrite !laytime_body_blocks.
    rewrite !cargo_block_skip.
    + cbn [try_except]. split; [done|].
      destruct (timing_no_rates (parsed nor dep allowed (Some (S754_zero negative))))
        as (? & ? & _). done.
    + left. intros c. cbn. discriminate.
    + left. intros c. cbn. intros [= <-]. done.
  - intros Hclaim.
    destruct (Hclaim (parsed (Some nor0) (Some nor0) (Some F64.zero)
                        (Some (F64.of_Z 1000))) nor0 nor0 false) as [_ Htotal];
      try done.
    by apply parsed_valid_times.
  - by vm_compute.
Qed.

End LaytimeTheorems.

(** ** The financial analysis *)

Section Financial.

Lemma financial_none (parsed_data : ParsedData) (calculations : gmap string value) :
  calculations !! "laytime_status" = None ->
  _analyze_financial_implications parsed_data calculations
  = <["note" := VStr disclaimer]> (<["example_rates" := VDict example_rates]> ∅).
Proof.
  intros Hs. unfold _analyze_financial_implications, financial_body. by rewrite Hs.
Qed.

Lemma financial_within (parsed_data : ParsedData) (calculations : gmap string value)
    (days : F64.float) :
  calculations !! "laytime_status" = Some (VStr "within_limit") ->
  calculations !! "time_saved_days" = Some (VFloat days) ->
  _analyze_financial_implications parsed_data calculations
  = <["note" := VStr disclaimer]>
      (<["example_rates" := VDict example_rates]>
        (<["financial_impact" := VStr "positive"]>
          (<["time_saved_days" := VFloat days]>
            (<["despatch_rate_usd_per_day" := VInt 12500]>
              (<["despatch_amount_usd" := VFloat (F64.mul days (F64.of_Z 12500))]> ∅))))).
Proof.
  intros Hs Hd. unfold _analyze_financial_implications, financial_body.
  by rewrite Hs, Hd.
Qed.

Lemma financial_exceeded (parsed_data : ParsedData) (calculations : gmap string value)
    (days : F64.float) :
  calculations !! "laytime_status" = Some (VStr "exceeded") ->
  calculations !! "time_exceeded_days" = Some (VFloat days) ->
  _analyze_financial_implications parsed_data calculations
  = <["note" := VStr disclaimer]>
      (<["example_rates" := VDict example_rates]>
        (<["financial_impact" := VStr "negative"]>
          (<["time_exceeded_days" := VFloat days]>
            (<["demurrage_rate_usd_per_day" := VInt 25000]>
              (<["demurrage_amount_usd" := VFloat (F64.mul days (F64.of_Z 25000))]> ∅))))).
Proof.
  intros Hs Hd. unfold _analyze_financial_implications, financial_body.
  by rewrite Hs, Hd.
Qed.

(** The classification of the first block, read back. *)
Lemma timing_status (parsed_data : ParsedData) :
  (timing parsed_data !! "laytime_status" = None)
  ∨ (∃ hours, timing parsed_data !! "laytime_status" = Some (VStr "within_limit")
              ∧ timing parsed_data !! "time_saved_hours" = Some (VFloat hours)
              ∧ timing parsed_data !! "time_saved_days"
                = Some (VFloat (F64.quot hours (F64.of_Z 24))))
  ∨ (∃ hours, timing parsed_data !! "laytime_status" = Some (VStr "exceeded")
              ∧ timing parsed_data !! "time_exceeded_hours" = Some (VFloat hours)
              ∧ timing parsed_data !! "time_exceeded_days"
                = Some (VFloat (F64.quot hours (F64.of_Z 24)))).
Proof.
  unfold timing.
  destruct (get (nor_datetime parsed_data)); [|by left].
  destruct (get (departure_datetime parsed_data)); [|by left].
  destruct (get (laytime_hours parsed_data)) as [allowed|]; [|by left].
  destruct (F64.truthy allowed); [|by left].
  destruct (F64.leb _ _); right; [left|right]; eexists; done.
Qed.

(** The same of the whole calculation, with the entries the analysis
    reads. *)
Lemma calculate_laytime_status (parsed_data : ParsedData) :
  valid_times parsed_data ->
  let calculations := _calculate_laytime parsed_data in
  (calculations !! "laytime_status" = None)
  ∨ (∃ hours, calculations !! "laytime_status" = Some (VStr "within_limit")
              ∧ calculations !! "time_saved_hours" = Some (VFloat hours)
              ∧ calculations !! "time_saved_days"
                = Some (VFloat (F64.quot hours (F64.of_Z 24))))
  ∨ (∃ hours, calculations !! "laytime_status" = Some (VStr "exceeded")
              ∧ calculations !! "time_exceeded_hours" = Some (VFloat hours)
              ∧ calculations !! "time_exceeded_days"
                = Some (VFloat (F64.quot hours (F64.of_Z 24)))).
Proof.
  intros Hvalid. cbn zeta.
  destruct (calculate_laytime_cases parsed_data Hvalid) as [[_ ->]|[Hsafe _]];
    [by left|].
  rewrite !calculate_laytime_timing_keys by done. apply timing_status.
Qed.



End Financial.

(** ** The entry point and the clock *)

Section EntryPointClaims.

Lemma digit_chr_inj (a b : Z) : digit_chr a = digit_chr b -> a mod 10 = b mod 10.
Proof.
  unfold digit_chr. intros H.
  pose proof (Z.mod_pos_bound a 10 ltac:(lia)) as Ha.
  pose proof (Z.mod_pos_bound b 10 ltac:(lia)) as Hb.
  apply (f_equal N_of_ascii) in H.
  rewrite !N_ascii_embedding in H by (apply N2Z.inj_lt; rewrite Z2N.id; lia).
  apply (f_equal Z.of_N) in H. rewrite !Z2N.id in H; lia.
Qed.

Lemma isoformat_inj (a b : datetime) :
  valid a = true -> valid b = true -> isoformat a = isoformat b -> a = b.
Proof.
  unfold valid. rewrite !andb_true_iff, !Z.leb_le.
  intros Ha Hb. destruct a as [y mo d h mi s us], b as [y' mo' d' h' mi' s' us'].
  cbn [year month day hour minute second microsecond] in *.
  unfold isoformat. cbn [year month day hour minute second microsecond].
  cbn [padded String.append]. intros H.
  injection H as Hy1 Hy2 Hy3 Hy4 Hmo1 Hmo2 Hd1 Hd2 Hh1 Hh2 Hmi1 Hmi2 Hs1 Hs2 Hus.
  repeat match goal with
         | H : digit_chr _ = digit_chr _ |- _ => apply digit_chr_inj in H
         end.
  assert (us = us') as ->.
  { destruct (Z.eqb_spec us 0) as [->|Hne], (Z.eqb_spec us' 0) as [->|Hne'];
      [done|discriminate Hus|discriminate Hus|].
    cbn [padded String.append] in Hus.
    injection Hus as Hu1 Hu2 Hu3 Hu4 Hu5 Hu6.
    repeat match goal with
           | H : digit_chr _ = digit_chr _ |- _ => apply digit_chr_inj in H
           end.
    clear - Ha Hb Hu1 Hu2 Hu3 Hu4 Hu5 Hu6. Z.div_mod_to_equations. lia. }
  clear Hus.
  assert (y = y') as -> by (clear - Ha Hb Hy1 Hy2 Hy3 Hy4; Z.div_mod_to_equations; lia).
  assert (h = h') as -> by (clear - Ha Hb Hh1 Hh2; Z.div_mod_to_equations; lia).
  assert (mi = mi') as -> by (clear - Ha Hb Hmi1 Hmi2; Z.div_mod_to_equations; lia).
  assert (s = s') as -> by (clear - Ha Hb Hs1 Hs2; Z.div_mod_to_equations; lia).
  assert (mo = mo') as -> by (clear - Ha Hb Hmo1 Hmo2; Z.div_mod_to_equations; lia).
  assert (d = d') as ->; [|done].
  assert (d <= 31 ∧ d' <= 31) as Hd31.
  { destruct Ha as [[[[[[[[[_ Hd] _] _] _] _] _] _] _] _].
    destruct Hb as [[[[[[[[[_ Hd'] _] _] _] _] _] _] _] _].
    revert Hd Hd'. unfold days_in_month.
    repeat match goal with |- context [if ?c then _ else _] => destruct c end; lia. }
  clear - Ha Hb Hd1 Hd2 Hd31.
  assert (1 <= d ∧ 1 <= d') by lia. clear Ha Hb.
  Z.div_mod_to_equations. lia.
Qed.

(** Two readings of the clock give two results. *)
Lemma C3_counterexample : ¬ idempotence_claim.
Proof.
  intros Hclaim.
  specialize (Hclaim (fun content => content) None
                (at_time 2024 3 1 8 0) (at_time 2024 3 1 8 1) "" "sof.txt").
  apply (f_equal analysis_timestamp) in Hclaim. by vm_compute in Hclaim.
Qed.

(** C3 (amended). Two calls with the same content and file name return
    results that agree on every entry but [analysis_timestamp], which is
    the reading of the clock at each call in ISO format: the two results
    are equal exactly when the two readings are written the same, which
    for readings that are dates means when they are the same reading. *)
Theorem C3_results_differ_by_the_clock_only
    (decode : string -> string) (fitz : option (string -> res (list string)))
    (now now' : datetime) (content file_name : string) :
  let result := parse_sof_document decode fitz now content file_name in
  let result' := parse_sof_document decode fitz now' content file_name in
  filename result = filename result'
  ∧ extracted_data result = extracted_data result'
  ∧ parsed_data result = parsed_data result'
  ∧ laytime_calculations result = laytime_calculations result'
  ∧ financial_analysis result = financial_analysis result'
  ∧ confidence_score result = confidence_score result'
  ∧ analysis_timestamp result = isoformat now
  ∧ analysis_timestamp result' = isoformat now'
  ∧ (result = result' ↔ isoformat now = isoformat now')
  ∧ (valid now = true -> valid now' = true -> (result = result' ↔ now = now')).
Proof.
  cbn zeta. repeat (split; [reflexivity|]).
  assert (parse_sof_document decode fitz now content file_name
          = parse_sof_document decode fitz now' content file_name
          ↔ isoformat now = isoformat now') as Hiff.
  { split.
    - intros H. by apply (f_equal analysis_timestamp) in H.
    - intros H. unfold parse_sof_document. by rewrite H. }
  split; [exact Hiff|].
  intros Hv Hv'. rewrite Hiff. split; [by apply isoformat_inj|by intros ->].
Qed.

Lemma C3_witness :
  let now := at_time 2024 3 1 8 0 in
  let result := parse_sof_document (fun content => content) None now "" "sof.txt" in
  result = result ↔ now = now.
Proof.
  exact (proj2 (proj2 (proj2 (proj2 (proj2 (proj2 (proj2 (proj2 (proj2
           (C3_results_differ_by_the_clock_only (fun content => content) None
              (at_time 2024 3 1 8 0) (at_time 2024 3 1 8 0) "" "sof.txt")))))))))
           eq_refl eq_refl).
Defined.

End EntryPointClaims.

(** ** The confidence score *)

Section Confidence.

Lemma count_if_Permutation {A : Type} (p : A -> bool) (l l' : list A) :
  l ≡ₚ l' -> count_if p l = count_if p l'.
Proof.
  unfold count_if. intros Hp. f_equal.
  induction Hp as [|x l l' _ IH|x y l|l l' l'' _ IH _ IH']; cbn.
  - done.
  - destruct (p x); cbn; by rewrite IH.
  - destruct (p x), (p y); done.
  - by rewrite IH.
Qed.

Lemma count_if_fmap {A B : Type} (p : B -> bool) (f : A -> B) (l : list A) :
  count_if p (f <$> l) = count_if (fun x => p (f x)) l.
Proof.
  unfold count_if. f_equal.
  induction l as [|x l IH]; [done|]. cbn. destruct (p (f x)); cbn; by rewrite IH.
Qed.

Lemma count_if_bounds {A : Type} (p : A -> bool) (l : list A) :
  0 <= count_if p l <= Z.of_nat (length l).
Proof.
  unfold count_if. pose proof (List.filter_length_le p l). lia.
Qed.

(** The entries of a raw extraction are those of its nine fields. *)
Lemma raw_entries (raw : gmap string (list string)) :
  dom raw = list_to_set field_names ->
  map_to_list raw ≡ₚ (fun field => (field, default [] (raw !! field))) <$> field_names.
Proof.
  intros Hdom. apply NoDup_Permutation.
  - apply NoDup_map_to_list.
  - apply NoDup_fmap_2; [|apply sof_patterns_NoDup].
    intros x y Hxy. by injection Hxy.
  - intros [k v]. rewrite elem_of_map_to_list, list_elem_of_fmap. split.
    + intros Hkv. exists k. rewrite Hkv. split; [done|].
      assert (k ∈ dom raw) as Hk by (apply elem_of_dom; eauto).
      rewrite Hdom in Hk. by apply elem_of_list_to_set in Hk.
    + intros (k' & [= -> ->] & Hk').
      assert (k' ∈ dom raw) as Hk by (rewrite Hdom; by apply elem_of_list_to_set).
      apply elem_of_dom in Hk as [v Hv]. by rewrite Hv.
Qed.

Lemma has_candidate_truthy (raw : gmap string (list string)) (field : string) :
  truthy_list (default [] (raw !! field)) = has_candidate raw field.
Proof. unfold has_candidate. by destruct (raw !! field) as [[|c l]|]. Qed.

Lemma count_if_ext {A : Type} (p q : A -> bool) (l : list A) :
  (∀ x, p x = q x) -> count_if p l = count_if q l.
Proof.
  intros Hpq. unfold count_if. f_equal. f_equal.
  induction l as [|x l IH]; [done|]. cbn [List.filter]. by rewrite Hpq, IH.
Qed.

Lemma count_present_count_if (raw : gmap string (list string)) (names : list string) :
  count_present raw names = count_if (has_candidate raw) names.
Proof.
  unfold count_if. induction names as [|field names IH]; [done|].
  cbn [count_present List.filter]. rewrite IH.
  destruct (has_candidate raw field); cbn [length]; lia.
Qed.

Lemma count_present_bounds (raw : gmap string (list string)) (names : list string) :
  0 <= count_present raw names <= Z.of_nat (length names).
Proof. rewrite count_present_count_if. apply count_if_bounds. Qed.

Lemma count_present_all (raw : gmap string (list string)) (names : list string) :
  (∀ field, field ∈ names -> has_candidate raw field = true) ->
  count_present raw names = Z.of_nat (length names).
Proof.
  induction names as [|field names IH]; [done|]. intros Hall.
  cbn [count_present length]. rewrite (Hall field) by left.
  rewrite IH; [lia|]. intros f Hf. apply Hall. by right.
Qed.

(** The score of the code is the formula on the counts of the
    specification. *)
Lemma confidence_formula (raw : gmap string (list string)) :
  dom raw = list_to_set field_names ->
  _calculate_confidence_score raw
  = score_of (count_present raw field_names) (count_present raw critical_names).
Proof.
  intros Hdom. pose proof (raw_entries raw Hdom) as Hperm.
  unfold _calculate_confidence_score, confidence_body.
  rewrite (count_if_Permutation _ _ _ Hperm), count_if_fmap.
  assert (size raw = 9%nat) as ->.
  { rewrite <- length_map_to_list, Hperm, length_fmap. reflexivity. }
  rewrite (count_if_ext (fun x => truthy_list (snd (x, default [] (raw !! x))))
             (has_candidate raw)) by (intros x; apply has_candidate_truthy).
  rewrite (count_if_ext (fun field => truthy_list (default [] (raw !! field)))
             (has_candidate raw)) by (intros x; apply has_candidate_truthy).
  rewrite !count_present_count_if.
  change critical_fields with critical_names.
  reflexivity.
Qed.

(** The formula on every pair of counts nine fields allow: what floating
    point gives is the decimal of the exact formula. *)
Lemma score_of_table (fields critical : Z) :
  0 <= fields <= 9 -> 0 <= critical <= 3 ->
  let score := score_of fields critical in
  score = F64.of_decimal (Z.to_N (hundredths fields critical)) 2
  ∧ 0 <= hundredths fields critical <= 100
  ∧ F64.leb F64.zero score = true
  ∧ F64.leb score (F64.of_Z 1) = true
  ∧ round2 score = score.
Proof.
  intros Hf Hc.
  assert (fields = 0 ∨ fields = 1 ∨ fields = 2 ∨ fields = 3 ∨ fields = 4
          ∨ fields = 5 ∨ fields = 6 ∨ fields = 7 ∨ fields = 8 ∨ fields = 9)
    as Hfields by lia.
  assert (critical = 0 ∨ critical = 1 ∨ critical = 2 ∨ critical = 3) as Hcritical by lia.
  clear Hf Hc.
  repeat (destruct Hfields as [->|Hfields]); try subst fields;
    repeat (destruct Hcritical as [->|Hcritical]); try subst critical;
    (split; [by vm_compute|]); (split; [by vm_compute|]); by vm_compute.
Qed.

Lemma extract_dom (text_content : string) :
  dom (_extract_sof_data text_content) = list_to_set field_names.
Proof.
  apply set_eq. intros field. rewrite elem_of_dom, elem_of_list_to_set. split.
  - intros [l Hl]. apply extract_from_lookup in Hl as (patterns & Hin & _).
    change field_names with (sof_patterns.*1).
    apply list_elem_of_fmap. by exists (field, patterns).
  - change field_names with (sof_patterns.*1).
    intros Hin. apply list_elem_of_fmap in Hin as ([f ps] & -> & Hin).
    eexists. apply extract_from_entry; [apply sof_patterns_NoDup|exact Hin].
Qed.

(** C6. For every raw extraction (a list of candidates for each of the
    nine fields) the score is
    [round(min(fields/9 + critical/3 * 0.2, 1.0), 2)], where [fields]
    counts the fields with at least one candidate and [critical] those
    among vessel name, arrival time and departure time: it is what the
    formula gives in floating point, and it is the decimal with two
    places nearest to the exact value of the formula, at most 1.00.  It is
    a function of the raw extraction alone, lies between 0.0 and 1.0, is
    1.0 when all nine fields have a candidate, and is 0.0 for the empty
    text.  The fields of an extraction are the nine named ones, whatever
    the text.  A text with all nine gives 1.0; a voyage number alone gives
    0.11, a vessel name alone 0.18; eight fields with the three critical
    ones give 1.0, by the cap. *)
Theorem C6_confidence_score :
  (∀ raw : gmap string (list string),
     dom raw = list_to_set field_names ->
     let fields := count_present raw field_names in
     let critical := count_present raw critical_names in
     let score := _calculate_confidence_score raw in
     score = score_of fields critical
     ∧ score = confidence_spec raw
     ∧ 0 <= hundredths fields critical <= 100
     ∧ F64.leb F64.zero score = true
     ∧ F64.leb score (F64.of_Z 1) = true
     ∧ round2 score = score
     ∧ ((∀ field, field ∈ field_names -> has_candidate raw field = true) ->
        score = F64.of_Z 1))
  ∧ (∀ text_content, dom (_extract_sof_data text_content) = list_to_set field_names)
  ∧ _calculate_confidence_score (_extract_sof_data "") = F64.zero
  ∧ _calculate_confidence_score (_extract_sof_data sample_text) = F64.of_Z 1
  ∧ _calculate_confidence_score (_extract_sof_data "Voyage: 12A") = F64.of_decimal 11 2
  ∧ _calculate_confidence_score (_extract_sof_data ("Vessel: Ocean Star" +:+ LF))
    = F64.of_decimal 18 2
  ∧ (hundredths 8 3 = 100 ∧ score_of 8 3 = F64.of_Z 1
     ∧ F64.ltb (F64.of_Z 1)
         (F64.add (F64.int_quot 8 9) (F64.mul (F64.int_quot 3 3) (F64.of_decimal 2 1)))
       = true).
Proof.
  split; [|split; [apply extract_dom|by vm_compute]].
  intros raw Hdom. cbn zeta. rewrite (confidence_formula raw Hdom).
  pose proof (count_present_bounds raw field_names) as Hf.
  pose proof (count_present_bounds raw critical_names) as Hc.
  change (Z.of_nat (length field_names)) with 9 in Hf.
  change (Z.of_nat (length critical_names)) with 3 in Hc.
  destruct (score_of_table _ _ Hf Hc) as (Htable & Hh & H0 & H1 & H2).
  split; [done|]. split; [exact Htable|]. repeat (split; [done|]).
  intros Hall. rewrite (count_present_all raw field_names Hall).
  rewrite (count_present_all raw critical_names); [by vm_compute|].
  intros field Hfield. apply Hall. unfold critical_names, field_names in *.
  apply (bool_decide_unpack _).
  repeat (apply elem_of_cons in Hfield as [->|Hfield]; [by vm_compute|]).
  by apply elem_of_nil in Hfield.
Qed.

Lemma C6_witness :
  let raw := _extract_sof_data sample_text in
  count_present raw field_names = 9
  ∧ count_present raw critical_names = 3
  ∧ _calculate_confidence_score raw = F64.of_Z 1.
Proof.
  split; [by vm_compute|]. split; [by vm_compute|].
  refine (proj2 (proj2 (proj2 (proj2 (proj2 (proj2
            (proj1 C6_confidence_score (_extract_sof_data sample_text)
               (proj1 (proj2 C6_confidence_score) sample_text)))))))
          _).
  intros field Hfield. unfold field_names in Hfield.
  repeat (apply elem_of_cons in Hfield as [->|Hfield]; [by vm_compute|]).
  by apply elem_of_nil in Hfield.
Defined.

End Confidence.

(** ** Normalisation of the laytime allowance *)

Section LaytimeUnits.

Lemma append_assoc_str (a b c : string) : (a +:+ b) +:+ c = a +:+ (b +:+ c).
Proof.
  induction a as [|x a IH]; [done|].
  change (String x ((a +:+ b) +:+ c) = String x (a +:+ (b +:+ c))). by rewrite IH.
Qed.

Lemma length_append_str (a b : string) :
  String.length (a +:+ b) = (String.length a + String.length b)%nat.
Proof.
  induction a as [|x a IH]; [done|].
  change (S (String.length (a +:+ b)) = S (String.length a + String.length b)).
  by rewrite IH.
Qed.

Lemma consumed_append (a b : string) : Text.consumed (a +:+ b) b = a.
Proof.
  unfold Text.consumed. rewrite length_append_str.
  replace (String.length a + String.length b - String.length b)%nat
    with (String.length a) by lia.
  induction a as [|x a IH]; [by destruct b|].
  change (String x (Text.take (String.length a) (a +:+ b)) = String x a).
  by rewrite IH.
Qed.

Lemma all_chars_impl (p q : ascii -> bool) (s : string) :
  (∀ c, p c = true -> q c = true) -> all_chars p s = true -> all_chars q s = true.
Proof.
  intros Hpq. induction s as [|c s IH]; [done|]. cbn.
  rewrite !andb_true_iff. intros [Hc Hs]. auto.
Qed.

Lemma all_digits_chars (s : string) : all_digits s = all_chars Text.is_digit s.
Proof. induction s as [|c s IH]; [done|]. cbn. by rewrite IH. Qed.

(** A greedy repetition takes a whole run of characters of its class
    when the text after the run does not go on with one and the rest of
    the pattern matches there. *)
Lemma rep_greedy_run {R : Type} (ic : bool) (cl : Re.cls) (lo n : nat)
    (run rest : string) (k : string -> option R) (r : R) :
  all_chars (Re.cls_match ic cl) run = true ->
  starts_in (Re.cls_match ic cl) rest = false ->
  (lo <= n + String.length run)%nat ->
  k rest = Some r ->
  Re.rep_greedy ic cl lo None n (run +:+ rest) k = Some r.
Proof.
  revert n. induction run as [|c run IH]; intros n Hrun Hrest Hlo Hk.
  - change ("" +:+ rest) with rest. cbn in Hlo.
    destruct rest as [|c rest]; cbn [Re.rep_greedy].
    + rewrite (proj2 (Nat.leb_le lo n)) by lia. done.
    + cbn in Hrest. rewrite Hrest. cbn [andb].
      rewrite (proj2 (Nat.leb_le lo n)) by lia. done.
  - cbn in Hrun. apply andb_true_iff in Hrun as [Hc Hrun]. cbn in Hlo.
    change (String c run +:+ rest) with (String c (run +:+ rest)).
    cbn [Re.rep_greedy]. rewrite Hc. cbn [Re.below andb].
    rewrite (IH (S n)); [done|done|done|lia|done].
Qed.

(** The characters that are not ASCII letters of the other case. *)
Lemma lower_char_cases (c a : ascii) :
  Text.lower_char c = a -> Text.in_range "a" "z" a = true ->
  c = a ∨ c = ascii_of_N (Text.code a - 32).
Proof.
  intros <-.
  destruct c as [[] [] [] [] [] [] [] []]; vm_compute; intros H;
    first [discriminate H | by left | by right].
Qed.

Lemma space_char (c : ascii) :
  Text.isspace c = true ->
  Re.cls_match true [Re.Space] c = true
  ∧ Re.cls_match true d09 c = false
  ∧ Re.chr_match true "." c = false.
Proof.
  destruct c as [[] [] [] [] [] [] [] []]; vm_compute; intros H;
    first [discriminate H | done].
Qed.

Lemma digit_char (c : ascii) :
  Text.is_digit c = true -> Re.cls_match true d09 c = true.
Proof.
  intros H. unfold Text.is_digit in H.
  unfold Re.cls_match, d09. cbn [existsb Re.item_match]. by rewrite H.
Qed.


Lemma days_unit_facts (u : string) : days_unit u -> unit_facts u.
Proof.
  intros [H|H].
  - destruct u as [|c1 [|c2 [|c3 [|c4 u]]]]; try discriminate H.
    injection H as H1 H2 H3. split_case lower_char_cases H1; split_case lower_char_cases H2; split_case lower_char_cases H3;
      (split; [intros R caps k r Hk; vm_compute; vm_compute in Hk; by rewrite Hk
              |by vm_compute]).
  - destruct u as [|c1 [|c2 [|c3 [|c4 [|c5 u]]]]]; try discriminate H.
    injection H as H1 H2 H3 H4.
    split_case lower_char_cases H1; split_case lower_char_cases H2; split_case lower_char_cases H3; split_case lower_char_cases H4;
      (split; [intros R caps k r Hk; vm_compute; vm_compute in Hk; by rewrite Hk
              |by vm_compute]).
Qed.

Lemma hours_unit_facts (u : string) : hours_unit u -> unit_facts u.
Proof.
  intros [H|H].
  - destruct u as [|c1 [|c2 [|c3 [|c4 [|c5 u]]]]]; try discriminate H.
    injection H as H1 H2 H3 H4.
    split_case lower_char_cases H1; split_case lower_char_cases H2; split_case lower_char_cases H3; split_case lower_char_cases H4;
      (split; [intros R caps k r Hk; vm_compute; vm_compute in Hk; by rewrite Hk
              |by vm_compute]).
  - destruct u as [|c1 [|c2 [|c3 [|c4 [|c5 [|c6 u]]]]]]; try discriminate H.
    injection H as H1 H2 H3 H4 H5.
    split_case lower_char_cases H1; split_case lower_char_cases H2; split_case lower_char_cases H3; split_case lower_char_cases H4; split_case lower_char_cases H5;
      (split; [intros R caps k r Hk; vm_compute; vm_compute in Hk; by rewrite Hk
              |by vm_compute]).
Qed.

Lemma split_point_spec (s : string) :
  s = fst (split_point s)
      +:+ match snd (split_point s) with
          | None => ""
          | Some f => "." +:+ f
          end.
Proof.
  induction s as [|c s IH]; [done|]. cbn [split_point].
  destruct (Ascii.eqb_spec c ".") as [->|Hne]; [done|].
  destruct (split_point s) as [a b]. cbn [fst snd] in *.
  change (String c a +:+ ?x) with (String c (a +:+ x)). by rewrite <- IH.
Qed.

Lemma is_numeral_split (n : string) :
  is_numeral n = true ->
  ∃ ip fr, n = ip +:+ fr ∧ all_digits ip = true ∧ Text.nonempty ip = true
           ∧ fraction fr.
Proof.
  unfold is_numeral. pose proof (split_point_spec n) as Hn.
  destruct (split_point n) as [ip fp]. cbn [fst snd] in Hn.
  rewrite !andb_true_iff. intros [[Hip Hne] Hfp].
  exists ip. eexists. split; [exact Hn|]. split; [done|]. split; [done|].
  destruct fp as [f|]; [right|by left].
  apply andb_true_iff in Hfp as [? ?]. by exists f.
Qed.

Lemma numeral_value (n : string) :
  is_numeral n = true -> is_Some (float_of_str n).
Proof.
  unfold is_numeral, float_of_str. destruct (split_point n) as [ip fp].
  rewrite !andb_true_iff. intros [[Hip Hne] Hfp].
  assert (all_digits (default "" fp) = true) as Hfd.
  { destruct fp as [f|]; [|done]. by apply andb_true_iff in Hfp as [? ?]. }
  assert (Text.nonempty (ip +:+ default "" fp) = true) as Hnn.
  { by destruct ip. }
  rewrite Hip, Hfd, Hnn. cbn [andb]. eauto.
Qed.

Lemma blank_run (ws : string) :
  all_space ws = true -> all_chars (Re.cls_match true [Re.Space]) ws = true.
Proof.
  apply all_chars_impl. intros c Hc. by destruct (space_char c Hc) as (? & _).
Qed.

Lemma digit_run (ds : string) :
  all_digits ds = true -> all_chars (Re.cls_match true d09) ds = true.
Proof. rewrite all_digits_chars. apply all_chars_impl, digit_char. Qed.

Lemma nonempty_length (s : string) :
  Text.nonempty s = true -> (1 <= String.length s)%nat.
Proof. destruct s; [done|]. cbn. lia. Qed.

(** Blanks and a unit do not go on a number. *)
Lemma tail_facts (ws u : string) :
  all_space ws = true -> unit_facts u ->
  starts_in (Re.cls_match true d09) (ws +:+ u) = false
  ∧ Re.lit true "." (ws +:+ u) = None.
Proof.
  intros Hws (_ & _ & Hdigit & Hpoint).
  destruct ws as [|c ws]; [done|].
  cbn in Hws. apply andb_true_iff in Hws as [Hc _].
  destruct (space_char c Hc) as (_ & Hd & Hp).
  change (String c ws +:+ u) with (String c (ws +:+ u)).
  split; [exact Hd|]. cbn [Re.lit]. by rewrite Hp.
Qed.

Lemma match_numeral_unit (n ws u : string) :
  is_numeral n = true -> all_space ws = true -> unit_facts u ->
  Re.match_here true laytime_re (n +:+ ws +:+ u)
  = Some {| Re.rest := ""; Re.groups := [(2%nat, u); (1%nat, n)] |}.
Proof.
  intros Hn Hws Hu.
  destruct (tail_facts ws u Hws Hu) as [Htail_digit Htail_point].
  destruct Hu as (Hunit & Hu_space & _ & _).
  destruct (is_numeral_split n Hn) as (ip & fr & -> & Hip & Hne & Hfr).
  unfold Re.match_here, laytime_re, number.
  cbn [cat fold_right Re.rmatch plus star].
  set (whole := (ip +:+ fr) +:+ ws +:+ u).
  set (final := fun (s : string) (caps : Re.captures) =>
                  match Re.lit true "" s with
                  | Some s' => Some {| Re.rest := s'; Re.groups := caps |}
                  | None => None
                  end).
  set (after := fun s : string =>
                  Re.rep_greedy true [Re.Space] 0 None 0 s
                    (fun s' => Re.rmatch true time_unit s'
                                 [(1%nat, Text.consumed whole s)] final)).
  assert (after (ws +:+ u)
          = Some {| Re.rest := ""; Re.groups := [(2%nat, u); (1%nat, ip +:+ fr)] |})
    as Hafter.
  { unfold after. apply rep_greedy_run; [by apply blank_run|done|lia|].
    apply Hunit. unfold final, whole. cbn [Re.lit].
    by rewrite consumed_append. }
  unfold whole at 1. rewrite append_assoc_str.
  apply rep_greedy_run; [by apply digit_run| |by apply nonempty_length|].
  - destruct Hfr as [->|(f & -> & _ & _)]; [done|reflexivity].
  - destruct Hfr as [->|(f & -> & Hf & Hfne)].
    + change ("" +:+ ?x) with x. rewrite Htail_point. cbn [Re.lit]. exact Hafter.
    + change (("." +:+ f) +:+ ?x) with (String "." (f +:+ x)).
      cbn [Re.lit Re.chr_match Ascii.eqb Bool.eqb orb].
      rewrite (rep_greedy_run true d09 1 0 f (ws +:+ u) _
                 {| Re.rest := ""; Re.groups := [(2%nat, u); (1%nat, ip +:+ "." +:+ f)] |});
        [done|by apply digit_run|done|by apply nonempty_length|].
      cbn [Re.lit]. exact Hafter.
Qed.

Lemma search_here (ic : bool) (r : Re.regex) (s : string) (m : Re.mobj) :
  Re.match_here ic r s = Some m -> Re.search ic r s = Some m.
Proof. intros H. destruct s; cbn [Re.search]; by rewrite H. Qed.

Lemma parse_numeral_unit (n ws u : string) (value : F64.float) :
  is_numeral n = true -> all_space ws = true -> unit_facts u ->
  float_of_str n = Some value ->
  _parse_laytime (n +:+ ws +:+ u)
  = if Text.contains "day" (Text.lower u) then Some (F64.mul value (F64.of_Z 24))
    else Some value.
Proof.
  intros Hn Hws Hu Hvalue. unfold _parse_laytime.
  rewrite (search_here _ _ _ _ (match_numeral_unit n ws u Hn Hws Hu)).
  change (Re.group _ 1) with n. change (Re.group _ 2) with u.
  by rewrite Hvalue.
Qed.

(** C7. A number followed by a unit of days, blanks between them or not,
    normalises to the number times 24; followed by a unit of hours, to
    the number itself; a string without such a match normalises to
    nothing, and nothing is raised.  ["3 days"] gives 72.0 hours and
    ["48 hours"] gives 48.0. *)
Theorem C7_laytime_units :
  (∀ (n ws u : string) (value : F64.float),
     is_numeral n = true -> all_space ws = true -> float_of_str n = Some value ->
     (days_unit u ->
      _parse_laytime (n +:+ ws +:+ u) = Some (F64.mul value (F64.of_Z 24)))
     ∧ (hours_unit u -> _parse_laytime (n +:+ ws +:+ u) = Some value))
  ∧ (∀ n, is_numeral n = true -> is_Some (float_of_str n))
  ∧ (∀ s, Re.search true laytime_re s = None -> _parse_laytime s = None)
  ∧ _parse_laytime "3 days" = Some (F64.of_Z 72)
  ∧ _parse_laytime "48 hours" = Some (F64.of_Z 48).
Proof.
  split; [|split; [exact numeral_value|split; [|by vm_compute]]].
  - intros n ws u value Hn Hws Hvalue. split.
    + intros Hu. rewrite (parse_numeral_unit n ws u value Hn Hws
                            (days_unit_facts u Hu) Hvalue).
      by destruct Hu as [-> | ->].
    + intros Hu. rewrite (parse_numeral_unit n ws u value Hn Hws
                            (hours_unit_facts u Hu) Hvalue).
      by destruct Hu as [-> | ->].
  - intros s Hs. unfold _parse_laytime. by rewrite Hs.
Qed.

Lemma C7_witness :
  _parse_laytime ("2.5" +:+ "  " +:+ "Days")
  = Some (F64.mul (F64.of_decimal 25 1) (F64.of_Z 24)).
Proof.
  exact (proj1 (proj1 C7_laytime_units "2.5" "  " "Days" (F64.of_decimal 25 1)
                  eq_refl eq_refl eq_refl)
           (or_intror eq_refl)).
Defined.

End LaytimeUnits.

(** * The patterns as languages, and the document as a whole *)

(** ** The matcher against the language of a pattern *)

Section Language.

Import Re Lang.

Lemma all_chars_app (p : ascii -> bool) (a b : string) :
  all_chars p (a +:+ b) = all_chars p a && all_chars p b.
Proof.
  induction a as [|c a IH]; [done|].
  change (String c a +:+ b) with (String c (a +:+ b)). cbn [all_chars].
  by rewrite IH, andb_assoc.
Qed.

Lemma in_all_ascii (c : ascii) : List.In c all_ascii.
Proof.
  unfold all_ascii. rewrite <- (ascii_nat_embedding c).
  apply in_map, in_seq. pose proof (nat_ascii_bounded c). lia.
Qed.

Lemma chr_only_spec (ic : bool) (p : ascii -> bool) (a c : ascii) :
  chr_only ic p a = true -> chr_match ic a c = true -> p c = true.
Proof.
  unfold chr_only. rewrite forallb_forall. intros H Hc.
  specialize (H c (in_all_ascii c)). by rewrite Hc in H.
Qed.

Lemma cls_only_spec (ic : bool) (p : ascii -> bool) (cl : cls) (c : ascii) :
  cls_only ic p cl = true -> cls_match ic cl c = true -> p c = true.
Proof.
  unfold cls_only. rewrite forallb_forall. intros H Hc.
  specialize (H c (in_all_ascii c)). by rewrite Hc in H.
Qed.

Lemma lit_sound (ic : bool) (p s s' : string) :
  lit ic p s = Some s' -> ∃ w, s = w +:+ s' ∧ lit_word ic p w = true.
Proof.
  revert s. induction p as [|a p IH]; intros s H.
  - cbn in H. injection H as ->. by exists "".
  - destruct s as [|c s]; [done|]. cbn [lit] in H.
    destruct (chr_match ic a c) eqn:Hc; [|done].
    destruct (IH _ H) as (w & -> & Hw). exists (String c w). split; [done|].
    cbn [lit_word]. by rewrite Hc.
Qed.

Lemma below_within (n : nat) (hi : option nat) :
  below n hi = true -> within (S n) hi = true.
Proof.
  destruct hi as [h|]; [|done]. unfold below, within.
  rewrite Nat.ltb_lt, Nat.leb_le. lia.
Qed.

Lemma rep_greedy_sound {R : Type} (ic : bool) (cl : cls) (lo : nat) (hi : option nat)
    (n : nat) (s : string) (k : string -> option R) (x : R) :
  within n hi = true ->
  rep_greedy ic cl lo hi n s k = Some x ->
  ∃ w rest, s = w +:+ rest ∧ all_chars (cls_match ic cl) w = true
            ∧ (lo <= n + String.length w)%nat
            ∧ within (n + String.length w) hi = true ∧ k rest = Some x.
Proof.
  assert (Hstop : ∀ n s, within n hi = true ->
            (if (lo <=? n)%nat then k s else None) = Some x ->
            ∃ w rest, s = w +:+ rest ∧ all_chars (cls_match ic cl) w = true
              ∧ (lo <= n + String.length w)%nat
              ∧ within (n + String.length w) hi = true ∧ k rest = Some x).
  { intros m t Hm H. destruct (Nat.leb_spec lo m); [|done].
    exists "", t. cbn [String.length]. rewrite Nat.add_0_r. done. }
  revert n. induction s as [|c s IH]; intros n Hn H; cbn [rep_greedy] in H.
  - by apply Hstop.
  - destruct (cls_match ic cl c && below n hi) eqn:Hc; [|by apply Hstop].
    apply andb_true_iff in Hc as [Hc Hb].
    destruct (rep_greedy ic cl lo hi (S n) s k) as [y|] eqn:Hrec; [|by apply Hstop].
    injection H as ->.
    destruct (IH (S n)) as (w & rest & -> & Hw & Hlo & Hhi & Hk); [|done|].
    { by apply below_within. }
    exists (String c w), rest. cbn [all_chars String.length]. rewrite Hc, Hw.
    replace (n + S (String.length w))%nat with (S n + String.length w)%nat by lia.
    done.
Qed.

Lemma rep_lazy_sound {R : Type} (ic : bool) (cl : cls) (lo : nat) (hi : option nat)
    (n : nat) (s : string) (k : string -> option R) (x : R) :
  within n hi = true ->
  rep_lazy ic cl lo hi n s k = Some x ->
  ∃ w rest, s = w +:+ rest ∧ all_chars (cls_match ic cl) w = true
            ∧ (lo <= n + String.length w)%nat
            ∧ within (n + String.length w) hi = true ∧ k rest = Some x.
Proof.
  assert (Hstop : ∀ n s, within n hi = true -> (lo <= n)%nat -> k s = Some x ->
            ∃ w rest, s = w +:+ rest ∧ all_chars (cls_match ic cl) w = true
              ∧ (lo <= n + String.length w)%nat
              ∧ within (n + String.length w) hi = true ∧ k rest = Some x).
  { intros m t Hm Hlo H. exists "", t. cbn [String.length]. rewrite Nat.add_0_r. done. }
  revert n. induction s as [|c s IH]; intros n Hn H; cbn [rep_lazy] in H.
  - destruct (Nat.leb_spec lo n); [|done].
    destruct (k "") eqn:Hk; [|done]. injection H as ->. by apply Hstop.
  - assert (Hmore : (if cls_match ic cl c && below n hi
                     then rep_lazy ic cl lo hi (S n) s k else None) = Some x ->
              ∃ w rest, String c s = w +:+ rest ∧ all_chars (cls_match ic cl) w = true
                ∧ (lo <= n + String.length w)%nat
                ∧ within (n + String.length w) hi = true ∧ k rest = Some x).
    { intros Hm. destruct (cls_match ic cl c && below n hi) eqn:Hc; [|done].
      apply andb_true_iff in Hc as [Hc Hb].
      destruct (IH (S n)) as (w & rest & -> & Hw & Hlo & Hhi & Hk); [|done|].
      { by apply below_within. }
      exists (String c w), rest. cbn [all_chars String.length]. rewrite Hc, Hw.
      replace (n + S (String.length w))%nat with (S n + String.length w)%nat by lia.
      done. }
    destruct (Nat.leb_spec lo n); [|by apply Hmore].
    destruct (k (String c s)) eqn:Hk; [|by apply Hmore].
    injection H as ->. by apply Hstop.
Qed.

(** Whatever the matcher returns, it returns from its continuation, at
    the end of a word of the pattern. *)
Lemma rmatch_sound {R : Type} (ic : bool) (r : regex) (s : string) (caps : captures)
    (k : cont) (x : R) :
  rmatch ic r s caps k = Some x ->
  ∃ w rest caps', s = w +:+ rest ∧ matches ic r w rest caps caps'
                  ∧ k rest caps' = Some x.
Proof.
  revert s caps k.
  induction r as [p|cl|lo hi greedy cl|r1 IH1|r1 IH1 r2 IH2|r1 IH1 r2 IH2|i r1 IH1|];
    intros s caps k H; cbn [rmatch] in H.
  - destruct (lit ic p s) as [s'|] eqn:Hl; [|done].
    destruct (lit_sound _ _ _ _ Hl) as (w & -> & Hw).
    exists w, s', caps. split; [done|]. split; [by constructor|done].
  - destruct s as [|c s]; [done|]. destruct (cls_match ic cl c) eqn:Hc; [|done].
    exists (String c ""), s, caps. split; [done|]. split; [by constructor|done].
  - assert (∃ w rest, s = w +:+ rest ∧ all_chars (cls_match ic cl) w = true
                      ∧ (lo <= 0 + String.length w)%nat
                      ∧ within (0 + String.length w) hi = true ∧ k rest caps = Some x)
      as (w & rest & -> & Hw & Hlo & Hhi & Hk).
    { destruct greedy.
      - apply (rep_greedy_sound ic cl lo hi 0 s (fun s' => k s' caps) x); [|done].
        by destruct hi.
      - apply (rep_lazy_sound ic cl lo hi 0 s (fun s' => k s' caps) x); [|done].
        by destruct hi. }
    exists w, rest, caps. split; [done|]. split; [by constructor|done].
  - destruct (rmatch ic r1 s caps k) as [y|] eqn:H1.
    + injection H as ->. destruct (IH1 _ _ _ H1) as (w & rest & caps' & -> & Hm & Hk).
      exists w, rest, caps'. split; [done|]. split; [by constructor|done].
    + exists "", s, caps. split; [done|]. split; [by constructor|done].
  - destruct (rmatch ic r1 s caps k) as [y|] eqn:H1.
    + injection H as ->. destruct (IH1 _ _ _ H1) as (w & rest & caps' & -> & Hm & Hk).
      exists w, rest, caps'. split; [done|]. split; [by apply M_left|done].
    + destruct (IH2 _ _ _ H) as (w & rest & caps' & -> & Hm & Hk).
      exists w, rest, caps'. split; [done|]. split; [by apply M_right|done].
  - destruct (IH1 _ _ _ H) as (w1 & rest1 & caps1 & -> & Hm1 & H2).
    destruct (IH2 _ _ _ H2) as (w2 & rest & caps2 & -> & Hm2 & Hk).
    exists (w1 +:+ w2), rest, caps2. split; [by rewrite append_assoc_str|].
    split; [by econstructor|done].
  - destruct (IH1 _ _ _ H) as (w & rest & caps' & -> & Hm & Hk).
    rewrite consumed_append in Hk.
    exists w, rest, ((i, w) :: caps'). split; [done|]. split; [by constructor|done].
  - destruct s as [|c [|c' s]]; [| |done].
    + exists "", "", caps. split; [done|]. split; [constructor; by left|done].
    + destruct (Ascii.eqb_spec c "010") as [->|]; [|done].
      exists "", LF, caps. split; [done|]. split; [constructor; by right|done].
Qed.

Lemma match_here_sound (ic : bool) (r : regex) (s : string) (m : mobj) :
  match_here ic r s = Some m ->
  ∃ w, s = w +:+ rest m ∧ matches ic r w (rest m) [] (groups m).
Proof.
  intros H. apply rmatch_sound in H as (w & rest & caps' & -> & Hm & Hk).
  injection Hk as <-. by exists w.
Qed.

Lemma search_sound (ic : bool) (r : regex) (s : string) (m : mobj) :
  search ic r s = Some m ->
  ∃ before w, s = before +:+ w +:+ rest m ∧ matches ic r w (rest m) [] (groups m).
Proof.
  induction s as [|c s IH]; cbn [search]; intros H.
  - destruct (match_here ic r "") eqn:Hm; [|done]. injection H as ->.
    apply match_here_sound in Hm as (w & Hw & Hm). by exists "", w.
  - destruct (match_here ic r (String c s)) eqn:Hm.
    + injection H as ->. apply match_here_sound in Hm as (w & Hw & Hm). by exists "", w.
    + destruct (IH H) as (before & w & -> & Hw). by exists (String c before), w.
Qed.

Lemma findall_from_sound (ic : bool) (r : regex) (n skip : nat) (s : string) (f : found) :
  f ∈ findall_from ic r n skip s ->
  ∃ s' m, match_here ic r s' = Some m ∧ f = report n s' m.
Proof.
  revert skip. induction s as [|c s IH]; intros skip; cbn [findall_from].
  - destruct skip; [|by intros ?%elem_of_nil].
    destruct (match_here ic r "") as [m|] eqn:Hm; [|by intros ?%elem_of_nil].
    intros ->%list_elem_of_singleton. by exists "", m.
  - destruct skip as [|skip]; [|by apply IH].
    destruct (match_here ic r (String c s)) as [m|] eqn:Hm; [|by apply IH].
    intros [->|Hin]%elem_of_cons; [by exists (String c s), m|]. by apply IH in Hin.
Qed.

(** The three estimates are right. *)
Lemma lit_word_only (ic : bool) (p : ascii -> bool) (s w : string) :
  forallb (chr_only ic p) (list_ascii_of_string s) = true ->
  lit_word ic s w = true -> all_chars p w = true.
Proof.
  revert w.
  induction s as [|a s IH]; intros [|c w];
    cbn [list_ascii_of_string forallb lit_word all_chars]; try done.
  rewrite !andb_true_iff. intros [Ha Hs] [Hc Hw]. split; [|by apply IH].
  by apply (chr_only_spec ic p a).
Qed.

Lemma matches_only (ic : bool) (p : ascii -> bool) (r : regex) (w rest : string)
    (caps caps' : captures) :
  matches ic r w rest caps caps' -> only ic p r = true -> all_chars p w = true.
Proof.
  induction 1; cbn [only]; intros Ho; try done.
  - by eapply lit_word_only.
  - cbn [all_chars]. by rewrite (cls_only_spec ic p cl c).
  - eapply all_chars_impl; [|done]. intros c. by apply cls_only_spec.
  - auto.
  - apply andb_true_iff in Ho as [? ?]. auto.
  - apply andb_true_iff in Ho as [? ?]. auto.
  - apply andb_true_iff in Ho as [? ?]. rewrite all_chars_app. by rewrite IHmatches1, IHmatches2.
  - auto.
Qed.

Lemma matches_groups (ic : bool) (p : ascii -> bool) (i : nat) (r : regex)
    (w rest : string) (caps caps' : captures) :
  matches ic r w rest caps caps' -> group_only ic p i r = true ->
  (∀ g, (i, g) ∈ caps -> all_chars p g = true) ->
  ∀ g, (i, g) ∈ caps' -> all_chars p g = true.
Proof.
  induction 1; cbn [group_only]; intros Ho Hcaps; try done.
  - auto.
  - apply andb_true_iff in Ho as [? ?]. auto.
  - apply andb_true_iff in Ho as [? ?]. auto.
  - apply andb_true_iff in Ho as [? ?]. auto.
  - apply andb_true_iff in Ho as [Hi Hr]. intros g [Heq|Hin]%elem_of_cons; [|by auto].
    injection Heq as <- <-. rewrite Nat.eqb_refl in Hi. cbn in Hi.
    by eapply matches_only.
Qed.

Lemma group_only_spec (ic : bool) (p : ascii -> bool) (i : nat) (r : regex)
    (s : string) (m : mobj) :
  match_here ic r s = Some m -> group_only ic p i r = true ->
  all_chars p (group m i) = true.
Proof.
  intros Hm Ho. apply match_here_sound in Hm as (w & _ & Hm).
  pose proof (matches_groups ic p i r _ _ _ _ Hm Ho) as Hg.
  unfold group. destruct (find _ _) as [[j g]|] eqn:Hf; [|done].
  apply find_some in Hf as [Hin Hj]. cbn in Hj. apply Nat.eqb_eq in Hj as ->.
  cbn. apply Hg; [by intros ? ?%elem_of_nil|]. by apply list_elem_of_In.
Qed.

Lemma has_char_all (p : ascii -> bool) (c : ascii) (s : string) :
  all_chars p s = true -> has_char c s = true -> p c = true.
Proof.
  unfold has_char. induction s as [|a s IH]; [done|]. cbn [all_chars].
  rewrite andb_true_iff. intros [Ha Hs].
  destruct (Ascii.eqb_spec a c) as [->|]; [done|]. cbn. auto.
Qed.

Lemma lit_word_needs (ic : bool) (p : ascii -> bool) (s w : string) :
  existsb (chr_only ic p) (list_ascii_of_string s) = true ->
  lit_word ic s w = true -> all_chars (fun c => negb (p c)) w = false.
Proof.
  revert w.
  induction s as [|a s IH]; intros [|c w];
    cbn [list_ascii_of_string existsb lit_word all_chars]; try done.
  rewrite orb_true_iff, andb_true_iff. intros [Ha|Hs] [Hc Hw].
  - by rewrite (chr_only_spec ic p a c).
  - rewrite (IH w) by done. by rewrite andb_false_r.
Qed.

Lemma matches_needs (ic : bool) (p : ascii -> bool) (r : regex) (w rest : string)
    (caps caps' : captures) :
  matches ic r w rest caps caps' -> needs ic p r = true ->
  all_chars (fun c => negb (p c)) w = false.
Proof.
  induction 1; cbn [needs]; intros Hn; try done.
  - by eapply lit_word_needs.
  - cbn [all_chars]. by rewrite (cls_only_spec ic p cl c).
  - apply andb_true_iff in Hn as [Hlo Hcl]. apply Nat.ltb_lt in Hlo.
    destruct w as [|c w]; [cbn [String.length] in *; lia|]. cbn [all_chars] in *.
    apply andb_true_iff in H as [Hc _]. by rewrite (cls_only_spec ic p cl c).
  - apply andb_true_iff in Hn as [? ?]. auto.
  - apply andb_true_iff in Hn as [? ?]. auto.
  - rewrite all_chars_app. apply orb_true_iff in Hn as [Hn|Hn].
    + by rewrite IHmatches1.
    + rewrite IHmatches2 by done. by rewrite andb_false_r.
  - auto.
Qed.

End Language.

(** ** The allowance: extracted, never normalised *)

Section Allowance.

Import Re Lang.

Lemma laytime_entry : ("laytime_allowed", laytime_patterns) ∈ sof_patterns.
Proof. apply list_elem_of_lookup. by exists 5%nat. Qed.

Lemma laytime_groups (pattern : regex) :
  pattern ∈ laytime_patterns ->
  ngroups pattern = 2%nat
  ∧ group_only true numeric 1 pattern = true
  ∧ group_only true not_digit 2 pattern = true.
Proof.
  intros Hin. apply list_elem_of_In in Hin.
  repeat (destruct Hin as [<-|Hin]; [by vm_compute|]). destruct Hin.
Qed.

(** A candidate of the allowance is the text of one group: a number
    without its unit, or a unit without its number. *)
Lemma laytime_candidate (text_content x : string) :
  x ∈ raw_matches laytime_patterns text_content ->
  all_chars numeric x = true ∨ all_chars not_digit x = true.
Proof.
  unfold raw_matches. rewrite list_elem_of_In, in_flat_map.
  intros (pattern & Hp & Hx). apply in_flat_map in Hx as (f & Hf & Hx).
  apply list_elem_of_In in Hp, Hf. apply laytime_groups in Hp as (Hn & H1 & H2).
  apply findall_from_sound in Hf as (s & m & Hm & ->). rewrite Hn in Hx.
  cbn [report seq List.map candidates_of] in Hx.
  apply filter_In in Hx as [Hx _].
  destruct Hx as [<-|[<-|[]]].
  - left. by eapply group_only_spec.
  - right. by eapply group_only_spec.
Qed.

Lemma parse_laytime_needs (x : string) :
  all_chars numeric x = true ∨ all_chars not_digit x = true ->
  _parse_laytime x = None.
Proof.
  intros Hx. unfold _parse_laytime.
  destruct (search true laytime_re x) as [m|] eqn:Hs; [exfalso|done].
  apply search_sound in Hs as (before & w & -> & Hm).
  rewrite !all_chars_app, !andb_true_iff in Hx.
  destruct Hx as [(_ & Hw & _)|(_ & Hw & _)].
  - assert (needs true not_numeric laytime_re = true) as Hn by by vm_compute.
    pose proof (matches_needs _ _ _ _ _ _ _ Hm Hn) as Hno.
    rewrite (all_chars_impl numeric (fun c => negb (not_numeric c))) in Hno; [done| |done].
    intros c Hc. unfold not_numeric. by rewrite Hc.
  - assert (needs true Text.is_digit laytime_re = true) as Hn by by vm_compute.
    pose proof (matches_needs _ _ _ _ _ _ _ Hm Hn) as Hno.
    unfold not_digit in Hw. congruence.
Qed.

End Allowance.

(** ** The document as a whole *)

Section Document.

Import Re Lang Outcome.

Lemma strptime_valid (s fmt : string) (d : datetime) :
  strptime s fmt = Some d -> valid d = true.
Proof.
  unfold strptime. intros H.
  destruct (pattern false fmt) as [r|]; cbn [mbind option_bind] in H; [|done].
  destruct (match_here true r s) as [m|]; cbn [mbind option_bind] in H; [|done].
  destruct (Text.nonempty (rest m)); [done|].
  match type of H with
  | (if valid ?x then _ else _) = _ => destruct (valid x) eqn:Hv; [|done]
  end.
  by injection H as <-.
Qed.

Lemma try_formats_valid (s : string) (fmts : list string) (d : datetime) :
  try_formats s fmts = Some d -> valid d = true.
Proof.
  induction fmts as [|fmt fmts IH]; [done|]. cbn [try_formats].
  destruct (strptime s fmt) as [d'|] eqn:Hs; [|done].
  intros [= <-]. by eapply strptime_valid.
Qed.

Lemma parse_datetime_valid (s : string) (d : datetime) :
  _parse_datetime s = Some d -> valid d = true.
Proof.
  unfold _parse_datetime. destruct (try_formats s formats) as [d'|] eqn:Hf.
  - intros [= <-]. by eapply try_formats_valid.
  - apply try_formats_valid.
Qed.

Lemma parse_first_get {A : Type} (parse : string -> option A)
    (extracted_data : gmap string (list string)) (key : string) (a : A) :
  get (parse_first parse extracted_data key) = Some a ->
  ∃ l c, extracted_data !! key = Some l ∧ c ∈ l ∧ parse c = Some a.
Proof.
  unfold get, parse_first.
  destruct (extracted_data !! key) as [[|c l]|]; [done| |done].
  cbn. intros H. exists (c :: l), c. split; [done|]. split; [by left|done].
Qed.

Lemma parsed_times_valid (extracted_data : gmap string (list string)) :
  valid_times (_parse_dates_and_times extracted_data).
Proof.
  intros d [H|H]; cbn [nor_datetime departure_datetime _parse_dates_and_times] in H;
    apply parse_first_get in H as (l & c & _ & _ & H); by eapply parse_datetime_valid.
Qed.

Lemma extracted_allowance (text_content : string) (l : list string) (x : string) :
  _extract_sof_data text_content !! "laytime_allowed" = Some l -> x ∈ l ->
  all_chars numeric x = true ∨ all_chars not_digit x = true.
Proof.
  intros Hl Hx. unfold _extract_sof_data in Hl.
  rewrite (extract_from_entry _ _ _ _ sof_patterns_NoDup laytime_entry) in Hl.
  injection Hl as <-. rewrite unique_empty, keep_first_elem_of in Hx.
  exact (laytime_candidate _ _ Hx).
Qed.

Lemma no_allowance (text_content : string) :
  get (laytime_hours (_parse_dates_and_times (_extract_sof_data text_content))) = None.
Proof.
  cbn [laytime_hours _parse_dates_and_times].
  destruct (get (parse_first _ _ _)) as [a|] eqn:H; [exfalso|done].
  apply parse_first_get in H as (l & c & Hl & Hc & H).
  rewrite parse_laytime_needs in H; [done|]. by eapply extracted_allowance.
Qed.

Lemma timing_without_allowance (parsed_data : ParsedData) :
  get (laytime_hours parsed_data) = None ->
  timing parsed_data
  = match get (nor_datetime parsed_data), get (departure_datetime parsed_data) with
    | Some nor, Some dep => times_of nor dep
    | _, _ => ∅
    end.
Proof.
  intros H. unfold timing. rewrite H.
  destruct (get (nor_datetime parsed_data)); [|done].
  by destruct (get (departure_datetime parsed_data)).
Qed.

End Document.

Section DocumentTheorems.

Import Re Lang Outcome.

(** X1. No candidate the extractor lists for the laytime allowance, from
    any text, normalises to a number of hours: the patterns of the field
    have the number and the unit in two groups, each group becomes a
    candidate of its own, and the normaliser wants a number followed by a
    unit.  From "Laytime: 3 days" the candidates are "3" and "days". *)
Theorem allowance_candidates_never_normalise (text_content : string)
    (l : list string) (x : string) :
  _extract_sof_data text_content !! "laytime_allowed" = Some l -> x ∈ l ->
  _parse_laytime x = None.
Proof.
  intros Hl Hx. apply parse_laytime_needs. by eapply extracted_allowance.
Qed.

Lemma allowance_candidates_never_normalise_witness :
  _parse_laytime "3" = None.
Proof.
  exact (allowance_candidates_never_normalise "Laytime: 3 days" ["3"; "days"] "3"
           ltac:(by vm_compute) ltac:(by left)).
Defined.

Lemma calculate_without_allowance (parsed_data : ParsedData) (k : string) :
  get (laytime_hours parsed_data) = None -> k ∈ allowance_keys ->
  _calculate_laytime parsed_data !! k = None.
Proof.
  intros Hnone Hk. unfold _calculate_laytime. rewrite laytime_body_blocks.
  assert (timing parsed_data !! k = None) as Ht.
  { rewrite timing_without_allowance by done.
    destruct (get (nor_datetime parsed_data)); [|done].
    destruct (get (departure_datetime parsed_data)); [|done].
    unfold allowance_keys in Hk.
    repeat (apply elem_of_cons in Hk as [->|Hk]; [done|]). by apply elem_of_nil in Hk. }
  assert (k ≠ "cargo_rate_mt_per_hour" ∧ k ≠ "cargo_rate_mt_per_day" ∧ k ≠ "error")
    as (H1 & H2 & H3).
  { unfold allowance_keys in Hk.
    repeat (apply elem_of_cons in Hk as [->|Hk]; [done|]). by apply elem_of_nil in Hk. }
  unfold cargo_block.
  destruct (get (cargo_mt parsed_data)) as [cargo|]; [|done].
  destruct (F64.truthy cargo && _); [|done].
  destruct (float_truediv cargo _) as [v|e]; lazy beta iota delta [mbind res_bind];
    [|by apply lookup_singleton_ne].
  destruct (float_truediv cargo _) as [v'|e]; lazy beta iota delta [mbind res_bind try_except];
    [|by apply lookup_singleton_ne].
  by rewrite !lookup_insert_ne.
Qed.

(** X2. Whatever the document, the result of [parse_sof_document] has no
    laytime allowance, so no key of its laytime calculation that needs
    one (no status, no time saved or exceeded), and its financial analysis
    is the example rates and the note, without an amount of demurrage or
    despatch. *)
Theorem parse_sof_document_never_classifies
    (decode : string -> string) (fitz : option (string -> res (list string)))
    (now : datetime) (content file_name : string) :
  let result := parse_sof_document decode fitz now content file_name in
  get (laytime_hours (parsed_data result)) = None
  ∧ (∀ k, k ∈ allowance_keys -> laytime_calculations result !! k = None)
  ∧ financial_analysis result = rates_and_note.
Proof.
  cbn [parse_sof_document parsed_data laytime_calculations financial_analysis].
  pose proof (no_allowance (text_of decode fitz content file_name)) as Hnone.
  split; [done|]. split.
  - intros k Hk. by apply calculate_without_allowance.
  - apply financial_none. apply calculate_without_allowance; [done|].
    unfold allowance_keys. set_solver.
Qed.

Lemma parse_sof_document_never_classifies_witness :
  laytime_calculations (parse_sof_document id None nor0 sample_text "sof.txt")
    !! "laytime_status" = None.
Proof.
  exact (proj1 (proj2 (parse_sof_document_never_classifies id None nor0 sample_text
                         "sof.txt"))
           "laytime_status" ltac:(do 2 right; left)).
Defined.

(** X3. The laytime calculation of a document, in full.  Without both the
    NOR time and the departure time it is empty; with them it holds the
    two totals, and with a cargo quantity that is not zero the two rates
    as well -- but when the two times are the same instant, the division
    of the cargo by the zero total raises and the error entry is all that
    is left. *)
Theorem document_calculation (text_content : string) :
  let parsed_data := _parse_dates_and_times (_extract_sof_data text_content) in
  let calculations := _calculate_laytime parsed_data in
  match get (nor_datetime parsed_data), get (departure_datetime parsed_data) with
  | Some nor, Some dep =>
      match get (cargo_mt parsed_data) with
      | Some cargo =>
          if F64.truthy cargo then
            if decide (micros dep = micros nor) then calculations = division_error
            else calculations = times_and_rates nor dep cargo
          else calculations = times_of nor dep
      | None => calculations = times_of nor dep
      end
  | _, _ => calculations = ∅
  end.
Proof.
  intros parsed_data calculations.
  pose proof (no_allowance text_content) as Hnone. fold parsed_data in Hnone.
  pose proof (timing_without_allowance parsed_data Hnone) as Ht.
  pose proof (calculate_laytime_cases parsed_data (parsed_times_valid _)) as Hcases.
  fold calculations in Hcases. unfold divides_by_zero in Hcases.
  destruct (get (nor_datetime parsed_data)) as [nor|].
  2: { destruct Hcases as [[(? & ? & ? & ? & _) _]|[_ [(? & ? & ? & ? & _)|[_ ->]]]];
         [done|done|]. by rewrite Ht. }
  destruct (get (departure_datetime parsed_data)) as [dep|].
  2: { destruct Hcases as [[(? & ? & ? & _ & ? & _) _]|[_ [(? & ? & ? & _ & ? & _)|[_ ->]]]];
         [done|done|]. by rewrite Ht. }
  destruct (get (cargo_mt parsed_data)) as [cargo|].
  2: { destruct Hcases as [[(? & ? & ? & _ & _ & ? & _) _]
                          |[_ [(? & ? & ? & _ & _ & ? & _)|[_ ->]]]];
         [done|done|]. by rewrite Ht. }
  destruct (F64.truthy cargo) eqn:Hc.
  2: { destruct Hcases as [[(? & ? & ? & _ & _ & ? & ? & _) _]
                          |[_ [(? & ? & ? & _ & _ & ? & ? & _)|[_ ->]]]];
         [congruence|congruence|]. by rewrite Ht. }
  destruct (decide (micros dep = micros nor)) as [Heq|Hne].
  - destruct Hcases as [[_ ->]|[Hno _]]; [done|].
    destruct Hno. by exists nor, dep, cargo.
  - destruct Hcases as [[(? & ? & ? & ? & ? & _ & _ & ?) _]
                       |[_ [(? & ? & ? & ? & ? & ? & _ & ->)|[[H|[H|H]] _]]]].
    + congruence.
    + rewrite Ht. unfold times_and_rates. congruence.
    + specialize (H cargo eq_refl). congruence.
    + done.
    + done.
Qed.

End DocumentTheorems.

(** ** Normalisation of the timestamps *)

Section Timestamps.

Import Re Lang Outcome.

Lemma append_empty_str (s : string) : s +:+ "" = s.
Proof.
  induction s as [|c s IH]; [done|].
  change (String c s +:+ "") with (String c (s +:+ "")). by rewrite IH.
Qed.

Lemma contains_char (c : ascii) (s : string) :
  Text.contains (String c "") s = has_char c s.
Proof.
  unfold has_char. induction s as [|a s IH]; [done|].
  cbn [Text.contains Text.starts_with all_chars]. rewrite IH.
  rewrite andb_true_r, (Ascii.eqb_sym c a). by destruct (Ascii.eqb a c).
Qed.

(** What [strptime] accepts is a word of the pattern of the format. *)
Lemma strptime_language (s fmt : string) (d : datetime) :
  strptime s fmt = Some d ->
  ∃ r caps, pattern false fmt = Some r ∧ matches true r s "" [] caps.
Proof.
  unfold strptime. intros H.
  destruct (pattern false fmt) as [r|]; cbn [mbind option_bind] in H; [|done].
  destruct (match_here true r s) as [m|] eqn:Hm; cbn [mbind option_bind] in H; [|done].
  destruct (rest m) as [|c t] eqn:Hrest; [|done].
  apply match_here_sound in Hm as (w & -> & Hm). rewrite Hrest in *.
  rewrite append_empty_str. by exists r, (groups m).
Qed.

Lemma strptime_needs (p : ascii -> bool) (s fmt : string) (r : regex) :
  pattern false fmt = Some r -> needs true p r = true ->
  all_chars (fun c => negb (p c)) s = true -> strptime s fmt = None.
Proof.
  intros Hr Hn Hs. destruct (strptime s fmt) as [d|] eqn:H; [exfalso|done].
  apply strptime_language in H as (r' & caps & Hr' & Hm).
  rewrite Hr in Hr'. injection Hr' as <-.
  by rewrite (matches_needs _ _ _ _ _ _ _ Hm Hn) in Hs.
Qed.

Lemma strptime_only (p : ascii -> bool) (c : ascii) (s fmt : string) (r : regex) :
  pattern false fmt = Some r -> only true p r = true ->
  has_char c s = true -> p c = false -> strptime s fmt = None.
Proof.
  intros Hr Ho Hs Hc. destruct (strptime s fmt) as [d|] eqn:H; [exfalso|done].
  apply strptime_language in H as (r' & caps & Hr' & Hm).
  rewrite Hr in Hr'. injection Hr' as <-.
  pose proof (matches_only _ p _ _ _ _ _ Hm Ho) as Hall.
  rewrite (has_char_all p c s Hall Hs) in Hc. done.
Qed.

Lemma formats_need_comma (s : string) :
  has_char "," s = false -> try_formats s formats = None.
Proof.
  intros Hcomma. unfold has_char in Hcomma. apply negb_false_iff in Hcomma.
  unfold formats. cbn [try_formats].
  repeat (erewrite (strptime_needs (is_char ",")); [|by vm_compute|by vm_compute|];
          [|eapply all_chars_impl; [|exact Hcomma]; intros c; unfold is_char;
            by rewrite Ascii.eqb_sym]).
  done.
Qed.

Lemma date_formats_no_colon (s : string) :
  has_char ":" s = true -> try_formats s date_formats = None.
Proof.
  intros Hcolon. unfold date_formats. cbn [try_formats].
  repeat (erewrite (strptime_only (fun c => negb (is_char ":" c)) ":");
          [|by vm_compute|by vm_compute|done|by vm_compute]).
  done.
Qed.

(** X4. A timestamp with a colon and without a comma never normalises:
    the five formats with a time have a comma after the date, the five
    without a time have no colon.  The patterns of the extractor take
    blanks as well as commas between date and time, so that such a
    candidate is extracted and then normalised to [None]. *)
Theorem timestamp_without_comma :
  (∀ datetime_str : string,
     Text.contains ":" datetime_str = true ->
     Text.contains "," datetime_str = false ->
     _parse_datetime datetime_str = None)
  ∧ (let parsed_data :=
       _parse_dates_and_times (_extract_sof_data "Arrival: 01/03/2024 08:00") in
     extracted parsed_data !! "arrival_time" = Some ["01/03/2024 08:00"]
     ∧ arrival_datetime parsed_data = Some None).
Proof.
  split; [|by vm_compute].
  intros s Hcolon Hcomma. rewrite contains_char in Hcolon, Hcomma.
  unfold _parse_datetime.
  by rewrite (formats_need_comma s Hcomma), (date_formats_no_colon s Hcolon).
Qed.

Lemma timestamp_without_comma_witness :
  _parse_datetime "01/03/2024 08:00" = None.
Proof.
  exact (proj1 timestamp_without_comma "01/03/2024 08:00" eq_refl eq_refl).
Defined.

End Timestamps.

(** ** Timestamps that normalise *)

Section RoundTrip.

Import Re Lang Outcome Written.

Lemma consumed2 (a b : ascii) (rest : string) :
  Text.consumed (String a (String b rest)) rest = String a (String b "").
Proof. exact (consumed_append (String a (String b "")) rest). Qed.

Lemma consumed4 (a b c d : ascii) (rest : string) :
  Text.consumed (String a (String b (String c (String d rest)))) rest
  = String a (String b (String c (String d ""))).
Proof. exact (consumed_append (String a (String b (String c (String d "")))) rest). Qed.

Lemma two_digit_In (lo hi n : Z) :
  0 <= lo -> lo <= n <= hi ->
  List.In (String (digit_chr (n / 10)) (String (digit_chr n) "")) (two_digit lo hi).
Proof.
  intros Hlo Hn. unfold two_digit.
  change (String (digit_chr (n / 10)) (String (digit_chr n) "")) with (padded 2 n).
  apply in_map_iff. exists (Z.to_nat n).
  split; [by rewrite Z2Nat.id by lia|]. apply in_seq. lia.
Qed.

Lemma digit_chr_digit (n : Z) : Text.is_digit (digit_chr n) = true.
Proof.
  unfold digit_chr. pose proof (Z.mod_pos_bound n 10 eq_refl) as H.
  assert (List.In (n mod 10) (List.map Z.of_nat (seq 0 10))) as Hin.
  { apply in_map_iff. exists (Z.to_nat (n mod 10)). split; [lia|]. apply in_seq. lia. }
  generalize dependent (n mod 10). intros r _ Hin. cbn in Hin.
  repeat (destruct Hin as [<-|Hin]; [by vm_compute|]). destruct Hin.
Qed.

Lemma digit_val_chr (n : Z) : digit_val (digit_chr n) = n mod 10.
Proof.
  unfold digit_chr. pose proof (Z.mod_pos_bound n 10 eq_refl) as H.
  assert (List.In (n mod 10) (List.map Z.of_nat (seq 0 10))) as Hin.
  { apply in_map_iff. exists (Z.to_nat (n mod 10)). split; [lia|]. apply in_seq. lia. }
  generalize dependent (n mod 10). intros r _ Hin. cbn in Hin.
  repeat (destruct Hin as [<-|Hin]; [by vm_compute|]). destruct Hin.
Qed.

Lemma digit_not_space (c : ascii) : Text.is_digit c = true -> Text.isspace c = false.
Proof.
  intros H.
  assert (forallb (fun c => implb (Text.is_digit c) (negb (Text.isspace c))) all_ascii
          = true) as Hall by by vm_compute.
  rewrite forallb_forall in Hall. specialize (Hall c (in_all_ascii c)).
  rewrite H in Hall. by apply negb_true_iff in Hall.
Qed.

Lemma digit_not_char (a c : ascii) :
  Text.is_digit a = false -> Text.is_digit c = true -> Ascii.eqb a c = false.
Proof. intros Ha Hc. destruct (Ascii.eqb_spec a c) as [->|]; congruence. Qed.

Lemma cls_digit (c : ascii) : Text.is_digit c = true -> cls_match true [Digit] c = true.
Proof. intros H. unfold cls_match. cbn [existsb item_match]. by rewrite H. Qed.

(** The directives on what they are written for. *)
Lemma two_digit_directive (c : ascii) (lo hi : Z) :
  (∀ w, List.In w (two_digit lo hi) ->
     ∃ a b, w = String a (String b "")
       ∧ ∀ (R : Type) (rest : string) (caps : captures) (k : cont) (x : R),
           k rest caps = Some x ->
           rmatch true (body_of c) (String a (String b rest)) caps k = Some x) ->
  ∀ (n : Z), 0 <= lo -> lo <= n <= hi ->
  ∀ (R : Type) (rest : string) (caps : captures) (k : cont) (x : R),
    k rest ((key c, String (digit_chr (n / 10)) (String (digit_chr n) "")) :: caps) = Some x ->
    rmatch true (Group (key c) (body_of c))
      (String (digit_chr (n / 10)) (String (digit_chr n) rest)) caps k = Some x.
Proof.
  intros Hall n Hlo Hn R rest caps k x Hk.
  destruct (Hall _ (two_digit_In lo hi n Hlo Hn)) as (a & b & [= <- <-] & Hm).
  cbn [rmatch]. apply Hm. by rewrite consumed2.
Qed.

Lemma body_d (w : string) :
  List.In w (two_digit 1 31) ->
  ∃ a b, w = String a (String b "")
    ∧ ∀ (R : Type) (rest : string) (caps : captures) (k : cont) (x : R),
        k rest caps = Some x ->
        rmatch true (body_of "d") (String a (String b rest)) caps k = Some x.
Proof.
  intros Hin. vm_compute in Hin.
  repeat (destruct Hin as [<-|Hin];
          [do 2 eexists; split; [reflexivity|];
           intros R rest caps k x Hk; cbn; by rewrite Hk|]).
  destruct Hin.
Qed.

Lemma body_m (w : string) :
  List.In w (two_digit 1 12) ->
  ∃ a b, w = String a (String b "")
    ∧ ∀ (R : Type) (rest : string) (caps : captures) (k : cont) (x : R),
        k rest caps = Some x ->
        rmatch true (body_of "m") (String a (String b rest)) caps k = Some x.
Proof.
  intros Hin. vm_compute in Hin.
  repeat (destruct Hin as [<-|Hin];
          [do 2 eexists; split; [reflexivity|];
           intros R rest caps k x Hk; cbn; by rewrite Hk|]).
  destruct Hin.
Qed.

Lemma body_H (w : string) :
  List.In w (two_digit 0 23) ->
  ∃ a b, w = String a (String b "")
    ∧ ∀ (R : Type) (rest : string) (caps : captures) (k : cont) (x : R),
        k rest caps = Some x ->
        rmatch true (body_of "H") (String a (String b rest)) caps k = Some x.
Proof.
  intros Hin. vm_compute in Hin.
  repeat (destruct Hin as [<-|Hin];
          [do 2 eexists; split; [reflexivity|];
           intros R rest caps k x Hk; cbn; by rewrite Hk|]).
  destruct Hin.
Qed.

Lemma body_M (w : string) :
  List.In w (two_digit 0 59) ->
  ∃ a b, w = String a (String b "")
    ∧ ∀ (R : Type) (rest : string) (caps : captures) (k : cont) (x : R),
        k rest caps = Some x ->
        rmatch true (body_of "M") (String a (String b rest)) caps k = Some x.
Proof.
  intros Hin. vm_compute in Hin.
  repeat (destruct Hin as [<-|Hin];
          [do 2 eexists; split; [reflexivity|];
           intros R rest caps k x Hk; cbn; by rewrite Hk|]).
  destruct Hin.
Qed.

Lemma year_directive {R : Type} (a b c d : ascii) (rest : string) (caps : captures)
    (k : cont) (x : R) :
  Text.is_digit a = true -> Text.is_digit b = true ->
  Text.is_digit c = true -> Text.is_digit d = true ->
  k rest ((key "Y", String a (String b (String c (String d "")))) :: caps) = Some x ->
  rmatch true (Group (key "Y") (body_of "Y"))
    (String a (String b (String c (String d rest)))) caps k = Some x.
Proof.
  intros Ha Hb Hc Hd Hk.
  change (body_of "Y") with (Seq dig (Seq dig (Seq dig dig))).
  cbn [rmatch dig]. rewrite !cls_digit by done. by rewrite consumed4.
Qed.

Lemma seq_step {R : Type} (ic : bool) (r1 r2 : regex) (s : string) (caps : captures)
    (k : cont) :
  rmatch (R := R) ic (Seq r1 r2) s caps k
  = rmatch ic r1 s caps (fun s' caps' => rmatch ic r2 s' caps' k).
Proof. reflexivity. Qed.

Lemma lit1_step {R : Type} (c : ascii) (rest : string) (caps : captures) (k : cont) :
  rmatch (R := R) true (Lit (String c "")) (String c rest) caps k = k rest caps.
Proof. cbn [rmatch lit]. unfold chr_match. by rewrite Ascii.eqb_refl. Qed.

Lemma cls_space_digit (c : ascii) :
  Text.is_digit c = true -> cls_match true [Space] c = false.
Proof.
  intros H.
  assert (forallb (fun c => implb (Text.is_digit c) (negb (cls_match true [Space] c)))
            all_ascii = true) as Hall by by vm_compute.
  rewrite forallb_forall in Hall. specialize (Hall c (in_all_ascii c)).
  rewrite H in Hall. by apply negb_true_iff in Hall.
Qed.

Lemma blank_step {R : Type} (c : ascii) (rest : string) (caps : captures) (k : cont) :
  Text.is_digit c = true ->
  rmatch (R := R) true (Rep 1 None true [Space]) (String " " (String c rest)) caps k
  = k (String c rest) caps.
Proof.
  intros Hc. cbn [rmatch rep_greedy]. rewrite (cls_space_digit c Hc).
  change (cls_match true [Space] " ") with true. cbn.
  by destruct (k (String c rest) caps).
Qed.

Lemma strip_digits (s : string) : all_digits s = true -> Text.strip s = s.
Proof.
  intros H. unfold Text.strip.
  assert (Text.lstrip s = s) as ->.
  { destruct s as [|c s]; [done|]. cbn in *. apply andb_true_iff in H as [Hc _].
    by rewrite (digit_not_space c Hc). }
  induction s as [|c s IH]; [done|]. cbn [all_digits] in H.
  apply andb_true_iff in H as [Hc Hs]. cbn [Text.rstrip]. rewrite (IH Hs).
  destruct s; [|done]. by rewrite (digit_not_space c Hc).
Qed.

Lemma py_int2 (n : Z) : 0 <= n < 100 -> py_int (padded 2 n) = n.
Proof.
  intros Hn.
  change (padded 2 n) with (String (digit_chr (n / 10)) (String (digit_chr n) "")).
  unfold py_int. rewrite strip_digits.
  - cbn [int_digits]. rewrite !digit_val_chr. Z.div_mod_to_equations. lia.
  - cbn [all_digits]. by rewrite !digit_chr_digit.
Qed.

Lemma py_int4 (n : Z) : 0 <= n < 10000 -> py_int (padded 4 n) = n.
Proof.
  intros Hn.
  change (padded 4 n)
    with (String (digit_chr (n / 10 / 10 / 10)) (String (digit_chr (n / 10 / 10))
            (String (digit_chr (n / 10)) (String (digit_chr n) "")))).
  unfold py_int. rewrite strip_digits.
  - cbn [int_digits]. rewrite !digit_val_chr. Z.div_mod_to_equations. lia.
  - cbn [all_digits]. by rewrite !digit_chr_digit.
Qed.

Lemma day_first_chars (sep : ascii) (d : datetime) :
  day_first sep d
  = String (digit_chr (day d / 10)) (String (digit_chr (day d)) (String sep
     (String (digit_chr (month d / 10)) (String (digit_chr (month d)) (String sep
     (String (digit_chr (year d / 10 / 10 / 10)) (String (digit_chr (year d / 10 / 10))
     (String (digit_chr (year d / 10)) (String (digit_chr (year d)) (String ","
     (String " " (String (digit_chr (hour d / 10)) (String (digit_chr (hour d))
     (String ":" (String (digit_chr (minute d / 10))
     (String (digit_chr (minute d)) "")))))))))))))))).
Proof. reflexivity. Qed.

Lemma valid_ranges (d : datetime) :
  valid d = true ->
  1 <= year d <= 9999 ∧ 1 <= month d <= 12 ∧ 1 <= day d <= 31
  ∧ 0 <= hour d <= 23 ∧ 0 <= minute d <= 59.
Proof.
  unfold valid. rewrite !andb_true_iff, !Z.leb_le. intros H.
  assert (days_in_month (year d) (month d) <= 31).
  { unfold days_in_month. repeat case_match; lia. }
  lia.
Qed.

Lemma match_day_first (sep : ascii) (d : datetime) :
  valid d = true ->
  match_here true (day_first_re sep) (day_first sep d)
  = Some {| rest := "";
            groups := [(key "M", padded 2 (minute d)); (key "H", padded 2 (hour d));
                       (key "Y", padded 4 (year d)); (key "m", padded 2 (month d));
                       (key "d", padded 2 (day d))] |}.
Proof.
  intros Hvalid. apply valid_ranges in Hvalid as (Hy & Hmo & Hd & Hh & Hmi).
  rewrite day_first_chars. unfold match_here, day_first_re.
  rewrite seq_step. apply (two_digit_directive "d" 1 31 body_d); [lia|lia|].
  rewrite seq_step, lit1_step.
  rewrite seq_step. apply (two_digit_directive "m" 1 12 body_m); [lia|lia|].
  rewrite seq_step, lit1_step.
  rewrite seq_step. apply year_directive; [apply digit_chr_digit..|].
  rewrite seq_step, lit1_step.
  rewrite seq_step, blank_step by apply digit_chr_digit.
  rewrite seq_step. apply (two_digit_directive "H" 0 23 body_H); [lia|lia|].
  rewrite seq_step, lit1_step.
  rewrite seq_step. apply (two_digit_directive "M" 0 59 body_M); [lia|lia|].
  reflexivity.
Qed.

Lemma strptime_day_first (sep : ascii) (fmt : string) (d : datetime) :
  pattern false fmt = Some (day_first_re sep) ->
  valid d = true -> second d = 0 -> microsecond d = 0 ->
  strptime (day_first sep d) fmt = Some d.
Proof.
  intros Hfmt Hvalid Hs Hus. unfold strptime. rewrite Hfmt. cbn [mbind option_bind].
  rewrite (match_day_first sep d Hvalid). cbn [mbind option_bind rest Text.nonempty].
  pose proof (valid_ranges d Hvalid) as (Hy & Hmo & Hd & Hh & Hmi).
  change (has _ "y") with false. cbn match.
  unfold field.
  change (has _ "Y") with true. change (has _ "m") with true.
  change (has _ "d") with true. change (has _ "H") with true.
  change (has _ "M") with true. cbn match.
  change (group _ (key "Y")) with (padded 4 (year d)).
  change (group _ (key "m")) with (padded 2 (month d)).
  change (group _ (key "d")) with (padded 2 (day d)).
  change (group _ (key "H")) with (padded 2 (hour d)).
  change (group _ (key "M")) with (padded 2 (minute d)).
  rewrite (py_int4 (year d)), !py_int2 by lia.
  assert ({| year := year d; month := month d; day := day d; hour := hour d;
             minute := minute d; second := 0; microsecond := 0 |} = d) as ->.
  { destruct d. cbn in *. by subst. }
  by rewrite Hvalid.
Qed.

Lemma digit_not_slash (n : Z) : negb (is_char "/" (digit_chr n)) = true.
Proof.
  unfold is_char. by rewrite (digit_not_char "/" _ eq_refl (digit_chr_digit n)).
Qed.

(** X5. A valid date and time on the minute, written day first with
    slashes or with dashes, two digits for day, month, hour and minute and
    four for the year, a comma and a blank before the time, normalises to
    that date and time. *)
Theorem written_timestamp_normalises (sep : ascii) (d : datetime) :
  sep = "/"%char ∨ sep = "-"%char ->
  valid d = true -> second d = 0 -> microsecond d = 0 ->
  _parse_datetime (day_first sep d) = Some d.
Proof.
  intros [-> | ->] Hvalid Hs Hus; unfold _parse_datetime, formats; cbn [try_formats].
  - by rewrite (strptime_day_first "/" "%d/%m/%Y, %H:%M" d eq_refl Hvalid Hs Hus).
  - erewrite (strptime_needs (is_char "/")); [|by vm_compute|by vm_compute|].
    + by rewrite (strptime_day_first "-" "%d-%m-%Y, %H:%M" d eq_refl Hvalid Hs Hus).
    + rewrite day_first_chars. cbn [all_chars]. rewrite !digit_not_slash. done.
Qed.

Lemma written_timestamp_normalises_witness :
  day_first "-" dep30 = "02-03-2024, 14:00"
  ∧ _parse_datetime (day_first "-" dep30) = Some dep30.
Proof.
  split; [reflexivity|].
  exact (written_timestamp_normalises "-" dep30 (or_intror eq_refl)
           eq_refl eq_refl eq_refl).
Defined.

End RoundTrip.

(** ** Normalisation of the cargo quantity *)

Section Cargo.

Import Re Lang Outcome.

Lemma quantity_class (c : ascii) :
  cls_match false [Range "0" "9"; Chr ","] c = quantity_char c.
Proof.
  unfold cls_match, quantity_char, Text.is_digit.
  cbn [existsb item_match andb]. rewrite (Ascii.eqb_sym "," c).
  by rewrite !orb_false_r.
Qed.

Lemma digit_class (c : ascii) : cls_match false d09 c = Text.is_digit c.
Proof.
  unfold cls_match, d09, Text.is_digit. cbn [existsb item_match andb].
  by rewrite !orb_false_r.
Qed.

Lemma remove_char_app (c : ascii) (a b : string) :
  Text.remove_char c (a +:+ b) = Text.remove_char c a +:+ Text.remove_char c b.
Proof.
  induction a as [|x a IH]; [done|].
  change (String x a +:+ b) with (String x (a +:+ b)). cbn [Text.remove_char].
  rewrite IH. by destruct (Ascii.eqb x c).
Qed.

Lemma remove_char_digits (c : ascii) (s : string) :
  Text.is_digit c = false -> all_digits s = true -> Text.remove_char c s = s.
Proof.
  intros Hc. induction s as [|x s IH]; [done|]. cbn [all_digits Text.remove_char].
  rewrite andb_true_iff. intros [Hx Hs].
  destruct (Ascii.eqb_spec x c) as [->|]; [congruence|]. by rewrite IH.
Qed.

Lemma remove_comma_fraction (fr : string) :
  fraction fr -> Text.remove_char "," fr = fr.
Proof.
  intros [->|(f & -> & Hf & _)]; [done|].
  change ("." +:+ f) with (String "." f). cbn [Text.remove_char].
  change (Ascii.eqb "." ",") with false. cbn match.
  by rewrite remove_char_digits.
Qed.

Lemma match_quantity (q fr : string) :
  all_chars quantity_char q = true -> Text.nonempty q = true -> fraction fr ->
  match_here false quantity (q +:+ fr)
  = Some {| rest := ""; groups := [(1%nat, q +:+ fr)] |}.
Proof.
  intros Hq Hne Hfr. unfold match_here, quantity.
  cbn [cat fold_right rmatch plus].
  apply rep_greedy_run.
  - eapply all_chars_impl; [|exact Hq]. intros c Hc. by rewrite quantity_class.
  - destruct Hfr as [->|(f & -> & _ & _)]; [done|reflexivity].
  - by apply nonempty_length.
  - destruct Hfr as [->|(f & -> & Hf & Hfne)].
    + cbn [lit]. by rewrite <- (append_empty_str (q +:+ "")) at 1; rewrite consumed_append.
    + change ("." +:+ f) with (String "." f).
      cbn [lit chr_match Ascii.eqb Bool.eqb orb andb].
      rewrite <- (append_empty_str f) at 1.
      rewrite (rep_greedy_run false d09 1 0 f "" _
                 {| rest := ""; groups := [(1%nat, q +:+ String "." f)] |}); [done| |done| |].
      * rewrite all_digits_chars in Hf. eapply all_chars_impl; [|exact Hf].
        intros c Hc. by rewrite digit_class.
      * by apply nonempty_length.
      * cbn [lit]. rewrite <- (append_empty_str (q +:+ String "." f)) at 1.
        by rewrite consumed_append.
Qed.

(** X6. Commas in a quantity are dropped wherever they stand: a run of
    digits and commas, with or without a fraction, normalises to what
    [float] reads in it once the commas are removed.  So "1,000" is
    1000.0, "1,5" is 15.0, and a run of commas alone normalises to
    [None]. *)
Theorem cargo_quantity_commas :
  (∀ q fr : string,
     all_chars quantity_char q = true -> Text.nonempty q = true -> fraction fr ->
     _parse_cargo_quantity (q +:+ fr) = float_of_str (Text.remove_char "," q +:+ fr))
  ∧ _parse_cargo_quantity "1,000" = Some (F64.of_Z 1000)
  ∧ _parse_cargo_quantity "1,5" = Some (F64.of_Z 15)
  ∧ _parse_cargo_quantity ",," = None.
Proof.
  split; [|by vm_compute].
  intros q fr Hq Hne Hfr. unfold _parse_cargo_quantity.
  rewrite (search_here _ _ _ _ (match_quantity q fr Hq Hne Hfr)).
  change (group _ 1) with (q +:+ fr).
  by rewrite remove_char_app, (remove_comma_fraction fr Hfr).
Qed.

Lemma cargo_quantity_commas_witness :
  _parse_cargo_quantity ("12,345" +:+ ".5") = float_of_str ("12345" +:+ ".5").
Proof.
  exact (proj1 cargo_quantity_commas "12,345" ".5" eq_refl eq_refl
           (or_intror (ex_intro _ "5" (conj eq_refl (conj eq_refl eq_refl))))).
Defined.

End Cargo.

(** ** Candidates are never blank *)

Section Candidates.

Import Re Lang Outcome.

Lemma lstrip_head (s : string) :
  Text.lstrip s = "" ∨ ∃ c t, Text.lstrip s = String c t ∧ Text.isspace c = false.
Proof.
  induction s as [|c s IH]; [by left|]. cbn [Text.lstrip].
  destruct (Text.isspace c) eqn:Hc; [done|]. right. by exists c, s.
Qed.

Lemma rstrip_head (c : ascii) (t : string) :
  Text.isspace c = false -> ∃ t', Text.rstrip (String c t) = String c t'.
Proof.
  intros Hc. cbn [Text.rstrip]. destruct (Text.rstrip t) as [|x r]; [|by eexists].
  rewrite Hc. by eexists.
Qed.

Lemma rstrip_idem (s : string) : Text.rstrip (Text.rstrip s) = Text.rstrip s.
Proof.
  induction s as [|c s IH]; [done|]. cbn [Text.rstrip].
  destruct (Text.rstrip s) as [|x r] eqn:Hr.
  - destruct (Text.isspace c) eqn:Hc; [done|]. cbn [Text.rstrip]. by rewrite Hc.
  - change (Text.rstrip (String c (String x r)))
      with (match Text.rstrip (String x r) with
            | "" => if Text.isspace c then "" else String c ""
            | String y r' => String c (String y r')
            end).
    by rewrite IH.
Qed.

Lemma strip_idem (s : string) : Text.strip (Text.strip s) = Text.strip s.
Proof.
  unfold Text.strip. destruct (lstrip_head s) as [->|(c & t & -> & Hc)]; [done|].
  destruct (rstrip_head c t Hc) as [t' Ht]. rewrite Ht.
  cbn [Text.lstrip]. rewrite Hc, <- Ht. apply rstrip_idem.
Qed.

Lemma candidate_not_blank (f : found) (x : string) :
  x ∈ candidates_of f -> Text.nonempty (Text.strip x) = true.
Proof.
  destruct f as [s|gs]; cbn [candidates_of].
  - destruct (Text.nonempty (Text.strip s)) eqn:Hs; [|by intros ?%elem_of_nil].
    intros ->%list_elem_of_singleton. by rewrite strip_idem.
  - rewrite list_elem_of_In. by intros [_ ?]%filter_In.
Qed.

Lemma raw_match (patterns : list regex) (text_content x : string) :
  x ∈ raw_matches patterns text_content ->
  ∃ pattern s m, pattern ∈ patterns ∧ match_here true pattern s = Some m
                 ∧ x ∈ candidates_of (report (ngroups pattern) s m).
Proof.
  unfold raw_matches. rewrite list_elem_of_In, in_flat_map.
  intros (pattern & Hp & Hx). apply in_flat_map in Hx as (f & Hf & Hx).
  apply list_elem_of_In in Hp, Hf, Hx.
  apply findall_from_sound in Hf as (s & m & Hm & ->). by exists pattern, s, m.
Qed.

Lemma one_group (field : string) (patterns : list regex) (pattern : regex) :
  (field, patterns) ∈ sof_patterns -> pattern ∈ patterns ->
  field ≠ "laytime_allowed" -> field ≠ "cargo_quantity" ->
  ngroups pattern = 1%nat.
Proof.
  intros Hin Hp H1 H2. apply list_elem_of_In in Hin. unfold sof_patterns in Hin.
  repeat (destruct Hin as [[= <- <-]|Hin];
          [first [done
                 | apply list_elem_of_In in Hp;
                   repeat (destruct Hp as [<-|Hp]; [reflexivity|]); destruct Hp]|]).
  destruct Hin.
Qed.

(** X7. The extractor lists no empty and no blank candidate, whatever
    the text; and the candidates of every field but the allowance and the
    cargo quantity, whose patterns have two groups, have no blank at
    either end. *)
Theorem candidates_not_blank (text_content field : string) (l : list string)
    (x : string) :
  _extract_sof_data text_content !! field = Some l -> x ∈ l ->
  Text.nonempty (Text.strip x) = true
  ∧ (field ≠ "laytime_allowed" -> field ≠ "cargo_quantity" -> Text.strip x = x).
Proof.
  intros Hl Hx. apply extract_from_lookup in Hl as (patterns & Hin & ->).
  rewrite unique_empty, keep_first_elem_of in Hx.
  apply raw_match in Hx as (pattern & s & m & Hp & Hm & Hx).
  split; [by eapply candidate_not_blank|].
  intros H1 H2. rewrite (one_group field patterns pattern Hin Hp H1 H2) in Hx.
  cbn [report candidates_of] in Hx.
  destruct (Text.nonempty _); [|by apply elem_of_nil in Hx].
  apply list_elem_of_singleton in Hx as ->. apply strip_idem.
Qed.

Lemma candidates_not_blank_witness :
  Text.nonempty (Text.strip "Ocean Star") = true
  ∧ ("vessel_name" ≠ "laytime_allowed" -> "vessel_name" ≠ "cargo_quantity" ->
     Text.strip "Ocean Star" = "Ocean Star").
Proof.
  exact (candidates_not_blank ("Vessel:   Ocean Star  " +:+ LF) "vessel_name"
           ["Ocean Star"] "Ocean Star" ltac:(by vm_compute) ltac:(by left)).
Defined.

End Candidates.

(** ** The sign of the elapsed time, and the shapes of the analysis *)

Section Shapes.

Import Outcome.



(** X9. The financial analysis of a calculation never fails and has one
    of three shapes: the rates and the note alone; these with the four
    entries of a despatch; or these with the four entries of a demurrage.
    Despatch and demurrage never come together. *)
Theorem financial_analysis_shapes (parsed_data : ParsedData) :
  valid_times parsed_data ->
  let analysis :=
    _analyze_financial_implications parsed_data (_calculate_laytime parsed_data) in
  analysis !! "error" = None
  ∧ (dom analysis = list_to_set rates_keys
     ∨ dom analysis = list_to_set (rates_keys ++ despatch_keys)
     ∨ dom analysis = list_to_set (rates_keys ++ demurrage_keys))
  ∧ (analysis !! "despatch_amount_usd" = None
     ∨ analysis !! "demurrage_amount_usd" = None).
Proof.
  intros Hvalid analysis. subst analysis.
  destruct (calculate_laytime_status parsed_data Hvalid)
    as [Hnone|[(hours & Hs & _ & Hd)|(hours & Hs & _ & Hd)]].
  - rewrite (financial_none _ _ Hnone). split; [done|]. split; [|by left].
    left. by rewrite !dom_insert_L, dom_empty_L.
  - rewrite (financial_within _ _ _ Hs Hd). split; [done|]. split; [|by right].
    right. left. by rewrite !dom_insert_L, dom_empty_L.
  - rewrite (financial_exceeded _ _ _ Hs Hd). split; [done|]. split; [|by left].
    right. right. by rewrite !dom_insert_L, dom_empty_L.
Qed.

Lemma financial_analysis_shapes_witness :
  let parsed_data := parsed (Some nor0) (Some dep30) (Some (F64.of_Z 24)) None in
  let analysis :=
    _analyze_financial_implications parsed_data (_calculate_laytime parsed_data) in
  analysis !! "error" = None
  ∧ (dom analysis = list_to_set rates_keys
     ∨ dom analysis = list_to_set (rates_keys ++ despatch_keys)
     ∨ dom analysis = list_to_set (rates_keys ++ demurrage_keys))
  ∧ (analysis !! "despatch_amount_usd" = None
     ∨ analysis !! "demurrage_amount_usd" = None).
Proof.
  exact (financial_analysis_shapes (parsed (Some nor0) (Some dep30) (Some (F64.of_Z 24)) None)
           (parsed_valid_times nor0 dep30 _ None eq_refl eq_refl)).
Defined.

End Shapes.

(** ** The candidates of the timestamps *)

Section TimeCandidates.

Import Re Lang Outcome.

Lemma matches_group_needs (ic : bool) (p : ascii -> bool) (i : nat) (r : regex)
    (w rest : string) (caps caps' : captures) :
  matches ic r w rest caps caps' -> group_needs ic p i r = true ->
  (∀ g, (i, g) ∈ caps -> all_chars (fun c => negb (p c)) g = false) ->
  ∀ g, (i, g) ∈ caps' -> all_chars (fun c => negb (p c)) g = false.
Proof.
  induction 1; cbn [group_needs]; intros Ho Hcaps; try done.
  - auto.
  - apply andb_true_iff in Ho as [? ?]. auto.
  - apply andb_true_iff in Ho as [? ?]. auto.
  - apply andb_true_iff in Ho as [? ?]. auto.
  - apply andb_true_iff in Ho as [Hi Hr]. intros g [Heq|Hin]%elem_of_cons; [|by auto].
    injection Heq as <- <-. rewrite Nat.eqb_refl in Hi. cbn in Hi.
    by eapply matches_needs.
Qed.

(** A group that has recorded something has recorded a word of its
    kind. *)
Lemma group_needs_spec (ic : bool) (p : ascii -> bool) (i : nat) (r : regex)
    (s : string) (m : mobj) :
  match_here ic r s = Some m -> group_needs ic p i r = true ->
  group m i = "" ∨ all_chars (fun c => negb (p c)) (group m i) = false.
Proof.
  intros Hm Ho. apply match_here_sound in Hm as (w & _ & Hm).
  pose proof (matches_group_needs ic p i r _ _ _ _ Hm Ho) as Hg.
  unfold group. destruct (find _ _) as [[j g]|] eqn:Hf; [|by left].
  apply find_some in Hf as [Hin Hj]. cbn in Hj. apply Nat.eqb_eq in Hj as ->.
  right. cbn. apply Hg; [by intros ? ?%elem_of_nil|]. by apply list_elem_of_In.
Qed.

Lemma all_chars_lstrip (q : ascii -> bool) (s : string) :
  (∀ c, Text.isspace c = true -> q c = true) ->
  all_chars q (Text.lstrip s) = all_chars q s.
Proof.
  intros Hq. induction s as [|c s IH]; [done|]. cbn [Text.lstrip].
  destruct (Text.isspace c) eqn:Hc; [|done]. cbn [all_chars]. by rewrite IH, Hq.
Qed.

Lemma all_chars_rstrip (q : ascii -> bool) (s : string) :
  (∀ c, Text.isspace c = true -> q c = true) ->
  all_chars q (Text.rstrip s) = all_chars q s.
Proof.
  intros Hq. induction s as [|c s IH]; [done|]. cbn [Text.rstrip all_chars].
  rewrite <- IH. destruct (Text.rstrip s) as [|x r]; [|done].
  destruct (Text.isspace c) eqn:Hc; [by rewrite Hq|done].
Qed.

Lemma all_chars_strip (q : ascii -> bool) (s : string) :
  (∀ c, Text.isspace c = true -> q c = true) ->
  all_chars q (Text.strip s) = all_chars q s.
Proof.
  intros Hq. unfold Text.strip. by rewrite all_chars_rstrip, all_chars_lstrip.
Qed.

Lemma needs_has_char (c : ascii) (g : string) :
  all_chars (fun a => negb (is_char c a)) g = false -> has_char c g = true.
Proof.
  intros H. unfold has_char. apply negb_true_iff. rewrite <- H. clear H.
  induction g as [|a g IH]; [done|]. cbn [all_chars]. unfold is_char at 1.
  by rewrite IH, (Ascii.eqb_sym a c).
Qed.

Lemma time_patterns (field : string) (patterns : list regex) (pattern : regex) :
  field ∈ time_fields -> (field, patterns) ∈ sof_patterns -> pattern ∈ patterns ->
  ngroups pattern = 1%nat
  ∧ group_only true stamp_char 1 pattern = true
  ∧ group_needs true (is_char ":") 1 pattern = true.
Proof.
  intros Hf Hin Hp. apply list_elem_of_In in Hin. unfold sof_patterns in Hin.
  unfold time_fields in Hf.
  repeat (destruct Hin as [[= <- <-]|Hin];
          [first [ apply list_elem_of_In in Hp;
                   repeat (destruct Hp as [<-|Hp]; [by vm_compute|]); by destruct Hp
                 | exfalso; repeat (apply elem_of_cons in Hf as [Hf|Hf]; [done|]);
                   by apply elem_of_nil in Hf ]|]).
  destruct Hin.
Qed.

Lemma time_candidate (text_content field : string) (l : list string) (x : string) :
  field ∈ time_fields ->
  _extract_sof_data text_content !! field = Some l -> x ∈ l ->
  all_chars stamp_char x = true ∧ has_char ":" x = true.
Proof.
  intros Hf Hl Hx. apply extract_from_lookup in Hl as (patterns & Hin & ->).
  rewrite unique_empty, keep_first_elem_of in Hx.
  apply raw_match in Hx as (pattern & s & m & Hp & Hm & Hx).
  destruct (time_patterns field patterns pattern Hf Hin Hp) as (Hn & Ho & Hc).
  rewrite Hn in Hx. cbn [report candidates_of] in Hx.
  destruct (Text.nonempty (Text.strip (group m 1))) eqn:Hne;
    [|by apply elem_of_nil in Hx].
  apply list_elem_of_singleton in Hx as ->.
  pose proof (group_only_spec true stamp_char 1 pattern s m Hm Ho) as Hall.
  destruct (group_needs_spec true (is_char ":") 1 pattern s m Hm Hc) as [He|Hcolon].
  { by rewrite He in Hne. }
  split.
  - rewrite all_chars_strip; [done|]. intros c Hs. unfold stamp_char.
    rewrite Hs. by rewrite !orb_true_r.
  - unfold has_char. rewrite all_chars_strip.
    + by apply needs_has_char.
    + intros c Hs. by destruct (Ascii.eqb_spec c ":") as [->|].
Qed.

(** X10. Whatever the text, a candidate of the arrival, departure or NOR
    time is made of digits, slashes, dashes, commas, colons and blanks, and
    has a colon: none of the five formats without a time, the second list
    [_parse_datetime] tries, ever applies to it. *)
Theorem time_candidates_have_a_time (text_content field : string) (l : list string)
    (x : string) :
  field ∈ time_fields ->
  _extract_sof_data text_content !! field = Some l -> x ∈ l ->
  all_chars stamp_char x = true
  ∧ Text.contains ":" x = true
  ∧ try_formats x date_formats = None.
Proof.
  intros Hf Hl Hx. destruct (time_candidate _ _ _ _ Hf Hl Hx) as [Hall Hcolon].
  split; [done|]. rewrite contains_char. split; [done|].
  by apply date_formats_no_colon.
Qed.

Lemma time_candidates_have_a_time_witness :
  all_chars stamp_char "01-03-2024 , 8:00" = true
  ∧ Text.contains ":" "01-03-2024 , 8:00" = true
  ∧ try_formats "01-03-2024 , 8:00" date_formats = None.
Proof.
  exact (time_candidates_have_a_time "ETD 01-03-2024 , 8:00 lt" "departure_time"
           ["01-03-2024 , 8:00"] "01-03-2024 , 8:00"
           ltac:(by right; left) ltac:(by vm_compute) ltac:(by left)).
Defined.

End TimeCandidates.

(** ** The scenario calculator *)

Section ScenarioTheorems.

Import Outcome Number.

Lemma half_rate :
  mul (Int 25000) (Float (F64.of_decimal 5 1)) = Ok (Float (F64.of_decimal 125000 1)).
Proof. by vm_compute. Qed.

Lemma scenario_dict (a b c : number) (total days : F64.float) :
  <["working_hours_per_day" := to_value c]>
    (<["despatch_rate_usd_per_day" := to_value (Float (F64.of_decimal 125000 1))]>
      (<["demurrage_rate_usd_per_day" := to_value (Int 25000)]>
        (<["total_time_days" := to_value (Float days)]>
          (<["total_time_hours" := to_value (Float total)]>
            (<["notice_period_hours" := to_value b]>
              (<["laytime_hours" := to_value a]> ∅))))))
  = scenario_entries (to_value a) (to_value b) (to_value c) total days.
Proof.
  unfold scenario_entries. cbn [list_to_map foldr to_value].
  generalize (to_value a) (to_value b) (to_value c) (F64.of_decimal 125000 1).
  intros va vb vc half. apply map_eq. intros k.
  repeat (rewrite lookup_insert_case; case_decide; [try done|]); try done.
Qed.

(** X11. On [float] arguments [calculate_laytime_scenario] fails exactly
    when the working hours per day are zero, with the error entry of
    [_calculate_laytime]; otherwise it returns the seven entries, the
    total being the sum of the laytime and the notice period and the days
    that total divided by the working hours.  Its despatch rate, half the
    demurrage rate, is the number 12500 of the example rates of the
    financial analysis.  With the default notice period and working hours
    it never fails. *)
Theorem scenario_cases :
  (∀ laytime_hours notice_period working_hours_per_day : F64.float,
     let result :=
       calculate_laytime_scenario (Float laytime_hours) (Float notice_period)
         (Float working_hours_per_day) in
     let total := F64.add laytime_hours notice_period in
     if F64.is_zero working_hours_per_day then result = division_error
     else
       result = scenario_entries (VFloat laytime_hours) (VFloat notice_period)
                  (VFloat working_hours_per_day) total
                  (F64.quot total working_hours_per_day))
  ∧ (∀ laytime_hours : F64.float,
       let total := F64.add laytime_hours (F64.of_Z 6) in
       calculate_laytime_scenario (Float laytime_hours) default_notice_period
         default_working_hours_per_day
       = scenario_entries (VFloat laytime_hours) (VInt 6) (VInt 24) total
           (F64.quot total (F64.of_Z 24)))
  ∧ int_to_float (rate "despatch_rate_usd_per_day") = Ok (F64.of_decimal 125000 1)
  ∧ rate "demurrage_rate_usd_per_day" = 25000.
Proof.
  split; [|split; [|by vm_compute]].
  - intros l n w result total. subst result total.
    unfold calculate_laytime_scenario, scenario_body.
    rewrite half_rate.
    unfold add, truediv, F64.div. lazy beta iota delta [mbind res_bind].
    destruct (F64.is_zero w); [done|].
    lazy beta iota delta [mbind res_bind try_except].
    generalize (F64.quot (F64.add l n) w). generalize (F64.add l n).
    intros total days. apply scenario_dict.
  - intros l. unfold calculate_laytime_scenario, scenario_body.
    rewrite half_rate.
    unfold default_notice_period, default_working_hours_per_day, add, truediv.
    change (int_to_float 6) with (Ok (F64.of_Z 6)).
    change (int_to_float 24) with (Ok (F64.of_Z 24)).
    lazy beta iota delta [mbind res_bind]. unfold F64.div.
    change (F64.is_zero (F64.of_Z 24)) with false.
    lazy beta iota delta [mbind res_bind try_except].
    generalize (F64.quot (F64.add l (F64.of_Z 6)) (F64.of_Z 24)).
    generalize (F64.add l (F64.of_Z 6)).
    intros total days. apply scenario_dict.
Qed.

End ScenarioTheorems.

(** ** Two more estimates: where a character comes, and runs *)

Section Runs.

Import Re Lang.

Lemma lit_word_length (ic : bool) (p w : string) :
  lit_word ic p w = true -> String.length w = String.length p.
Proof.
  revert w. induction p as [|a p IH]; intros [|c w]; cbn [lit_word]; try done.
  rewrite andb_true_iff. intros [_ Hw]. cbn [String.length]. by rewrite (IH w).
Qed.

Lemma matches_max_len (ic : bool) (r : regex) (w rest : string) (caps caps' : captures)
    (n : nat) :
  matches ic r w rest caps caps' -> max_len r = Some n -> (String.length w <= n)%nat.
Proof.
  intros Hm. revert n.
  induction Hm as [p w rest caps Hw|cl c rest caps Hc|lo hi g cl w rest caps Hw Hlo Hhi
                  |r w rest caps caps' Hm IH|r rest caps
                  |r1 r2 w rest caps caps' Hm IH|r1 r2 w rest caps caps' Hm IH
                  |r1 r2 w1 w2 rest caps caps1 caps2 Hm1 IH1 Hm2 IH2
                  |i r w rest caps caps' Hm IH|rest caps He];
    intros n; cbn [max_len]; intros Hn.
  - injection Hn as <-. by rewrite (lit_word_length _ _ _ Hw).
  - injection Hn as <-. done.
  - subst hi. by apply Nat.leb_le in Hhi.
  - by apply IH.
  - cbn. lia.
  - destruct (max_len r1) as [a|]; [|done]. destruct (max_len r2) as [b|]; [|done].
    injection Hn as <-. specialize (IH a eq_refl). lia.
  - destruct (max_len r1) as [a|]; [|done]. destruct (max_len r2) as [b|]; [|done].
    injection Hn as <-. specialize (IH b eq_refl). lia.
  - destruct (max_len r1) as [a|]; [|done]. destruct (max_len r2) as [b|]; [|done].
    injection Hn as <-. specialize (IH1 a eq_refl). specialize (IH2 b eq_refl).
    rewrite length_append_str. lia.
  - by apply IH.
  - cbn. lia.
Qed.

(** A character of the kind [p] among the first [n]. *)
Lemma all_chars_take_le (q : ascii -> bool) (n m : nat) (s : string) :
  (n <= m)%nat -> all_chars q (Text.take m s) = true -> all_chars q (Text.take n s) = true.
Proof.
  revert m s. induction n as [|n IH]; intros [|m] [|c s]; cbn [Text.take all_chars];
    try done; try lia.
  rewrite !andb_true_iff. intros Hn [Hc Hs]. split; [done|]. apply (IH m); [lia|done].
Qed.

Lemma all_chars_take_app (q : ascii -> bool) (n : nat) (a b : string) :
  all_chars q (Text.take (String.length a + n) (a +:+ b)) = true ->
  all_chars q a = true ∧ all_chars q (Text.take n b) = true.
Proof.
  induction a as [|c a IH]; [done|].
  change (String c a +:+ b) with (String c (a +:+ b)).
  cbn [String.length Nat.add Text.take all_chars]. rewrite !andb_true_iff.
  intros [Hc Hs]. destruct (IH Hs). done.
Qed.

Lemma all_chars_take_front (q : ascii -> bool) (n : nat) (a b : string) :
  all_chars q (Text.take n (a +:+ b)) = true -> all_chars q (Text.take n a) = true.
Proof.
  revert a. induction n as [|n IH]; intros [|c a]; try done.
  change (String c a +:+ b) with (String c (a +:+ b)). cbn [Text.take all_chars].
  rewrite !andb_true_iff. intros [Hc Hs]. split; [done|]. by apply IH.
Qed.

Lemma lit_word_first (ic : bool) (p : ascii -> bool) (s w : string) (k : nat) :
  first_in ic p s = Some k -> lit_word ic s w = true ->
  all_chars (fun c => negb (p c)) (Text.take (S k) w) = false.
Proof.
  revert w k. induction s as [|a s IH]; intros [|c w] k; cbn [first_in lit_word]; try done.
  rewrite andb_true_iff. intros Hk [Hc Hw]. cbn [Text.take all_chars].
  destruct (chr_only ic p a) eqn:Ha.
  - by rewrite (chr_only_spec ic p a c Ha Hc).
  - destruct (first_in ic p s) as [k'|] eqn:Hf; [|done]. injection Hk as <-.
    rewrite (IH w k' eq_refl Hw). apply andb_false_r.
Qed.

Lemma matches_first_by (ic : bool) (p : ascii -> bool) (r : regex) (w rest : string)
    (caps caps' : captures) (k : nat) :
  matches ic r w rest caps caps' -> first_by ic p r = Some k ->
  all_chars (fun c => negb (p c)) (Text.take (S k) w) = false.
Proof.
  intros Hm. revert k.
  induction Hm as [s w rest caps Hw|cl c rest caps Hc|lo hi g cl w rest caps Hw Hlo Hhi
                  |r w rest caps caps' Hm IH|r rest caps
                  |r1 r2 w rest caps caps' Hm IH|r1 r2 w rest caps caps' Hm IH
                  |r1 r2 w1 w2 rest caps caps1 caps2 Hm1 IH1 Hm2 IH2
                  |i r w rest caps caps' Hm IH|rest caps He];
    intros k; cbn [first_by]; intros Hk; try done.
  - by eapply lit_word_first.
  - destruct (cls_only ic p cl) eqn:Hcl; [|done]. injection Hk as <-.
    cbn [Text.take all_chars]. by rewrite (cls_only_spec ic p cl c Hcl Hc).
  - destruct ((0 <? lo)%nat && cls_only ic p cl) eqn:Hcl; [|done]. injection Hk as <-.
    apply andb_true_iff in Hcl as [H0 Hcl]. apply Nat.ltb_lt in H0.
    destruct w as [|c w]; [cbn [String.length] in Hlo; lia|].
    cbn [all_chars] in Hw. apply andb_true_iff in Hw as [Hc _].
    cbn [Text.take all_chars]. by rewrite (cls_only_spec ic p cl c Hcl Hc).
  - destruct (first_by ic p r1) as [a|]; [|done]. destruct (first_by ic p r2) as [b|]; [|done].
    injection Hk as <-. specialize (IH a eq_refl).
    destruct (all_chars _ (Text.take (S (Nat.max a b)) w)) eqn:Hall; [|done].
    rewrite (all_chars_take_le _ (S a) (S (Nat.max a b))) in IH; [done|lia|done].
  - destruct (first_by ic p r1) as [a|]; [|done]. destruct (first_by ic p r2) as [b|]; [|done].
    injection Hk as <-. specialize (IH b eq_refl).
    destruct (all_chars _ (Text.take (S (Nat.max a b)) w)) eqn:Hall; [|done].
    rewrite (all_chars_take_le _ (S b) (S (Nat.max a b))) in IH; [done|lia|done].
  - destruct (first_by ic p r1) as [a|].
    + injection Hk as <-. specialize (IH1 a eq_refl).
      destruct (all_chars _ (Text.take (S a) (w1 +:+ w2))) eqn:Hall; [|done].
      by rewrite (all_chars_take_front _ _ _ _ Hall) in IH1.
    + destruct (max_len r1) as [a|] eqn:Ha; [|done].
      destruct (first_by ic p r2) as [b|]; [|done]. injection Hk as <-.
      specialize (IH2 b eq_refl). pose proof (matches_max_len _ _ _ _ _ _ a Hm1 Ha) as Hlen.
      destruct (all_chars _ (Text.take (S (a + b)) (w1 +:+ w2))) eqn:Hall; [|done].
      apply (all_chars_take_le _ (String.length w1 + S b)) in Hall; [|lia].
      apply all_chars_take_app in Hall as [_ Hall]. by rewrite Hall in IH2.
  - by apply IH.
Qed.

(** Runs. *)
Lemma run_from_all (p : ascii -> bool) (a b : string) :
  all_chars p a = true -> run_from p (a +:+ b) = (String.length a + run_from p b)%nat.
Proof.
  induction a as [|c a IH]; [done|]. cbn [all_chars]. rewrite andb_true_iff.
  intros [Hc Ha]. change (String c a +:+ b) with (String c (a +:+ b)).
  cbn [run_from String.length]. by rewrite Hc, IH.
Qed.

Lemma run_from_longest (p : ascii -> bool) (s : string) :
  (run_from p s <= longest_run p s)%nat.
Proof. destruct s; [done|]. cbn [longest_run]. lia. Qed.

Lemma run_from_app (p : ascii -> bool) (a b : string) :
  (run_from p a <= run_from p (a +:+ b))%nat.
Proof.
  induction a as [|c a IH]; [cbn; lia|].
  change (String c a +:+ b) with (String c (a +:+ b)). cbn [run_from].
  destruct (p c); lia.
Qed.

Lemma longest_run_app (p : ascii -> bool) (a b : string) :
  (Nat.max (longest_run p a) (longest_run p b) <= longest_run p (a +:+ b))%nat.
Proof.
  induction a as [|c a IH]; [cbn [longest_run]; change ("" +:+ b) with b; lia|].
  change (String c a +:+ b) with (String c (a +:+ b)). cbn [longest_run].
  pose proof (run_from_app p (String c a) b) as Hr.
  change (String c a +:+ b) with (String c (a +:+ b)) in Hr. lia.
Qed.

Lemma longest_run_all (p : ascii -> bool) (s : string) :
  all_chars p s = true -> (String.length s <= longest_run p s)%nat.
Proof.
  intros Hs. pose proof (run_from_all p s "" Hs) as Hr.
  rewrite append_empty_str in Hr. cbn [run_from] in Hr.
  pose proof (run_from_longest p s). lia.
Qed.

Lemma matches_pure (ic : bool) (p : ascii -> bool) (r : regex) (w rest : string)
    (caps caps' : captures) (n : nat) :
  matches ic r w rest caps caps' -> pure ic p r = Some n ->
  all_chars p w = true ∧ (n <= String.length w)%nat.
Proof.
  intros Hm. revert n.
  induction Hm as [s w rest caps Hw|cl c rest caps Hc|lo hi g cl w rest caps Hw Hlo Hhi
                  |r w rest caps caps' Hm IH|r rest caps
                  |r1 r2 w rest caps caps' Hm IH|r1 r2 w rest caps caps' Hm IH
                  |r1 r2 w1 w2 rest caps caps1 caps2 Hm1 IH1 Hm2 IH2
                  |i r w rest caps caps' Hm IH|rest caps He];
    intros n; cbn [pure]; intros Hn.
  - destruct (forallb _ _) eqn:Hs; [|done]. injection Hn as <-.
    split; [by eapply lit_word_only|]. by rewrite (lit_word_length _ _ _ Hw).
  - destruct (cls_only ic p cl) eqn:Hcl; [|done]. injection Hn as <-.
    cbn [all_chars String.length]. by rewrite (cls_only_spec ic p cl c Hcl Hc).
  - destruct (cls_only ic p cl) eqn:Hcl; [|done]. injection Hn as <-. split; [|done].
    eapply all_chars_impl; [|exact Hw]. intros c. by apply cls_only_spec.
  - destruct (pure ic p r) as [a|]; [|done]. injection Hn as <-.
    destruct (IH a eq_refl). split; [done|lia].
  - destruct (pure ic p r) as [a|]; [|done]. by injection Hn as <-.
  - destruct (pure ic p r1) as [a|]; [|done]. destruct (pure ic p r2) as [b|]; [|done].
    injection Hn as <-. destruct (IH a eq_refl). split; [done|lia].
  - destruct (pure ic p r1) as [a|]; [|done]. destruct (pure ic p r2) as [b|]; [|done].
    injection Hn as <-. destruct (IH b eq_refl). split; [done|lia].
  - destruct (pure ic p r1) as [a|]; [|done]. destruct (pure ic p r2) as [b|]; [|done].
    injection Hn as <-. destruct (IH1 a eq_refl) as [H1 ?], (IH2 b eq_refl) as [H2 ?].
    rewrite all_chars_app, H1, H2, length_append_str. split; [done|lia].
  - by apply IH.
  - by injection Hn as <-.
Qed.

Lemma matches_run_of (ic : bool) (p : ascii -> bool) (r : regex) (w rest : string)
    (caps caps' : captures) :
  matches ic r w rest caps caps' -> (run_of ic p r <= longest_run p w)%nat.
Proof.
  assert (Hpure : ∀ r w rest caps caps' n,
            matches ic r w rest caps caps' -> pure ic p r = Some n ->
            (n <= longest_run p w)%nat).
  { intros r0 w0 rest0 caps0 caps0' n Hm Hn.
    destruct (matches_pure _ _ _ _ _ _ _ _ Hm Hn) as [Hall Hlen].
    pose proof (longest_run_all p w0 Hall). lia. }
  intros Hm.
  induction Hm as [s w rest caps Hw|cl c rest caps Hc|lo hi g cl w rest caps Hw Hlo Hhi
                  |r w rest caps caps' Hm IH|r rest caps
                  |r1 r2 w rest caps caps' Hm IH|r1 r2 w rest caps caps' Hm IH
                  |r1 r2 w1 w2 rest caps caps1 caps2 Hm1 IH1 Hm2 IH2
                  |i r w rest caps caps' Hm IH|rest caps He].
  - destruct (pure ic p (Lit s)) as [n|] eqn:Hn; unfold run_of; rewrite Hn; [|lia].
    exact (Hpure _ _ _ _ _ _ (M_lit ic s w rest caps Hw) Hn).
  - destruct (pure ic p (In cl)) as [n|] eqn:Hn; unfold run_of; rewrite Hn; [|lia].
    exact (Hpure _ _ _ _ _ _ (M_in ic cl c rest caps Hc) Hn).
  - destruct (pure ic p (Rep lo hi g cl)) as [n|] eqn:Hn; unfold run_of; rewrite Hn; [|lia].
    exact (Hpure _ _ _ _ _ _ (M_rep ic lo hi g cl w rest caps Hw Hlo Hhi) Hn).
  - destruct (pure ic p (Opt r)) as [n|] eqn:Hn; cbn [run_of]; rewrite Hn; [|lia].
    exact (Hpure _ _ _ _ _ _ (M_opt ic r w rest caps caps' Hm) Hn).
  - destruct (pure ic p (Opt r)) as [n|] eqn:Hn; cbn [run_of]; rewrite Hn; [|lia].
    exact (Hpure _ _ _ _ _ _ (M_skip ic r rest caps) Hn).
  - destruct (pure ic p (Alt r1 r2)) as [n|] eqn:Hn; cbn [run_of]; rewrite Hn; [|lia].
    exact (Hpure _ _ _ _ _ _ (M_left ic r1 r2 w rest caps caps' Hm) Hn).
  - destruct (pure ic p (Alt r1 r2)) as [n|] eqn:Hn; cbn [run_of]; rewrite Hn; [|lia].
    exact (Hpure _ _ _ _ _ _ (M_right ic r1 r2 w rest caps caps' Hm) Hn).
  - destruct (pure ic p (Seq r1 r2)) as [n|] eqn:Hn; cbn [run_of]; rewrite Hn.
    + exact (Hpure _ _ _ _ _ _ (M_seq ic r1 r2 w1 w2 rest caps caps1 caps2 Hm1 Hm2) Hn).
    + pose proof (longest_run_app p w1 w2). lia.
  - destruct (pure ic p (Group i r)) as [n|] eqn:Hn; cbn [run_of]; rewrite Hn; [|lia].
    exact (Hpure _ _ _ _ _ _ (M_group ic i r w rest caps caps' Hm) Hn).
  - cbn. lia.
Qed.

End Runs.

(** ** The other formats with a time *)

Section OtherFormats.

Import Re Lang Outcome Written.

Lemma strptime_first_by (p : ascii -> bool) (k : nat) (s fmt : string) (r : regex) :
  pattern false fmt = Some r -> first_by true p r = Some k ->
  all_chars (fun c => negb (p c)) (Text.take (S k) s) = true -> strptime s fmt = None.
Proof.
  intros Hr Hk Hs. destruct (strptime s fmt) as [d|] eqn:H; [exfalso|done].
  apply strptime_language in H as (r' & caps & Hr' & Hm).
  rewrite Hr in Hr'. injection Hr' as <-.
  by rewrite (matches_first_by _ _ _ _ _ _ _ _ Hm Hk) in Hs.
Qed.

Lemma strptime_run (p : ascii -> bool) (s fmt : string) (r : regex) :
  pattern false fmt = Some r -> (longest_run p s < run_of true p r)%nat ->
  strptime s fmt = None.
Proof.
  intros Hr Hlt. destruct (strptime s fmt) as [d|] eqn:H; [exfalso|done].
  apply strptime_language in H as (r' & caps & Hr' & Hm).
  rewrite Hr in Hr'. injection Hr' as <-.
  pose proof (matches_run_of true p _ _ _ _ _ Hm). lia.
Qed.

Lemma short_year_directive {R : Type} (a b : ascii) (rest : string) (caps : captures)
    (k : cont) (x : R) :
  Text.is_digit a = true -> Text.is_digit b = true ->
  k rest ((key "y", String a (String b "")) :: caps) = Some x ->
  rmatch true (Group (key "y") (body_of "y")) (String a (String b rest)) caps k = Some x.
Proof.
  intros Ha Hb Hk. change (body_of "y") with (Seq dig dig).
  cbn [rmatch dig]. rewrite !cls_digit by done. by rewrite consumed2.
Qed.

Lemma py_int_mod (n : Z) : 0 <= n -> py_int (padded 2 n) = n mod 100.
Proof.
  intros Hn.
  change (padded 2 n) with (String (digit_chr (n / 10)) (String (digit_chr n) "")).
  unfold py_int. rewrite strip_digits.
  - cbn [int_digits]. rewrite !digit_val_chr. Z.div_mod_to_equations. lia.
  - cbn [all_digits]. by rewrite !digit_chr_digit.
Qed.

Lemma year_first_chars (d : datetime) :
  year_first d
  = String (digit_chr (year d / 10 / 10 / 10)) (String (digit_chr (year d / 10 / 10))
     (String (digit_chr (year d / 10)) (String (digit_chr (year d)) (String "-"
     (String (digit_chr (month d / 10)) (String (digit_chr (month d)) (String "-"
     (String (digit_chr (day d / 10)) (String (digit_chr (day d)) (String ","
     (String " " (String (digit_chr (hour d / 10)) (String (digit_chr (hour d))
     (String ":" (String (digit_chr (minute d / 10))
     (String (digit_chr (minute d)) "")))))))))))))))).
Proof. reflexivity. Qed.

Lemma short_year_chars (sep : ascii) (d : datetime) :
  short_year sep d
  = String (digit_chr (day d / 10)) (String (digit_chr (day d)) (String sep
     (String (digit_chr (month d / 10)) (String (digit_chr (month d)) (String sep
     (String (digit_chr (year d / 10)) (String (digit_chr (year d)) (String ","
     (String " " (String (digit_chr (hour d / 10)) (String (digit_chr (hour d))
     (String ":" (String (digit_chr (minute d / 10))
     (String (digit_chr (minute d)) "")))))))))))))).
Proof. reflexivity. Qed.

Lemma match_year_first (d : datetime) :
  valid d = true ->
  match_here true year_first_re (year_first d)
  = Some {| rest := "";
            groups := [(key "M", padded 2 (minute d)); (key "H", padded 2 (hour d));
                       (key "d", padded 2 (day d)); (key "m", padded 2 (month d));
                       (key "Y", padded 4 (year d))] |}.
Proof.
  intros Hvalid. apply valid_ranges in Hvalid as (Hy & Hmo & Hd & Hh & Hmi).
  rewrite year_first_chars. unfold match_here, year_first_re.
  rewrite seq_step. apply year_directive; [apply digit_chr_digit..|].
  rewrite seq_step, lit1_step.
  rewrite seq_step. apply (two_digit_directive "m" 1 12 body_m); [lia|lia|].
  rewrite seq_step, lit1_step.
  rewrite seq_step. apply (two_digit_directive "d" 1 31 body_d); [lia|lia|].
  rewrite seq_step, lit1_step.
  rewrite seq_step, blank_step by apply digit_chr_digit.
  rewrite seq_step. apply (two_digit_directive "H" 0 23 body_H); [lia|lia|].
  rewrite seq_step, lit1_step.
  rewrite seq_step. apply (two_digit_directive "M" 0 59 body_M); [lia|lia|].
  reflexivity.
Qed.

Lemma match_short_year (sep : ascii) (d : datetime) :
  valid d = true ->
  match_here true (short_year_re sep) (short_year sep d)
  = Some {| rest := "";
            groups := [(key "M", padded 2 (minute d)); (key "H", padded 2 (hour d));
                       (key "y", padded 2 (year d)); (key "m", padded 2 (month d));
                       (key "d", padded 2 (day d))] |}.
Proof.
  intros Hvalid. apply valid_ranges in Hvalid as (Hy & Hmo & Hd & Hh & Hmi).
  rewrite short_year_chars. unfold match_here, short_year_re.
  rewrite seq_step. apply (two_digit_directive "d" 1 31 body_d); [lia|lia|].
  rewrite seq_step, lit1_step.
  rewrite seq_step. apply (two_digit_directive "m" 1 12 body_m); [lia|lia|].
  rewrite seq_step, lit1_step.
  rewrite seq_step. apply short_year_directive; [apply digit_chr_digit..|].
  rewrite seq_step, lit1_step.
  rewrite seq_step, blank_step by apply digit_chr_digit.
  rewrite seq_step. apply (two_digit_directive "H" 0 23 body_H); [lia|lia|].
  rewrite seq_step, lit1_step.
  rewrite seq_step. apply (two_digit_directive "M" 0 59 body_M); [lia|lia|].
  reflexivity.
Qed.

Lemma strptime_year_first (d : datetime) :
  valid d = true -> second d = 0 -> microsecond d = 0 ->
  strptime (year_first d) "%Y-%m-%d, %H:%M" = Some d.
Proof.
  intros Hvalid Hs Hus. unfold strptime.
  change (pattern false "%Y-%m-%d, %H:%M") with (Some year_first_re).
  cbn [mbind option_bind].
  rewrite (match_year_first d Hvalid). cbn [mbind option_bind rest Text.nonempty].
  pose proof (valid_ranges d Hvalid) as (Hy & Hmo & Hd & Hh & Hmi).
  change (has _ "y") with false. cbn match.
  unfold field.
  change (has _ "Y") with true. change (has _ "m") with true.
  change (has _ "d") with true. change (has _ "H") with true.
  change (has _ "M") with true. cbn match.
  change (group _ (key "Y")) with (padded 4 (year d)).
  change (group _ (key "m")) with (padded 2 (month d)).
  change (group _ (key "d")) with (padded 2 (day d)).
  change (group _ (key "H")) with (padded 2 (hour d)).
  change (group _ (key "M")) with (padded 2 (minute d)).
  rewrite (py_int4 (year d)), !py_int2 by lia.
  assert ({| year := year d; month := month d; day := day d; hour := hour d;
             minute := minute d; second := 0; microsecond := 0 |} = d) as ->.
  { destruct d. cbn in *. by subst. }
  by rewrite Hvalid.
Qed.

Lemma leap_century (y : Z) :
  is_leap y = true -> is_leap (century (y mod 100)) = true.
Proof.
  unfold is_leap, century. rewrite !andb_true_iff, !orb_true_iff, !negb_true_iff.
  rewrite !Z.eqb_eq, !Z.eqb_neq. intros [H4 H].
  destruct (Z.leb_spec (y mod 100) 68); Z.div_mod_to_equations; lia.
Qed.

Lemma valid_century (d : datetime) :
  valid d = true -> valid (with_year d (century (year d mod 100))) = true.
Proof.
  unfold valid, with_year. cbn [year month day hour minute second microsecond].
  rewrite !andb_true_iff, !Z.leb_le. intros H.
  assert (1 <= century (year d mod 100) <= 9999).
  { unfold century. destruct (Z.leb_spec (year d mod 100) 68);
      Z.div_mod_to_equations; lia. }
  assert (days_in_month (year d) (month d)
          <= days_in_month (century (year d mod 100)) (month d)).
  { unfold days_in_month. destruct (month d =? 2); [|lia].
    destruct (is_leap (year d)) eqn:Hl; [by rewrite leap_century|].
    destruct (is_leap (century (year d mod 100))); lia. }
  lia.
Qed.

Lemma strptime_short_year (sep : ascii) (fmt : string) (d : datetime) :
  pattern false fmt = Some (short_year_re sep) ->
  valid d = true -> second d = 0 -> microsecond d = 0 ->
  strptime (short_year sep d) fmt = Some (with_year d (century (year d mod 100))).
Proof.
  intros Hfmt Hvalid Hs Hus. unfold strptime. rewrite Hfmt. cbn [mbind option_bind].
  rewrite (match_short_year sep d Hvalid). cbn [mbind option_bind rest Text.nonempty].
  pose proof (valid_ranges d Hvalid) as (Hy & Hmo & Hd & Hh & Hmi).
  change (has _ "y") with true. cbn match.
  unfold field.
  change (has _ "m") with true.
  change (has _ "d") with true. change (has _ "H") with true.
  change (has _ "M") with true. cbn match.
  change (group _ (key "y")) with (padded 2 (year d)).
  change (group _ (key "m")) with (padded 2 (month d)).
  change (group _ (key "d")) with (padded 2 (day d)).
  change (group _ (key "H")) with (padded 2 (hour d)).
  change (group _ (key "M")) with (padded 2 (minute d)).
  rewrite (py_int_mod (year d)), !py_int2 by lia.
  fold (century (year d mod 100)).
  assert ({| year := century (year d mod 100); month := month d; day := day d;
             hour := hour d; minute := minute d; second := 0; microsecond := 0 |}
          = with_year d (century (year d mod 100))) as ->.
  { unfold with_year. by rewrite Hs, Hus. }
  by rewrite (valid_century d Hvalid).
Qed.

Lemma digit_not_dash (n : Z) : negb (is_char "-" (digit_chr n)) = true.
Proof.
  unfold is_char. by rewrite (digit_not_char "-" _ eq_refl (digit_chr_digit n)).
Qed.

Lemma short_year_run (sep : ascii) (d : datetime) :
  Text.is_digit sep = false -> longest_run Text.is_digit (short_year sep d) = 2%nat.
Proof.
  intros Hsep. rewrite short_year_chars. cbn [longest_run run_from].
  rewrite !digit_chr_digit, Hsep. reflexivity.
Qed.

(** X12. A valid date and time on the minute, written year first with
    dashes, four digits for the year and two for month, day, hour and
    minute, a comma and a blank before the time, normalises to that date
    and time: the two formats tried before the right one do not take
    it. *)
Theorem year_first_timestamp_normalises (d : datetime) :
  valid d = true -> second d = 0 -> microsecond d = 0 ->
  _parse_datetime (year_first d) = Some d.
Proof.
  intros Hvalid Hs Hus. unfold _parse_datetime, formats. cbn [try_formats].
  erewrite (strptime_needs (is_char "/")); [|by vm_compute|by vm_compute|].
  2: { rewrite year_first_chars. cbn [all_chars]. by rewrite !digit_not_slash. }
  erewrite (strptime_first_by (is_char "-") 2); [|by vm_compute|by vm_compute|].
  2: { rewrite year_first_chars. cbn [Text.take all_chars]. by rewrite !digit_not_dash. }
  by rewrite (strptime_year_first d Hvalid Hs Hus).
Qed.

Lemma year_first_timestamp_normalises_witness :
  year_first nor0 = "2024-03-01, 08:00" ∧ _parse_datetime (year_first nor0) = Some nor0.
Proof.
  split; [reflexivity|].
  exact (year_first_timestamp_normalises nor0 eq_refl eq_refl eq_refl).
Defined.

(** X13. A year of two digits is read into the years 1969 to 2068: a
    valid date and time on the minute, written day first with slashes or
    dashes and the last two digits of its year, normalises to the same
    day and time in the year [2000 + yy] when [yy <= 68] and [1900 + yy]
    otherwise -- to itself exactly when its year is in that window. *)
Theorem short_year_window (sep : ascii) (d : datetime) :
  sep = "/"%char ∨ sep = "-"%char ->
  valid d = true -> second d = 0 -> microsecond d = 0 ->
  _parse_datetime (short_year sep d) = Some (with_year d (century (year d mod 100)))
  ∧ (_parse_datetime (short_year sep d) = Some d ↔ 1969 <= year d <= 2068).
Proof.
  intros Hsep Hvalid Hs Hus.
  assert (_parse_datetime (short_year sep d)
          = Some (with_year d (century (year d mod 100)))) as Hparse.
  { destruct Hsep as [-> | ->]; unfold _parse_datetime, formats; cbn [try_formats].
    - erewrite (strptime_run Text.is_digit); [|by vm_compute|].
      2: { rewrite short_year_run by done. vm_compute. lia. }
      erewrite (strptime_needs (is_char "-")); [|by vm_compute|by vm_compute|].
      2: { rewrite short_year_chars. cbn [all_chars]. by rewrite !digit_not_dash. }
      erewrite (strptime_needs (is_char "-")); [|by vm_compute|by vm_compute|].
      2: { rewrite short_year_chars. cbn [all_chars]. by rewrite !digit_not_dash. }
      by rewrite (strptime_short_year "/" "%d/%m/%y, %H:%M" d eq_refl Hvalid Hs Hus).
    - erewrite (strptime_needs (is_char "/")); [|by vm_compute|by vm_compute|].
      2: { rewrite short_year_chars. cbn [all_chars]. by rewrite !digit_not_slash. }
      erewrite (strptime_run Text.is_digit); [|by vm_compute|].
      2: { rewrite short_year_run by done. vm_compute. lia. }
      erewrite (strptime_run Text.is_digit); [|by vm_compute|].
      2: { rewrite short_year_run by done. vm_compute. lia. }
      erewrite (strptime_needs (is_char "/")); [|by vm_compute|by vm_compute|].
      2: { rewrite short_year_chars. cbn [all_chars]. by rewrite !digit_not_slash. }
      by rewrite (strptime_short_year "-" "%d-%m-%y, %H:%M" d eq_refl Hvalid Hs Hus). }
  split; [done|]. rewrite Hparse.
  pose proof (valid_ranges d Hvalid) as (Hy & _).
  unfold century. split.
  - intros [= Hd]. apply (f_equal year) in Hd. cbn [with_year year] in Hd.
    destruct (Z.leb_spec (year d mod 100) 68); Z.div_mod_to_equations; lia.
  - intros Hwin. f_equal. destruct d as [y mo da h mi s us]. unfold with_year.
    cbn [year month day hour minute second microsecond] in *. f_equal.
    destruct (Z.leb_spec (y mod 100) 68); Z.div_mod_to_equations; lia.
Qed.

Lemma short_year_window_witness :
  short_year "/" nor0 = "01/03/24, 08:00"
  ∧ _parse_datetime (short_year "/" nor0) = Some nor0.
Proof.
  split; [reflexivity|].
  exact (proj2 (proj2 (short_year_window "/" nor0 (or_introl eq_refl)
                         eq_refl eq_refl eq_refl))
           ltac:(by vm_compute)).
Defined.

End OtherFormats.

(** ** The confidence score grows with the data *)

Section ConfidenceGrowth.

Lemma count_if_le {A : Type} (p q : A -> bool) (l : list A) :
  (∀ x, p x = true -> q x = true) -> count_if p l <= count_if q l.
Proof.
  intros Hpq. unfold count_if. apply inj_le.
  induction l as [|x l IH]; [done|]. cbn [List.filter].
  destruct (p x) eqn:Hp.
  - rewrite (Hpq x Hp). cbn [length]. lia.
  - destruct (q x); cbn [length]; lia.
Qed.

Lemma score_of_le (fields critical fields' critical' : Z) :
  0 <= fields -> fields <= fields' -> fields' <= 9 ->
  0 <= critical -> critical <= critical' -> critical' <= 3 ->
  F64.leb (score_of fields critical) (score_of fields' critical') = true.
Proof.
  intros Hf0 Hf Hf9 Hc0 Hc Hc3.
  assert (forallb (fun f => forallb (fun c => forallb (fun f' => forallb (fun c' =>
            implb ((f <=? f')%nat && (c <=? c')%nat)
              (F64.leb (score_of (Z.of_nat f) (Z.of_nat c))
                       (score_of (Z.of_nat f') (Z.of_nat c'))))
            (seq 0 4)) (seq 0 10)) (seq 0 4)) (seq 0 10) = true) as Hall
    by by vm_compute.
  rewrite forallb_forall in Hall.
  specialize (Hall (Z.to_nat fields)). rewrite in_seq, forallb_forall in Hall.
  specialize (Hall ltac:(lia) (Z.to_nat critical)). rewrite in_seq, forallb_forall in Hall.
  specialize (Hall ltac:(lia) (Z.to_nat fields')). rewrite in_seq, forallb_forall in Hall.
  specialize (Hall ltac:(lia) (Z.to_nat critical')). rewrite in_seq in Hall.
  specialize (Hall ltac:(lia)). rewrite !Z2Nat.id in Hall by lia.
  rewrite (proj2 (Nat.leb_le _ _)), (proj2 (Nat.leb_le _ _)) in Hall by lia.
  exact Hall.
Qed.

(** X14. The confidence score never falls when a field gains candidates:
    for a raw extraction with its nine fields, giving any of the fields a
    non-empty list of candidates yields a score at least as high, the
    rounding to two decimals and the cap at 1.0 notwithstanding. *)
Theorem confidence_never_lowered (raw : gmap string (list string)) (field c : string)
    (l : list string) :
  dom raw = list_to_set field_names -> field ∈ field_names ->
  F64.leb (_calculate_confidence_score raw)
          (_calculate_confidence_score (<[field := c :: l]> raw)) = true.
Proof.
  intros Hdom Hfield.
  assert (dom (<[field := c :: l]> raw) = list_to_set field_names) as Hdom'.
  { rewrite dom_insert_lookup_L; [done|]. apply elem_of_dom. rewrite Hdom.
    by apply elem_of_list_to_set. }
  rewrite (confidence_formula raw Hdom), (confidence_formula _ Hdom').
  assert (∀ x, has_candidate raw x = true
               -> has_candidate (<[field := c :: l]> raw) x = true) as Hmore.
  { intros x Hx. unfold has_candidate in *. destruct (decide (x = field)) as [->|Hne].
    - by rewrite lookup_insert_eq.
    - by rewrite lookup_insert_ne. }
  rewrite !count_present_count_if.
  pose proof (count_if_bounds (has_candidate raw) field_names).
  pose proof (count_if_bounds (has_candidate (<[field := c :: l]> raw)) field_names).
  pose proof (count_if_bounds (has_candidate raw) critical_names).
  pose proof (count_if_bounds (has_candidate (<[field := c :: l]> raw)) critical_names).
  pose proof (count_if_le _ _ field_names Hmore).
  pose proof (count_if_le _ _ critical_names Hmore).
  change (Z.of_nat (length field_names)) with 9 in *.
  change (Z.of_nat (length critical_names)) with 3 in *.
  apply score_of_le; lia.
Qed.

Lemma confidence_never_lowered_witness :
  F64.leb (_calculate_confidence_score (_extract_sof_data "Voyage: 12A"))
          (_calculate_confidence_score
             (<["vessel_name" := ["Ocean Star"]]> (_extract_sof_data "Voyage: 12A")))
  = true.
Proof.
  exact (confidence_never_lowered (_extract_sof_data "Voyage: 12A") "vessel_name"
           "Ocean Star" [] (extract_dom "Voyage: 12A") ltac:(by left)).
Defined.

End ConfidenceGrowth.

(** ** Candidates are pieces of the text *)

Section Pieces.

Import Re Lang.

Lemma piece_refl (s : string) : piece_of s s.
Proof. exists "", "". by rewrite append_empty_str. Qed.

Lemma piece_empty (s : string) : piece_of "" s.
Proof. by exists "", s. Qed.

Lemma piece_trans (a b c : string) : piece_of a b -> piece_of b c -> piece_of a c.
Proof.
  intros (p & q & ->) (p' & q' & ->). exists (p' +:+ p), (q +:+ q').
  by rewrite !append_assoc_str.
Qed.

Lemma piece_left (a b : string) : piece_of a (a +:+ b).
Proof. by exists "", b. Qed.

Lemma piece_right (a b : string) : piece_of b (a +:+ b).
Proof. exists a, "". by rewrite append_empty_str. Qed.

Lemma lstrip_piece (s : string) : piece_of (Text.lstrip s) s.
Proof.
  induction s as [|c s IH]; [apply piece_refl|]. cbn [Text.lstrip].
  destruct (Text.isspace c); [|apply piece_refl].
  eapply piece_trans; [exact IH|]. apply (piece_right (String c "") s).
Qed.

Lemma rstrip_prefix (s : string) : ∃ after, s = Text.rstrip s +:+ after.
Proof.
  induction s as [|c s [q IH]]; [by exists ""|]. cbn [Text.rstrip].
  destruct (Text.rstrip s) as [|x r] eqn:Hr.
  - destruct (Text.isspace c); [by eexists|]. by exists s.
  - exists q. rewrite IH at 1. reflexivity.
Qed.

Lemma rstrip_piece (s : string) : piece_of (Text.rstrip s) s.
Proof.
  destruct (rstrip_prefix s) as [q Hq]. exists "", q. exact Hq.
Qed.

Lemma strip_piece (s : string) : piece_of (Text.strip s) s.
Proof. eapply piece_trans; [apply rstrip_piece|apply lstrip_piece]. Qed.

Lemma matches_pieces (ic : bool) (r : regex) (w rest : string) (caps caps' : captures)
    (i : nat) (g : string) :
  matches ic r w rest caps caps' -> (i, g) ∈ caps' -> (i, g) ∈ caps ∨ piece_of g w.
Proof.
  induction 1 as [p w rest caps Hw|cl c rest caps Hc|lo hi gr cl w rest caps Hw Hlo Hhi
                 |r w rest caps caps' Hm IH|r rest caps
                 |r1 r2 w rest caps caps' Hm IH|r1 r2 w rest caps caps' Hm IH
                 |r1 r2 w1 w2 rest caps caps1 caps2 Hm1 IH1 Hm2 IH2
                 |j r w rest caps caps' Hm IH|rest caps He]; intros Hin; auto.
  - destruct (IH2 Hin) as [Hin1|Hp].
    + destruct (IH1 Hin1) as [?|Hp]; [by left|]. right.
      eapply piece_trans; [exact Hp|apply piece_left].
    + right. eapply piece_trans; [exact Hp|apply piece_right].
  - apply elem_of_cons in Hin as [[= -> ->]|Hin]; [right; apply piece_refl|auto].
Qed.

Lemma group_piece (ic : bool) (r : regex) (s : string) (m : mobj) (i : nat) :
  match_here ic r s = Some m -> piece_of (group m i) s.
Proof.
  intros Hm. apply match_here_sound in Hm as (w & -> & Hm).
  unfold group. destruct (find _ _) as [[j g]|] eqn:Hf; [|apply piece_empty].
  apply find_some in Hf as [Hin Hj]. cbn in Hj. apply Nat.eqb_eq in Hj as ->.
  apply list_elem_of_In in Hin. cbn [snd].
  destruct (matches_pieces _ _ _ _ _ _ _ _ Hm Hin) as [Hnil|Hp];
    [by apply elem_of_nil in Hnil|].
  eapply piece_trans; [exact Hp|apply piece_left].
Qed.

Lemma findall_from_piece (ic : bool) (r : regex) (n skip : nat) (s : string) (f : found) :
  f ∈ findall_from ic r n skip s ->
  ∃ s' m, piece_of s' s ∧ match_here ic r s' = Some m ∧ f = report n s' m.
Proof.
  revert skip. induction s as [|c s IH]; intros skip; cbn [findall_from].
  - destruct skip; [|by intros ?%elem_of_nil].
    destruct (match_here ic r "") as [m|] eqn:Hm; [|by intros ?%elem_of_nil].
    intros ->%list_elem_of_singleton. exists "", m. split; [apply piece_refl|done].
  - assert (∀ skip', f ∈ findall_from ic r n skip' s ->
              ∃ s' m, piece_of s' (String c s) ∧ match_here ic r s' = Some m
                      ∧ f = report n s' m) as Hrec.
    { intros skip' Hin. destruct (IH _ Hin) as (s' & m & Hp & Hm & ->).
      exists s', m. split; [|done].
      eapply piece_trans; [exact Hp|apply (piece_right (String c "") s)]. }
    destruct skip as [|skip]; [|by apply Hrec].
    destruct (match_here ic r (String c s)) as [m|] eqn:Hm; [|by apply Hrec].
    intros [->|Hin]%elem_of_cons; [|by eapply Hrec].
    exists (String c s), m. split; [apply piece_refl|done].
Qed.

Lemma report_piece (ic : bool) (r : regex) (n : nat) (s : string) (m : mobj) (x : string) :
  match_here ic r s = Some m -> x ∈ candidates_of (report n s m) -> piece_of x s.
Proof.
  intros Hm. destruct n as [|[|n]]; cbn [report candidates_of].
  - destruct (Text.nonempty _); [|by intros ?%elem_of_nil].
    intros ->%list_elem_of_singleton.
    eapply piece_trans; [apply strip_piece|].
    apply match_here_sound in Hm as (w & Hs & _). rewrite Hs at 1 2.
    rewrite consumed_append. apply piece_left.
  - destruct (Text.nonempty _); [|by intros ?%elem_of_nil].
    intros ->%list_elem_of_singleton.
    eapply piece_trans; [apply strip_piece|]. by eapply group_piece.
  - rewrite list_elem_of_In. intros [Hx _]%filter_In.
    apply in_map_iff in Hx as (i & <- & _). by eapply group_piece.
Qed.

Lemma starts_with_app (x b : string) : Text.starts_with x (x +:+ b) = true.
Proof.
  induction x as [|c x IH]; [done|].
  change (String c x +:+ b) with (String c (x +:+ b)). cbn [Text.starts_with].
  by rewrite Ascii.eqb_refl, IH.
Qed.

Lemma piece_contains (x s : string) : piece_of x s -> Text.contains x s = true.
Proof.
  intros (a & b & ->). induction a as [|c a IH].
  - change ("" +:+ ?y) with y. destruct (x +:+ b) eqn:He; cbn [Text.contains];
      rewrite <- He, starts_with_app; done.
  - change (String c a +:+ ?y) with (String c (a +:+ y)). cbn [Text.contains].
    rewrite IH. apply orb_true_r.
Qed.

(** X15. The extractor invents nothing: whatever the text, every
    candidate of every field is a piece of the text, character for
    character ([candidate in text_content] holds). *)
Theorem candidates_are_pieces (text_content field : string) (l : list string)
    (x : string) :
  _extract_sof_data text_content !! field = Some l -> x ∈ l ->
  piece_of x text_content ∧ Text.contains x text_content = true.
Proof.
  intros Hl Hx. apply extract_from_lookup in Hl as (patterns & Hin & ->).
  rewrite unique_empty, keep_first_elem_of in Hx.
  unfold raw_matches in Hx. rewrite list_elem_of_In, in_flat_map in Hx.
  destruct Hx as (pattern & Hp & Hx). apply in_flat_map in Hx as (f & Hf & Hx).
  apply list_elem_of_In in Hf, Hx.
  apply findall_from_piece in Hf as (s & m & Hs & Hm & ->).
  assert (piece_of x text_content) as Hpiece.
  { eapply piece_trans; [|exact Hs]. by eapply report_piece. }
  split; [done|]. by apply piece_contains.
Qed.

Lemma candidates_are_pieces_witness :
  piece_of "12A" ("Voyage No: 12A" +:+ LF)
  ∧ Text.contains "12A" ("Voyage No: 12A" +:+ LF) = true.
Proof.
  exact (candidates_are_pieces ("Voyage No: 12A" +:+ LF) "voyage_number" ["12A"] "12A"
           ltac:(by vm_compute) ltac:(by left)).
Defined.

End Pieces.
